(** * san-cli [Service]: plugin registry, command registry and dispatch

    A shallow embedding of [packages/san-cli/lib/Service.js] and the
    properties of its project-option loading, command registration and
    command dispatch. *)

From Stdlib Require Import ZArith Ascii String DecimalString.
From stdpp Require Import gmap strings list fin_maps pretty.

Open Scope string_scope.
Open Scope list_scope.

(** ** JavaScript strings and the regular expressions of the source

    A JavaScript string is modelled as a [string] whose characters are the
    code units below 256. *)

Module Str.

(** The class [\s] (and the set removed by [String.prototype.trim])
    restricted to code units below 256: TAB, LF, VT, FF, CR, SPACE, NBSP. *)
Definition isSpace (c : ascii) : bool :=
  match nat_of_ascii c with
  | 9 | 10 | 11 | 12 | 13 | 32 | 160 => true
  | _ => false
  end.

Definition startsWithSpace (s : string) : bool :=
  match s with
  | String c _ => isSpace c
  | EmptyString => false
  end.

(** [s.replace(/\s{2,}/g, ' ')]: every maximal run of two or more
    white-space characters becomes one SPACE; a lone white-space character
    is kept as it is. [inRun] says that the scan is inside a run whose
    replacement has already been emitted. *)
Fixpoint collapseFrom (inRun : bool) (s : string) : string :=
  match s with
  | EmptyString => EmptyString
  | String c s' =>
      if isSpace c then
        if inRun then collapseFrom true s'
        else if startsWithSpace s' then String " " (collapseFrom true s')
        else String c (collapseFrom false s')
      else String c (collapseFrom false s')
  end.

Definition collapseSpaces (s : string) : string := collapseFrom false s.

(** [closes o c s]: [s] matches [[^o]*c] at its start, that is, the
    closing character [c] occurs in [s] before any opening character [o]. *)
Fixpoint closes (o c : ascii) (s : string) : bool :=
  match s with
  | EmptyString => false
  | String x s' =>
      if Ascii.eqb x c then true
      else if Ascii.eqb x o then false
      else closes o c s'
  end.

(** The body of the negative lookahead [(?![^[]*]|[^<]*>)]. *)
Definition insideBrackets (s : string) : bool :=
  closes "[" "]" s || closes "<" ">" s.

(** [s.split(/\s+(?![^[]*]|[^<]*>)/)[0]]: the text before the first
    white-space character that is not followed by a closing bracket of an
    argument placeholder. White-space characters are neither brackets, so
    the lookahead gives the same answer after any white-space character of
    a run as after the whole run. *)
Fixpoint firstToken (s : string) : string :=
  match s with
  | EmptyString => EmptyString
  | String c s' =>
      if isSpace c && negb (insideBrackets s') then EmptyString
      else String c (firstToken s')
  end.

Fixpoint trimStart (s : string) : string :=
  match s with
  | EmptyString => EmptyString
  | String c s' => if isSpace c then trimStart s' else s
  end.

Fixpoint trimEnd (s : string) : string :=
  match s with
  | EmptyString => EmptyString
  | String c s' =>
      match trimEnd s' with
      | EmptyString => if isSpace c then EmptyString else String c EmptyString
      | r => String c r
      end
  end.

(** No two adjacent white-space characters. *)
Fixpoint noDoubleSpace (s : string) : bool :=
  match s with
  | EmptyString => true
  | String c s' => negb (isSpace c && startsWithSpace s') && noDoubleSpace s'
  end.

(** [s.trim()] *)
Definition trim (s : string) : string := trimEnd (trimStart s).

(** [/^https?:/.test(s)] *)
Definition isHttpUrl (s : string) : bool :=
  String.prefix "http:" s || String.prefix "https:" s.

(** [s.replace(/^([^/.])/, '/$1')] *)
Definition addLeadingSlash (s : string) : string :=
  match s with
  | EmptyString => EmptyString
  | String c _ =>
      if Ascii.eqb c "/" || Ascii.eqb c "." then s else String "/" s
  end.

(** [s.replace(/([^/])$/, '$1/')] *)
Fixpoint addTrailingSlash (s : string) : string :=
  match s with
  | EmptyString => EmptyString
  | String c EmptyString =>
      if Ascii.eqb c "/" then s else String c (String "/" EmptyString)
  | String c s' => String c (addTrailingSlash s')
  end.

(** [s.replace(/^\.\//, '')] *)
Definition stripDotSlash (s : string) : string :=
  match s with
  | String "." (String "/" s') => s'
  | _ => s
  end.

(** [s.replace(/\/$/g, '')]: the pattern is anchored at the end, so at
    most one slash is removed. *)
Fixpoint stripTrailingSlash (s : string) : string :=
  match s with
  | EmptyString => EmptyString
  | String c EmptyString => if Ascii.eqb c "/" then EmptyString else s
  | String c s' => String c (stripTrailingSlash s')
  end.

End Str.

(** [getCommandName] (Service.js, end of file). *)
Definition getCommandName (command : string) : string :=
  Str.trim (Str.firstToken (Str.collapseSpaces command)).

(** ** JavaScript values

    Functions are values with an identity; what a call does is given by
    the tables of the section [Program] below. An array is the list of
    its elements (a hole reads as [undefined]); like a function, it
    carries no named properties of its own here. *)

#[warnings="-register-all"]
Inductive value : Type :=
  | VUndef
  | VNull
  | VBool (b : bool)
  | VNum (n : Z)
  | VStr (s : string)
  | VFun (f : nat)
  | VObj (o : gmap string value)
  | VArr (l : list value).

Abbreviation object := (gmap string value).

(** ToBoolean *)
Definition truthy (v : value) : bool :=
  match v with
  | VUndef | VNull => false
  | VBool b => b
  | VNum n => negb (n =? 0)%Z
  | VStr s => negb (String.eqb s "")
  | VFun _ | VObj _ | VArr _ => true
  end.

(** [a || b] *)
Definition jsOr (a b : value) : value := if truthy a then a else b.

(** [o[k]] for an object [o]: a missing property reads as [undefined]. *)
Definition getProp (o : object) (k : string) : value :=
  default VUndef (o !! k).

(** The elements of an array under their indices. *)
Definition indexed (l : list value) : object :=
  list_to_map (imap (fun i v => (pretty i, v)) l).

(** The own enumerable properties of a value, as [Object.assign] and
    lodash read them from a source or from [Object(v)]: those of an
    object, the elements of an array and the characters of a string under
    their indices, and none for the other values (a function carries no
    properties of its own here). *)
Definition ownProps (v : value) : object :=
  match v with
  | VObj o => o
  | VArr l => indexed l
  | VStr s =>
      list_to_map
        (imap (fun i c => (pretty i, VStr (String c EmptyString)))
              (list_ascii_of_string s))
  | _ => ∅
  end.

(** The array index a property name stands for: a decimal numeral
    without sign or leading zero. *)
Definition indexOf (k : string) : option nat :=
  match NilEmpty.uint_of_string k with
  | Some u =>
      let i := Nat.of_uint u in
      if String.eqb (pretty i) k then Some i else None
  | None => None
  end.

(** One more than the greatest array index among the property names of
    an object, or 0. *)
Definition indexBound (o : object) : nat :=
  map_fold (fun k _ n =>
              match indexOf k with
              | Some i => Nat.max n (S i)
              | None => n
              end) 0 o.

(** The elements a source has from the index [n] on: those of an array,
    and for an object what it has under the index names. *)
Definition elementsFrom (n : nat) (src : value) : list value :=
  match src with
  | VArr l => drop n l
  | VObj o =>
      (fun i => default VUndef (o !! pretty i)) <$> seq n (indexBound o - n)
  | _ => []
  end.

(** [Object.assign(target, source)]: the source's properties overwrite
    the target's. *)
Definition objectAssign (target source : object) : object :=
  source ∪ target.

(** lodash [defaultsDeep] below the top level: the destination value is
    kept unless it is [undefined]; when destination and source are both
    objects or arrays, the source's properties are filled in recursively,
    property by property: a destination array is filled in element by
    element and gets the elements that the source has beyond its length,
    a destination object gets the elements of a source array under their
    indices. *)
Fixpoint defaultsDeepValue (dst src : value) {struct dst} : value :=
  match dst, src with
  | VObj d, (VObj _ | VArr _) =>
      VObj (union_with (fun dv sv => Some (defaultsDeepValue dv sv))
              d (ownProps src))
  | VArr d, (VObj _ | VArr _) =>
      VArr ((fix fill (i : nat) (d : list value) {struct d} : list value :=
               match d with
               | [] => []
               | dv :: d' =>
                   match ownProps src !! pretty i with
                   | Some sv => defaultsDeepValue dv sv
                   | None => dv
                   end :: fill (S i) d'
               end) 0 d
            ++ elementsFrom (length d) src)
  | VUndef, _ => src
  | _, _ => dst
  end.

(** A value that is neither [undefined] nor a plain object nor an array:
    as a destination of [defaultsDeep] it stays as it is. *)
Definition isLeaf (v : value) : bool :=
  match v with
  | VUndef | VObj _ | VArr _ => false
  | _ => true
  end.

(** lodash [defaultsDeep(object, source)]: [Object(object)] is filled in
    with the properties of [source] and returned (it is the destination
    itself, mutated, when that is an object). The result is given by its
    properties: the configuration is only ever read by property name. *)
Definition defaultsDeep (dst : value) (src : object) : object :=
  union_with (fun dv sv => Some (defaultsDeepValue dv sv)) (ownProps dst) src.

(** ** Errors, results and the log *)

Inductive error : Type :=
  | TypeError
  | SError (msg : string)
  | Thrown (v : value).

Inductive outcome (A : Type) : Type :=
  | Ok (a : A)
  | Throw (e : error).
Arguments Ok {A} a.
Arguments Throw {A} e.

Definition isOk {A} (r : outcome A) : bool :=
  match r with Ok _ => true | Throw _ => false end.

Definition obind {A B} (r : outcome A) (k : A -> outcome B) : outcome B :=
  match r with
  | Ok a => k a
  | Throw e => Throw e
  end.

(** [v[k]]: reading a property of [undefined] or [null] is a TypeError;
    an array has its elements and its [length]; a primitive or a function
    has none of the properties read here. *)
Definition getField (v : value) (k : string) : outcome value :=
  match v with
  | VUndef | VNull => Throw TypeError
  | VObj o => Ok (getProp o k)
  | VArr l =>
      Ok (if String.eqb k "length" then VNum (Z.of_nat (length l))
          else match indexOf k with
               | Some i => default VUndef (l !! i)
               | None => VUndef
               end)
  | _ => Ok VUndef
  end.

(** What the logger is given (debug messages are left out). *)
Inductive LogEntry : Type :=
  | LogError (text : string)
  | LogErrorValue (v : value)
  | LogErrorThrown (e : error)
  | LogWarn (text : string).

(** ** The data of a Service *)

(** A function registered as a command's own handler; [EmptyHandler name]
    is the closure that [registerCommand] installs when none is given. *)
Inductive HandlerRef : Type :=
  | UserHandler (f : nat)
  | EmptyHandler (name : value).

(** The value [registerCommand] stores in [registeredCommands]. *)
Record Descriptor : Type := mkDescriptor {
  command : value;
  handler : HandlerRef;
  aliases : value;
  extend : value;
  describe : value;
  builder : value
}.

(** The [builder] handed to the parser is either the very object stored in
    [registeredCommandFlags] under a key (that object is created by the
    first [registerCommandFlag] for the key and only mutated afterwards, so
    the key identifies it), or an object of its own. *)
Inductive BuilderRef : Type :=
  | AggregateOf (cmd : string)
  | OwnBuilder (flags : object).

(** The module [runCommand] hands to the parser. The closure [handler]
    captures the array stored in [registeredCommandHandlers] for [cmd]
    when there is one ([cm_handlers = Some cmd]) and [undefined]
    otherwise, and the descriptor's own handler. *)
Record CliModule : Type := mkCliModule {
  cm_command : value;
  cm_handlers : option string;
  cm_oHandler : HandlerRef;
  cm_describe : value;
  cm_builder : BuilderRef;
  cm_aliases : value
}.

(** An element of [this.plugins]: a loaded value, or the two-element
    array [[plugin, options]] that [_loadPlugin] builds. *)
Inductive PluginEntry : Type :=
  | EntryValue (p : value)
  | EntryPair (p : value) (options : value).

(** A plugin specifier given to the constructor or to [addPlugin]: a
    value, or the two-element array [[p, options]], which has a
    constructor of its own because the code takes it apart; [Single] of a
    two-element array is read in the same way. *)
Inductive PluginSpec : Type :=
  | Single (p : value)
  | Pair (p : value) (options : value).

(** One call [apply(api, projectOptions, options)] made by [initPlugin]. *)
Record Application : Type := mkApplication {
  app_fn : nat;
  app_id : value;
  app_projectOptions : value;
  app_options : value
}.

Record Service : Type := mkService {
  cwd : string;
  initialized : bool;
  mode : value;
  _initProjectOptions : value;
  projectOptions : value;
  webpackChainFns : list value;
  webpackRawConfigFns : list value;
  registeredCommands : gmap string Descriptor;
  registeredCommandFlags : gmap string object;
  registeredCommandHandlers : gmap string (list value);
  cliCommands : list CliModule;
  cliParsed : list (list string);
  devServerMiddlewares : list value;
  plugins : list PluginEntry;
  applied : list Application;
  log : list LogEntry
}.

Definition set_initialized (x : bool) (s : Service) : Service :=
  {| cwd := cwd s;
     initialized := x;
     mode := mode s;
     _initProjectOptions := _initProjectOptions s;
     projectOptions := projectOptions s;
     webpackChainFns := webpackChainFns s;
     webpackRawConfigFns := webpackRawConfigFns s;
     registeredCommands := registeredCommands s;
     registeredCommandFlags := registeredCommandFlags s;
     registeredCommandHandlers := registeredCommandHandlers s;
     cliCommands := cliCommands s;
     cliParsed := cliParsed s;
     devServerMiddlewares := devServerMiddlewares s;
     plugins := plugins s;
     applied := applied s;
     log := log s |}.

Definition set_mode (x : value) (s : Service) : Service :=
  {| cwd := cwd s;
     initialized := initialized s;
     mode := x;
     _initProjectOptions := _initProjectOptions s;
     projectOptions := projectOptions s;
     webpackChainFns := webpackChainFns s;
     webpackRawConfigFns := webpackRawConfigFns s;
     registeredCommands := registeredCommands s;
     registeredCommandFlags := registeredCommandFlags s;
     registeredCommandHandlers := registeredCommandHandlers s;
     cliCommands := cliCommands s;
     cliParsed := cliParsed s;
     devServerMiddlewares := devServerMiddlewares s;
     plugins := plugins s;
     applied := applied s;
     log := log s |}.

Definition set_initProjectOptions (x : value) (s : Service) : Service :=
  {| cwd := cwd s;
     initialized := initialized s;
     mode := mode s;
     _initProjectOptions := x;
     projectOptions := projectOptions s;
     webpackChainFns := webpackChainFns s;
     webpackRawConfigFns := webpackRawConfigFns s;
     registeredCommands := registeredCommands s;
     registeredCommandFlags := registeredCommandFlags s;
     registeredCommandHandlers := registeredCommandHandlers s;
     cliCommands := cliCommands s;
     cliParsed := cliParsed s;
     devServerMiddlewares := devServerMiddlewares s;
     plugins := plugins s;
     applied := applied s;
     log := log s |}.

Definition set_projectOptions (x : value) (s : Service) : Service :=
  {| cwd := cwd s;
     initialized := initialized s;
     mode := mode s;
     _initProjectOptions := _initProjectOptions s;
     projectOptions := x;
     webpackChainFns := webpackChainFns s;
     webpackRawConfigFns := webpackRawConfigFns s;
     registeredCommands := registeredCommands s;
     registeredCommandFlags := registeredCommandFlags s;
     registeredCommandHandlers := registeredCommandHandlers s;
     cliCommands := cliCommands s;
     cliParsed := cliParsed s;
     devServerMiddlewares := devServerMiddlewares s;
     plugins := plugins s;
     applied := applied s;
     log := log s |}.

Definition set_webpackChainFns (x : list value) (s : Service) : Service :=
  {| cwd := cwd s;
     initialized := initialized s;
     mode := mode s;
     _initProjectOptions := _initProjectOptions s;
     projectOptions := projectOptions s;
     webpackChainFns := x;
     webpackRawConfigFns := webpackRawConfigFns s;
     registeredCommands := registeredCommands s;
     registeredCommandFlags := registeredCommandFlags s;
     registeredCommandHandlers := registeredCommandHandlers s;
     cliCommands := cliCommands s;
     cliParsed := cliParsed s;
     devServerMiddlewares := devServerMiddlewares s;
     plugins := plugins s;
     applied := applied s;
     log := log s |}.

Definition set_webpackRawConfigFns (x : list value) (s : Service) : Service :=
  {| cwd := cwd s;
     initialized := initialized s;
     mode := mode s;
     _initProjectOptions := _initProjectOptions s;
     projectOptions := projectOptions s;
     webpackChainFns := webpackChainFns s;
     webpackRawConfigFns := x;
     registeredCommands := registeredCommands s;
     registeredCommandFlags := registeredCommandFlags s;
     registeredCommandHandlers := registeredCommandHandlers s;
     cliCommands := cliCommands s;
     cliParsed := cliParsed s;
     devServerMiddlewares := devServerMiddlewares s;
     plugins := plugins s;
     applied := applied s;
     log := log s |}.

Definition set_registeredCommands (x : gmap string Descriptor) (s : Service) : Service :=
  {| cwd := cwd s;
     initialized := initialized s;
     mode := mode s;
     _initProjectOptions := _initProjectOptions s;
     projectOptions := projectOptions s;
     webpackChainFns := webpackChainFns s;
     webpackRawConfigFns := webpackRawConfigFns s;
     registeredCommands := x;
     registeredCommandFlags := registeredCommandFlags s;
     registeredCommandHandlers := registeredCommandHandlers s;
     cliCommands := cliCommands s;
     cliParsed := cliParsed s;
     devServerMiddlewares := devServerMiddlewares s;
     plugins := plugins s;
     applied := applied s;
     log := log s |}.

Definition set_registeredCommandFlags (x : gmap string object) (s : Service) : Service :=
  {| cwd := cwd s;
     initialized := initialized s;
     mode := mode s;
     _initProjectOptions := _initProjectOptions s;
     projectOptions := projectOptions s;
     webpackChainFns := webpackChainFns s;
     webpackRawConfigFns := webpackRawConfigFns s;
     registeredCommands := registeredCommands s;
     registeredCommandFlags := x;
     registeredCommandHandlers := registeredCommandHandlers s;
     cliCommands := cliCommands s;
     cliParsed := cliParsed s;
     devServerMiddlewares := devServerMiddlewares s;
     plugins := plugins s;
     applied := applied s;
     log := log s |}.

Definition set_registeredCommandHandlers (x : gmap string (list value)) (s : Service) : Service :=
  {| cwd := cwd s;
     initialized := initialized s;
     mode := mode s;
     _initProjectOptions := _initProjectOptions s;
     projectOptions := projectOptions s;
     webpackChainFns := webpackChainFns s;
     webpackRawConfigFns := webpackRawConfigFns s;
     registeredCommands := registeredCommands s;
     registeredCommandFlags := registeredCommandFlags s;
     registeredCommandHandlers := x;
     cliCommands := cliCommands s;
     cliParsed := cliParsed s;
     devServerMiddlewares := devServerMiddlewares s;
     plugins := plugins s;
     applied := applied s;
     log := log s |}.

Definition set_cliCommands (x : list CliModule) (s : Service) : Service :=
  {| cwd := cwd s;
     initialized := initialized s;
     mode := mode s;
     _initProjectOptions := _initProjectOptions s;
     projectOptions := projectOptions s;
     webpackChainFns := webpackChainFns s;
     webpackRawConfigFns := webpackRawConfigFns s;
     registeredCommands := registeredCommands s;
     registeredCommandFlags := registeredCommandFlags s;
     registeredCommandHandlers := registeredCommandHandlers s;
     cliCommands := x;
     cliParsed := cliParsed s;
     devServerMiddlewares := devServerMiddlewares s;
     plugins := plugins s;
     applied := applied s;
     log := log s |}.

Definition set_cliParsed (x : list (list string)) (s : Service) : Service :=
  {| cwd := cwd s;
     initialized := initialized s;
     mode := mode s;
     _initProjectOptions := _initProjectOptions s;
     projectOptions := projectOptions s;
     webpackChainFns := webpackChainFns s;
     webpackRawConfigFns := webpackRawConfigFns s;
     registeredCommands := registeredCommands s;
     registeredCommandFlags := registeredCommandFlags s;
     registeredCommandHandlers := registeredCommandHandlers s;
     cliCommands := cliCommands s;
     cliParsed := x;
     devServerMiddlewares := devServerMiddlewares s;
     plugins := plugins s;
     applied := applied s;
     log := log s |}.

Definition set_devServerMiddlewares (x : list value) (s : Service) : Service :=
  {| cwd := cwd s;
     initialized := initialized s;
     mode := mode s;
     _initProjectOptions := _initProjectOptions s;
     projectOptions := projectOptions s;
     webpackChainFns := webpackChainFns s;
     webpackRawConfigFns := webpackRawConfigFns s;
     registeredCommands := registeredCommands s;
     registeredCommandFlags := registeredCommandFlags s;
     registeredCommandHandlers := registeredCommandHandlers s;
     cliCommands := cliCommands s;
     cliParsed := cliParsed s;
     devServerMiddlewares := x;
     plugins := plugins s;
     applied := applied s;
     log := log s |}.

Definition set_plugins (x : list PluginEntry) (s : Service) : Service :=
  {| cwd := cwd s;
     initialized := initialized s;
     mode := mode s;
     _initProjectOptions := _initProjectOptions s;
     projectOptions := projectOptions s;
     webpackChainFns := webpackChainFns s;
     webpackRawConfigFns := webpackRawConfigFns s;
     registeredCommands := registeredCommands s;
     registeredCommandFlags := registeredCommandFlags s;
     registeredCommandHandlers := registeredCommandHandlers s;
     cliCommands := cliCommands s;
     cliParsed := cliParsed s;
     devServerMiddlewares := devServerMiddlewares s;
     plugins := x;
     applied := applied s;
     log := log s |}.

Definition set_applied (x : list Application) (s : Service) : Service :=
  {| cwd := cwd s;
     initialized := initialized s;
     mode := mode s;
     _initProjectOptions := _initProjectOptions s;
     projectOptions := projectOptions s;
     webpackChainFns := webpackChainFns s;
     webpackRawConfigFns := webpackRawConfigFns s;
     registeredCommands := registeredCommands s;
     registeredCommandFlags := registeredCommandFlags s;
     registeredCommandHandlers := registeredCommandHandlers s;
     cliCommands := cliCommands s;
     cliParsed := cliParsed s;
     devServerMiddlewares := devServerMiddlewares s;
     plugins := plugins s;
     applied := x;
     log := log s |}.

Definition set_log (x : list LogEntry) (s : Service) : Service :=
  {| cwd := cwd s;
     initialized := initialized s;
     mode := mode s;
     _initProjectOptions := _initProjectOptions s;
     projectOptions := projectOptions s;
     webpackChainFns := webpackChainFns s;
     webpackRawConfigFns := webpackRawConfigFns s;
     registeredCommands := registeredCommands s;
     registeredCommandFlags := registeredCommandFlags s;
     registeredCommandHandlers := registeredCommandHandlers s;
     cliCommands := cliCommands s;
     cliParsed := cliParsed s;
     devServerMiddlewares := devServerMiddlewares s;
     plugins := plugins s;
     applied := applied s;
     log := x |}.

(** What a plugin may do with the API object it is given: the methods of
    the Service that [_getApiInstance] lets through, and the two mutator
    registrations of [PluginAPI]. *)
Inductive ApiCall : Type :=
  | CallRegisterCommand (name yargsModule : value)
  | CallRegisterCommandFlag (cmdName flag handler : value)
  | CallAddPlugin (name : PluginSpec) (options : value)
  | CallAddDevServerMiddleware (middlewareFactory : value)
  | CallChainWebpack (fn : value)
  | CallConfigWebpack (fn : value)
  | CallThrow (e : error).

(** The final configuration: the plain object (its [devServer.before]
    apart) and the [before] hook, which is either the configured value
    itself or the closure that first installs the registered middlewares.
    The closure holds the array [this.devServerMiddlewares] itself, which
    is never replaced and which [addDevServerMiddleware] pushes to: what
    it installs is read from the Service when it is called
    ([callBeforeHook] below). *)
Inductive BeforeHook : Type :=
  | ConfiguredBefore (before : value)
  | MiddlewaresThenBefore (before : value).

(** What a call of the [before] hook does that can be observed. *)
Inductive HookEvent : Type :=
  | Used (factory : nat)
  | CalledBefore (before : nat).

Record WebpackConfig : Type := mkWebpackConfig {
  wc_config : object;
  wc_before : BeforeHook
}.

(** What a dispatch does that can be observed: the calls of handlers, in
    order, and the warning of the empty handler. *)
Inductive Event : Type :=
  | Called (h : HandlerRef) (argv : value)
  | Warned (text : string).

(** The functions among the elements of an array of handlers or of
    middlewares, and the calls of a list of functions with [argv], in
    order. *)
Definition functionsOf (handlers : list value) : list nat :=
  omap (fun h => match h with VFun f => Some f | _ => None end) handlers.

Definition calls (fs : list nat) (argv : value) : list Event :=
  (fun f => Called (UserHandler f) argv) <$> fs.

(** The handlers that a sequence of flag registrations
    [(cmdName, flag, handler)] adds for the key [cmd]. *)
Definition handlersFor (cmd : string) (regs : list (value * value * value))
    : list value :=
  omap (fun '(cmdName, _, h) =>
          match cmdName with
          | VStr c => if decide (getCommandName c = cmd) then Some h else None
          | _ => None
          end) regs.

(** ** The environment of the Service

    The modules the source requires and that are not part of it: Node's
    [path] and [fs], [require] itself, [./options], [argsert],
    [webpack-chain], [webpack-merge] and [lodash.merge], and the bodies of
    the functions that plugins and configuration files bring along. *)
Record Env : Type := mkEnv {
  path_isAbsolute : string -> bool;
  path_resolve : string -> string -> string;
  path_dirname : string -> string;
  fs_existsSync : string -> bool;
  (** [require(path)] of a configuration file *)
  requireFile : string -> outcome value;
  (** [findExisting(names, cwd)] *)
  findExisting : list string -> string -> option string;
  (** [defaults] of [./options] *)
  defaultConfig : object;
  (** [validateSync] of [./options]: [Some e] when it throws [e] *)
  validateOptions : value -> option string;
  (** [require(resolvePlugin(p, cwd))], with [cwd] first *)
  requirePlugin : string -> string -> outcome value;
  (** [require(`../configs/${id}`)] *)
  requireBuiltIn : string -> value;
  (** the body of a plugin's [apply], given [projectOptions] and [options] *)
  pluginApply : nat -> value -> value -> list ApiCall;
  (** a call [f(argv)] of a handler or pre-handler *)
  callHandler : nat -> value -> outcome value;
  (** [argsert(expected, args, length)] finds that the arguments fit;
      when they do not, it warns on the console *)
  argsert : string -> list value -> bool;
  (** [webpack-chain]: the builder, [new Config()], a call [fn(config)] of
      a chain mutator and [config.toConfig()] *)
  chain : Type;
  newConfig : chain;
  callChainFn : nat -> chain -> outcome chain;
  toConfig : chain -> object;
  (** a call [fn(config)] of a raw mutator: the configuration as the call
      leaves it and the value returned *)
  callRawFn : nat -> object -> outcome (object * value);
  webpackMerge : object -> value -> object;
  lMerge : value -> value -> value;
  (** inside the [before] hook: [app.use(fn())] for a middleware factory
      [fn], and the call [before(app, server)] of the configured hook *)
  useMiddleware : nat -> outcome unit;
  callBefore : nat -> outcome unit;
  (** [this._cli.$0] *)
  cliName : string
}.

(** ** Methods: the state and error monad

    A method runs on the Service it is called on; when it throws, what it
    had already written stays written. *)
Definition M (A : Type) : Type := Service -> outcome A * Service.

Definition ret {A} (a : A) : M A := fun s => (Ok a, s).
Definition throw {A} (e : error) : M A := fun s => (Throw e, s).
Definition bind {A B} (m : M A) (k : A -> M B) : M B :=
  fun s =>
    match m s with
    | (Ok a, s') => k a s'
    | (Throw e, s') => (Throw e, s')
    end.
Definition lift {A} (r : outcome A) : M A := fun s => (r, s).
Definition gets {A} (f : Service -> A) : M A := fun s => (Ok (f s), s).
Definition modify (f : Service -> Service) : M unit := fun s => (Ok tt, f s).
(** [try { m } catch (e) { h e }] *)
Definition tryCatch {A} (m : M A) (h : error -> M A) : M A :=
  fun s =>
    match m s with
    | (Ok a, s') => (Ok a, s')
    | (Throw e, s') => h e s'
    end.

(** A method leaves a field of the Service (or any other view [proj] of
    it) as it found it, whether it returns or throws. *)
Definition keeps {A B} (proj : Service -> B) (m : M A) : Prop :=
  forall s, proj (m s).2 = proj s.

(** The fields that no method a plugin can call writes to. *)
Definition untouchedByPlugins {B} (proj : Service -> B) : Prop :=
  (forall x s, proj (set_log x s) = proj s) /\
  (forall x s, proj (set_plugins x s) = proj s) /\
  (forall x s, proj (set_devServerMiddlewares x s) = proj s) /\
  (forall x s, proj (set_registeredCommands x s) = proj s) /\
  (forall x s, proj (set_registeredCommandFlags x s) = proj s) /\
  (forall x s, proj (set_registeredCommandHandlers x s) = proj s) /\
  (forall x s, proj (set_webpackChainFns x s) = proj s) /\
  (forall x s, proj (set_webpackRawConfigFns x s) = proj s).

(** What [initPlugin] takes an element of [this.plugins] apart into: an
    array gives its first two elements, anything else is the plugin, with
    an empty object as its options. *)
Definition entryParts (e : PluginEntry) : value * value :=
  match e with
  | EntryPair p options => (p, options)
  | EntryValue (VArr l) => (default VUndef (l !! 0), default VUndef (l !! 1))
  | EntryValue p => (p, VObj ∅)
  end.

(** The function [initPlugin] calls for an element of [this.plugins]. *)
Definition entryFunction (e : PluginEntry) : option nat :=
  match getField (entryParts e).1 "apply" with
  | Ok (VFun f) => Some f
  | _ => None
  end.

Declare Scope method_scope.
Delimit Scope method_scope with method.
Notation "'let*' x ':=' m 'in' k" := (bind m (fun x => k))
  (at level 10, x pattern, m at level 100, k at level 200) : method_scope.
Notation "m ';;' k" := (bind m (fun _ => k))
  (at level 100, k at level 200, right associativity) : method_scope.

Definition logger (e : LogEntry) : M unit :=
  modify (fun s => set_log (log s ++ [e]) s).

(** [xs.forEach(f)] and [xs.map(f)] with a callback that may throw *)
Fixpoint forEach {A} (f : A -> M unit) (xs : list A) : M unit :=
  match xs with
  | [] => ret tt
  | x :: xs' => (f x ;; forEach f xs')%method
  end.

Fixpoint mapM {A B} (f : A -> M B) (xs : list A) : M (list B) :=
  match xs with
  | [] => ret []
  | x :: xs' =>
      (let* y := f x in let* ys := mapM f xs' in ret (y :: ys))%method
  end.

(** The string a value becomes inside a template literal, or as the
    result of its [toString]; an array joins its elements with commas,
    [undefined] and [null] among them as the empty string. *)
Fixpoint toDisplay (v : value) : string :=
  match v with
  | VUndef => "undefined"
  | VNull => "null"
  | VBool true => "true"
  | VBool false => "false"
  | VNum n => pretty n
  | VStr s => s
  | VFun _ => "function"
  | VObj _ => "[object Object]"
  | VArr l =>
      String.concat ","
        (map (fun x => match x with
                       | VUndef | VNull => ""
                       | _ => toDisplay x
                       end) l)
  end.

(** [typeof v === 'object'] *)
Definition typeofObject (v : value) : bool :=
  match v with VNull | VObj _ | VArr _ => true | _ => false end.

(** [typeof v === 'function'] *)
Definition typeofFunction (v : value) : bool :=
  match v with VFun _ => true | _ => false end.

Definition BUILDIN_PLUGINS : list string :=
  ["base"; "css"; "app"; "optimization"; "babel"].

Section Program.

Context (env : Env).

Local Open Scope method_scope.

(** ** Plugin registry *)

(** What [_loadPlugin] returns for a loaded plugin. *)
Definition loadedEntry (plugin pluginOptions : value) : PluginEntry :=
  if truthy pluginOptions then EntryPair plugin pluginOptions
  else EntryValue plugin.

(** The last branch of [_loadPlugin]; [p.toString()] is
    ['[object Object]'] for an object and for an array that joins to it. *)
Definition invalidPlugin (p : value) : M PluginEntry :=
  logger (LogError "Service plugin is invalid") ;;
  match p with
  | VUndef | VNull => throw TypeError
  | VObj _ => logger (LogErrorValue p) ;; ret (EntryValue VUndef)
  | VArr _ =>
      if String.eqb (toDisplay p) "[object Object]"
      then logger (LogErrorValue p) ;; ret (EntryValue VUndef)
      else ret (EntryValue VUndef)
  | _ => ret (EntryValue VUndef)
  end.

(** [_loadPlugin(p)]. A failed load returns [undefined]. *)
Definition _loadPlugin (spec : PluginSpec) : M PluginEntry :=
  let '(p, pluginOptions) :=
    match spec with
    | Pair p options => (p, options)
    | Single (VArr [p; options]) => (p, options)
    | Single p => (p, VUndef)
    end in
  match p with
  | VStr name =>
      tryCatch
        (let* cwd := gets cwd in
         let* plugin := lift (requirePlugin env cwd name) in
         let* esModule := lift (getField plugin "__esModule") in
         let* plugin :=
           if truthy esModule then lift (getField plugin "default")
           else ret plugin in
         match plugin with
         | VNull => throw TypeError
         | VObj o =>
             if typeofFunction (getProp o "apply") then
               let o' :=
                 if truthy (getProp o "id") then o
                 else <["id" := VStr name]> o in
               ret (loadedEntry (VObj o') pluginOptions)
             else
               logger (LogError ("Plugin is invalid: " ++ name ++
                 ". Service plugin must has id and apply function!")%string) ;;
               ret (EntryValue VUndef)
         | _ =>
             logger (LogError ("Plugin is invalid: " ++ name ++
               ". Service plugin must has id and apply function!")%string) ;;
             ret (EntryValue VUndef)
         end)
        (fun e =>
           logger (LogError ("Plugin load failed: " ++ name)%string) ;;
           logger (LogErrorThrown e) ;;
           ret (EntryValue VUndef))
  | VNull => throw TypeError
  | VObj o =>
      if truthy (getProp o "id") && typeofFunction (getProp o "apply")
      then ret (loadedEntry p pluginOptions)
      else invalidPlugin p
  | _ => invalidPlugin p
  end.

(** [resolvePlugins(plugins, useBuiltInPlugin)] *)
Definition resolvePlugins (plugins : list PluginSpec)
    (useBuiltInPlugin : bool) : M (list PluginEntry) :=
  let builtInPlugins :=
    if useBuiltInPlugin
    then (fun id => EntryValue (requireBuiltIn env id)) <$> BUILDIN_PLUGINS
    else [] in
  match plugins with
  | [] => ret builtInPlugins
  | _ =>
      let* plugins := mapM _loadPlugin plugins in
      ret (builtInPlugins ++ plugins)
  end.

(** The fields the constructor sets before it resolves the plugins. *)
Definition emptyService (cwd : string) (projectOptions : value) : Service :=
  {| cwd := cwd; initialized := false; mode := VUndef;
     _initProjectOptions := projectOptions; projectOptions := VUndef;
     webpackChainFns := []; webpackRawConfigFns := [];
     registeredCommands := ∅; registeredCommandFlags := ∅;
     registeredCommandHandlers := ∅; cliCommands := []; cliParsed := [];
     devServerMiddlewares := []; plugins := []; applied := []; log := [] |}.

(** [new Service(cwd, {plugins, useBuiltInPlugin, projectOptions})] *)
Definition newService (cwd : string) (plugins : list PluginSpec)
    (useBuiltInPlugin : bool) (projectOptions : value)
    : outcome unit * Service :=
  (let* ps := resolvePlugins plugins useBuiltInPlugin in
   modify (set_plugins ps)) (emptyService cwd projectOptions).

(** A call of [argsert] as a statement. [argsert] catches what its checks
    throw and only warns on the console: the call returns whatever the
    arguments are, and nothing of the Service records the warning. *)
Definition argsertCall (expected : string) (args : list value) : M unit :=
  if argsert env expected args then ret tt else ret tt.

(** A specifier as the value it is. *)
Definition specValue (spec : PluginSpec) : value :=
  match spec with
  | Single p => p
  | Pair p options => VArr [p; options]
  end.

(** [addPlugin(name, options = {})]: an array is taken apart into its
    first two elements, whatever its length; [name.id] and [name.apply]
    are read from any other object, which throws for [null]. *)
Definition addPlugin (name : PluginSpec) (options : value) : M unit :=
  let orEmpty o := match o with VUndef => VObj ∅ | _ => o end in
  argsertCall "<string|array|object> [object|undefined]"
    [specValue name; orEmpty options] ;;
  let* (name, options) :=
    match name with
    | Pair p o => ret (p, orEmpty o)
    | Single (VArr l) =>
        ret (default VUndef (l !! 0), orEmpty (default VUndef (l !! 1)))
    | Single p =>
        if typeofObject p then
          let* id := lift (getField p "id") in
          let* apply := lift (getField p "apply") in
          argsertCall "<string> <function>" [id; apply] ;;
          ret (p, orEmpty options)
        else ret (p, orEmpty options)
    end in
  let* plugin := _loadPlugin (Pair name options) in
  modify (fun s => set_plugins (plugins s ++ [plugin]) s).

(** [addDevServerMiddleware(middlewareFactory)] *)
Definition addDevServerMiddleware (middlewareFactory : value) : M unit :=
  argsertCall "<function>" [middlewareFactory] ;;
  modify (fun s =>
    set_devServerMiddlewares
      (devServerMiddlewares s ++ [middlewareFactory]) s).

(** ** Command registry and flag aggregation *)

(** [getCommandName(command)] on any value: a value that is not a string
    has no [replace] method. *)
Definition commandNameOf (command : value) : M string :=
  match command with
  | VStr c => ret (getCommandName c)
  | _ => throw TypeError
  end.

(** [registerCommandFlag(cmdName, flag, handler)] *)
Definition registerCommandFlag (cmdName flag handler : value) : M unit :=
  argsertCall "<string> <object> <function>" [cmdName; flag; handler] ;;
  let* cmdName := commandNameOf cmdName in
  modify (fun s =>
    let flags := default ∅ (registeredCommandFlags s !! cmdName) in
    set_registeredCommandFlags
      (<[cmdName := objectAssign flags (ownProps flag)]>
         (registeredCommandFlags s)) s) ;;
  modify (fun s =>
    let handlers := default [] (registeredCommandHandlers s !! cmdName) in
    set_registeredCommandHandlers
      (<[cmdName := handlers ++ [handler]]>
         (registeredCommandHandlers s)) s).

(** A sequence of calls of [registerCommandFlag]. *)
Definition registerFlags (regs : list (value * value * value)) : M unit :=
  forEach (fun '(cmdName, flag, h) => registerCommandFlag cmdName flag h) regs.

(** [x.describe || x.description || x.desc] *)
Definition descriptionOf (x : value) : outcome value :=
  obind (getField x "describe") (fun a =>
  obind (getField x "description") (fun b =>
  obind (getField x "desc") (fun c =>
  Ok (jsOr (jsOr a b) c)))).

(** The body of [registerCommand] between the check of the arguments and
    the write to [registeredCommands]: the key and the descriptor stored
    under it. *)
Definition descriptorOf (name yargsModule : value)
    : outcome (string * Descriptor) :=
  obind
    (if typeofObject name then
       obind (getField name "command") (fun command =>
       obind (descriptionOf name) (fun description =>
       obind (getField name "builder") (fun builder =>
       obind (getField name "handler") (fun handler =>
       obind (getField name "aliases") (fun aliases =>
       obind (getField name "extend") (fun extend =>
       Ok (command, description, builder, handler, aliases, extend)))))))
     else if typeofFunction yargsModule then
       Ok (name, VUndef, VUndef, yargsModule, VUndef, VUndef)
     else
       obind (descriptionOf yargsModule) (fun description =>
       obind (getField yargsModule "builder") (fun builder =>
       obind (getField yargsModule "handler") (fun handler =>
       obind (getField yargsModule "aliases") (fun aliases =>
       obind (getField name "extend") (fun extend =>
       Ok (name, description, builder, handler, aliases, extend)))))))
    (fun '(command, description, builder, handler, aliases, extend) =>
       let handler :=
         match handler with
         | VFun f => UserHandler f
         | _ => EmptyHandler name
         end in
       match command with
       | VStr c =>
           Ok (getCommandName c,
               {| command := command;
                  handler := handler;
                  aliases := aliases;
                  extend := extend;
                  describe := if truthy description then description
                              else VBool false;
                  builder := if truthy builder then builder else VObj ∅ |})
       | _ => Throw TypeError
       end).

(** [registerCommand(name, yargsModule)] *)
Definition registerCommand (name yargsModule : value) : M unit :=
  argsertCall "<string|object> [object]" [name; yargsModule] ;;
  let* (cmdName, descriptor) := lift (descriptorOf name yargsModule) in
  modify (fun s =>
    set_registeredCommands
      (<[cmdName := descriptor]> (registeredCommands s)) s).

(** ** Initialization *)

(** Modelled from the spec: [PluginAPI] is not among the sources; its
    [chainWebpack] and [configWebpack] are the Configuration Composer's
    [addChainMutator] and [addRawMutator], which append to the two ordered
    mutator sequences. *)
Definition chainWebpack (fn : value) : M unit :=
  modify (fun s => set_webpackChainFns (webpackChainFns s ++ [fn]) s).

Definition configWebpack (fn : value) : M unit :=
  modify (fun s =>
    set_webpackRawConfigFns (webpackRawConfigFns s ++ [fn]) s).

(** One call a plugin makes on its API object ([_getApiInstance]). *)
Definition apiCall (c : ApiCall) : M unit :=
  match c with
  | CallRegisterCommand name yargsModule => registerCommand name yargsModule
  | CallRegisterCommandFlag cmdName flag handler =>
      registerCommandFlag cmdName flag handler
  | CallAddPlugin name options => addPlugin name options
  | CallAddDevServerMiddleware f => addDevServerMiddleware f
  | CallChainWebpack fn => chainWebpack fn
  | CallConfigWebpack fn => configWebpack fn
  | CallThrow e => throw e
  end.

(** [initPlugin(plugin)] *)
Definition initPlugin (plugin : PluginEntry) : M unit :=
  let '(plugin, options) := entryParts plugin in
  let* id := lift (getField plugin "id") in
  let* apply := lift (getField plugin "apply") in
  match apply with
  | VFun f =>
      let* opts := gets projectOptions in
      modify (fun s =>
        set_applied
          (applied s ++
             [{| app_fn := f; app_id := id;
                 app_projectOptions := opts;
                 app_options := options |}]) s) ;;
      forEach apiCall (pluginApply env f opts options)
  | _ => throw TypeError
  end.

(** [init(mode)]. [forEach] visits the elements the array had when the
    loop started; plugins added meanwhile are appended and not visited. *)
Definition init (mode : value) : M unit :=
  let* initialized := gets initialized in
  if initialized then ret tt
  else
    modify (set_initialized true) ;;
    modify (set_mode mode) ;;
    let* ps := gets plugins in
    forEach initPlugin ps ;;
    let* options := gets projectOptions in
    let* chainFn := lift (getField options "chainWebpack") in
    (if truthy chainFn
     then modify (fun s =>
            set_webpackChainFns (webpackChainFns s ++ [chainFn]) s)
     else ret tt) ;;
    let* options := gets projectOptions in
    let* rawFn := lift (getField options "configWebpack") in
    if truthy rawFn
    then modify (fun s =>
           set_webpackRawConfigFns (webpackRawConfigFns s ++ [rawFn]) s)
    else ret tt.

(** ** Project options *)

(** [config[key] = f(config[key])] when [config[key]] is a string *)
Definition updateString (f : string -> string) (key : string)
    (config : object) : object :=
  match getProp config key with
  | VStr val => <[key := VStr (f val)]> config
  | _ => config
  end.

(** [ensureSlash(config, key)] *)
Definition ensureSlash (config : object) (key : string) : object :=
  updateString
    (fun val =>
       Str.addTrailingSlash
         (if Str.isHttpUrl val then val else Str.addLeadingSlash val))
    key config.

(** [removeSlash(config, key)] *)
Definition removeSlash (config : object) (key : string) : object :=
  updateString Str.stripTrailingSlash key config.

(** The body of the inner loop of [normalizeConfig] for one [key] of one
    [page]; [path.isAbsolute] throws on a value that is not a string. *)
Definition normalizePageKey (dir : string) (page : value) (key : string)
    : outcome value :=
  match page with
  | VUndef | VNull => Throw TypeError
  | VObj o =>
      let v := getProp o key in
      if truthy v then
        match v with
        | VStr file =>
            if path_isAbsolute env file then Ok page
            else Ok (VObj (<[key := VStr (path_resolve env dir file)]> o))
        | _ => Throw TypeError
        end
      else Ok page
  | _ => Ok page
  end.

Definition normalizePage (dir : string) (page : value) : outcome value :=
  obind (normalizePageKey dir page "entry") (fun page =>
  normalizePageKey dir page "template").

(** The loop over [Object.keys(pages)]; the pages of a value that is not
    an object have no [entry] or [template] and are left alone. *)
Definition normalizePages (dir : string) (pages : value) : outcome value :=
  match pages with
  | VObj ps =>
      if decide (map_Forall (fun _ page => isOk (normalizePage dir page)) ps)
      then
        Ok (VObj ((fun page =>
                     match normalizePage dir page with
                     | Ok page' => page'
                     | Throw _ => page
                     end) <$> ps))
      else Throw TypeError
  | VArr ps =>
      if decide (Forall (fun page => isOk (normalizePage dir page)) ps)
      then
        Ok (VArr ((fun page =>
                     match normalizePage dir page with
                     | Ok page' => page'
                     | Throw _ => page
                     end) <$> ps))
      else Throw TypeError
  | _ => Ok pages
  end.

(** [normalizeConfig(config, filepath)] *)
Definition normalizeConfig (config : object) (filepath : value)
    : outcome object :=
  let config := ensureSlash config "publicPath" in
  let config := updateString Str.stripDotSlash "publicPath" config in
  let config := removeSlash config "outputDir" in
  let pages := getProp config "pages" in
  if truthy filepath && truthy pages then
    match filepath with
    | VStr file =>
        obind (normalizePages (path_dirname env file) pages) (fun pages' =>
        Ok (<["pages" := pages']> config))
    | _ => Throw TypeError
    end
  else Ok config.

(** The first block of [loadProjectOptions]: an explicit file name is
    made absolute and dropped, with a warning, when no such file exists. *)
Definition resolveConfigFile (configFile : value) : M value :=
  match configFile with
  | VStr file =>
      if truthy configFile then
        let* cwd := gets cwd in
        let file' :=
          if path_isAbsolute env file then file
          else path_resolve env cwd file in
        if fs_existsSync env file' then ret (VStr file')
        else
          logger (LogWarn ("config file `" ++ file ++
                           "` is not exists!")%string) ;;
          ret (VBool false)
      else ret configFile
  | _ => ret configFile
  end.

(** The object [result] of [loadProjectOptions]: [result.config] and
    [result.filepath]. [require] throws on a name that is not a string. *)
Definition readConfig (originalConfigFile configFile : value)
    : M (value * value) :=
  if truthy configFile then
    match configFile with
    | VStr file =>
        let* config := lift (requireFile env file) in
        ret (config, originalConfigFile)
    | _ => throw TypeError
    end
  else
    let* cwd := gets cwd in
    match findExisting env ["san.config.js"; ".san.config.js"] cwd with
    | Some filepath =>
        let* config := lift (requireFile env filepath) in
        ret (config, VStr filepath)
    | None => ret (VBool false, VUndef)
    end.

(** [this._initProjectOptions] is mutated in place when it is an object. *)
Definition storeInitProjectOptions (config : object) : M unit :=
  modify (fun s =>
    match _initProjectOptions s with
    | VObj _ => set_initProjectOptions (VObj config) s
    | _ => s
    end).

(** [loadProjectOptions(configFile)]; a rejected promise is a [Throw].
    [defaultsDeep] fills in [this._initProjectOptions] itself, and without
    a configuration file that same object is normalized and returned. *)
Definition loadProjectOptions (configFile : value) : M object :=
  let originalConfigFile := configFile in
  let* configFile := resolveConfigFile configFile in
  let* init := gets _initProjectOptions in
  let config := defaultsDeep init (defaultConfig env) in
  storeInitProjectOptions config ;;
  let* (fileConfig, filepath) := readConfig originalConfigFile configFile in
  if truthy fileConfig then
    (match fileConfig with
     | VObj _ | VArr _ =>
         match validateOptions env fileConfig with
         | Some e =>
             logger (LogError (toDisplay filepath ++ ": Invalid type.")%string) ;;
             throw (SError e)
         | None => ret tt
         end
     | _ =>
         logger (LogError (toDisplay filepath ++
                           ": Expected object type.")%string)
     end) ;;
    lift (normalizeConfig (defaultsDeep fileConfig config) filepath)
  else
    let* config := lift (normalizeConfig config filepath) in
    storeInitProjectOptions config ;;
    ret config.

(** The file that [loadProjectOptions] reads for [configFile]:
    [result.config] and [result.filepath]. *)
Definition loadedConfigFile (configFile : value) : M (value * value) :=
  let* configFile' := resolveConfigFile configFile in
  readConfig configFile configFile'.

(** ** Dispatch *)

(** The array [handlers] as the closure of a module finds it. *)
Definition capturedHandlers (s : Service) (m : CliModule) : list value :=
  match cm_handlers m with
  | Some cmd => default [] (registeredCommandHandlers s !! cmd)
  | None => []
  end.

(** The loop over [handlers] in the closure [handler] of [runCommand]:
    [doit] is the value returned by the last pre-handler called. *)
Fixpoint preHandlers (handlers : list value) (argv doit : value)
    : list Event * outcome value :=
  match handlers with
  | [] => ([], Ok doit)
  | VFun f :: rest =>
      match callHandler env f argv with
      | Ok (VBool false) => ([Called (UserHandler f) argv], Ok (VBool false))
      | Ok doit' =>
          let '(events, r) := preHandlers rest argv doit' in
          (Called (UserHandler f) argv :: events, r)
      | Throw e => ([Called (UserHandler f) argv], Throw e)
      end
  | _ :: rest => preHandlers rest argv doit
  end.

(** A pre-handler that returns, and returns something else than [false]. *)
Definition continues (argv : value) (f : nat) : Prop :=
  exists v, callHandler env f argv = Ok v /\ v <> VBool false.

(** [oHandler(argv)] *)
Definition callOwnHandler (oHandler : HandlerRef) (argv : value)
    : list Event * outcome unit :=
  match oHandler with
  | UserHandler f =>
      ([Called oHandler argv],
       match callHandler env f argv with
       | Ok _ => Ok tt
       | Throw e => Throw e
       end)
  | EmptyHandler name =>
      ([Called oHandler argv;
        Warned (toDisplay name ++ " has an empty handler.")%string], Ok tt)
  end.

(** The closure [handler] that [runCommand] hands to the parser, called
    with [argv] on the Service [s]: the captured array is read when the
    closure runs. A captured [undefined] is not an array and skips the
    loop. *)
Definition composedHandler (s : Service) (m : CliModule) (argv : value)
    : list Event * outcome unit :=
  match preHandlers (capturedHandlers s m) argv (VBool true) with
  | (events, Ok (VBool false)) => (events, Ok tt)
  | (events, Ok _) =>
      let '(events', r) := callOwnHandler (cm_oHandler m) argv in
      (events ++ events', r)
  | (events, Throw e) => (events, Throw e)
  end.

(** The builder object a module of the parser refers to. *)
Definition builderOf (s : Service) (m : CliModule) : object :=
  match cm_builder m with
  | AggregateOf cmd => default ∅ (registeredCommandFlags s !! cmd)
  | OwnBuilder flags => flags
  end.

(** [runCommand(cmd, rawArgs)], up to the call of the parser: the module
    is registered with [this._cli.command] and the arguments are given to
    [parse], which decides whether and with which [argv] the handler of
    the module is called. *)
Definition runCommand (cmd : string) (rawArgs : list string) : M unit :=
  let* handlers := gets (fun s => registeredCommandHandlers s !! cmd) in
  let* flags := gets (fun s => registeredCommandFlags s !! cmd) in
  let* _command := gets (fun s => registeredCommands s !! cmd) in
  match _command with
  | None =>
      logger (LogError ("`" ++ cliName env ++ " " ++ cmd ++
                        "` is not exist!")%string)
  | Some d =>
      let oFlags := ownProps (jsOr (builder d) (VObj ∅)) in
      let* builder :=
        match flags with
        | Some flags =>
            modify (fun s =>
              set_registeredCommandFlags
                (<[cmd := objectAssign flags oFlags]>
                   (registeredCommandFlags s)) s) ;;
            ret (AggregateOf cmd)
        | None => ret (OwnBuilder (objectAssign ∅ oFlags))
        end in
      modify (fun s =>
        set_cliCommands
          (cliCommands s ++
             [{| cm_command := command d;
                 cm_handlers := match handlers with
                                | Some _ => Some cmd
                                | None => None
                                end;
                 cm_oHandler := handler d;
                 cm_describe := describe d;
                 cm_builder := builder;
                 cm_aliases := aliases d |}]) s) ;;
      let rawArgs :=
        match rawArgs with
        | a :: _ => if String.eqb a cmd then rawArgs else cmd :: rawArgs
        | [] => cmd :: rawArgs
        end in
      modify (fun s => set_cliParsed (cliParsed s ++ [rawArgs]) s)
  end.

(** ** Webpack configuration *)

(** [getWebpackChainConfig()] *)
Definition getWebpackChainConfig : M (chain env) :=
  let* fns := gets webpackChainFns in
  lift
    (fold_left
       (fun acc fn =>
          obind acc (fun config =>
            match fn with
            | VFun f => callChainFn env f config
            | _ => Throw TypeError
            end))
       fns (Ok (newConfig env))).

(** One step of the loop over [webpackRawConfigFns]. *)
Definition applyRawConfigFn (config : object) (fn : value)
    : outcome object :=
  match fn with
  | VFun f =>
      obind (callRawFn env f config) (fun '(config', res) =>
      Ok (if truthy res then webpackMerge env config' res else config'))
  | _ => Ok (if truthy fn then webpackMerge env config fn else config)
  end.

(** [getWebpackConfig(chainableConfig = this.getWebpackChainConfig())];
    the default value of the parameter is computed before the body runs.
    [cloneRuleNames] copies the non-enumerable [__ruleNames] of the rules
    and leaves no trace in the properties modelled here. *)
Definition getWebpackConfig (chainableConfig : option (chain env))
    : M WebpackConfig :=
  let* chainableConfig :=
    match chainableConfig with
    | Some c => ret c
    | None => getWebpackChainConfig
    end in
  let* initialized := gets initialized in
  if negb initialized then
    throw (SError
      "Service must call init() before calling getWebpackConfig().")
  else
    let* fns := gets webpackRawConfigFns in
    let* config :=
      lift (fold_left (fun acc fn => obind acc (fun c => applyRawConfigFn c fn))
              fns (Ok (toConfig env chainableConfig))) in
    let* options := gets projectOptions in
    let* projectDevServer := lift (getField options "devServer") in
    let devServer :=
      jsOr (lMerge env (jsOr (getProp config "devServer") (VObj ∅))
                       (jsOr projectDevServer (VObj ∅)))
           (VObj ∅) in
    let* before := lift (getField devServer "before") in
    let* middlewares := gets devServerMiddlewares in
    ret {| wc_config := <["devServer" := devServer]> config;
           wc_before :=
             match middlewares with
             | [] => ConfiguredBefore before
             | _ => MiddlewaresThenBefore before
             end |}.

(** The loop of the hook closure,
    [devServerMiddlewares.forEach(fn => typeof fn === 'function' && app.use(fn()))]:
    what is not a function is passed over, and what a call throws ends
    the loop. *)
Fixpoint useMiddlewares (fns : list value) : list HookEvent * outcome unit :=
  match fns with
  | [] => ([], Ok tt)
  | VFun f :: fns' =>
      match useMiddleware env f with
      | Ok _ =>
          let '(events, r) := useMiddlewares fns' in (Used f :: events, r)
      | Throw e => ([Used f], Throw e)
      end
  | _ :: fns' => useMiddlewares fns'
  end.

(** [typeof before === 'function' && before(app, server)] *)
Definition callConfiguredBefore (before : value)
    : list HookEvent * outcome unit :=
  match before with
  | VFun b => ([CalledBefore b], callBefore env b)
  | _ => ([], Ok tt)
  end.

(** A call [before(app, server)] of the hook of a final configuration on
    the Service as it is at the time of the call. The configured value is
    called as it is, which throws when it is not a function. *)
Definition callBeforeHook (hook : BeforeHook) (s : Service)
    : list HookEvent * outcome unit :=
  match hook with
  | ConfiguredBefore (VFun b) => ([CalledBefore b], callBefore env b)
  | ConfiguredBefore _ => ([], Throw TypeError)
  | MiddlewaresThenBefore before =>
      match useMiddlewares (devServerMiddlewares s) with
      | (events, Ok _) =>
          let '(events', r) := callConfiguredBefore before in
          (events ++ events', r)
      | (events, Throw e) => (events, Throw e)
      end
  end.

End Program.

(** ** A small project

    A host with one configuration file, two user plugins and a handful of
    handlers, used for the scenarios below. *)
Module Example.

Definition fileConfig : object :=
  {[ "outputDir" := VStr "build/";
     "publicPath" := VStr "assets";
     "assetsDir" := VStr "static";
     "devServer" := VObj {[ "port" := VNum 8899 ]} ]}.

Definition defaults : object :=
  {[ "outputDir" := VStr "dist";
     "publicPath" := VStr "";
     "assetsDir" := VStr "";
     "filenameHashing" := VBool true;
     "devServer" := VObj {[ "port" := VNum 8080; "host" := VStr "0.0.0.0" ]} ]}.

(** Function identities: 0 is the [apply] of the built-in plugins, 1 and 2
    those of the user plugins; 10 is the handler of [serve], 11 to 13 are
    pre-handlers, of which 12 returns [false]; 20 is another handler; 7 is
    a chain mutator; 30 to 33 are dev-server middlewares, of which 32
    throws, and 40 is a configured [before] hook. *)
Definition serveModule : value :=
  VObj {[ "describe" := VStr "start a dev server";
          "builder" := VObj {[ "port" := VObj {[ "type" := VStr "number" ]};
                               "host" := VObj {[ "type" := VStr "string" ]} ]};
          "handler" := VFun 10 ]}.

Definition portFlag : value :=
  VObj {[ "port" := VObj {[ "type" := VStr "string" ]};
          "open" := VObj {[ "type" := VStr "boolean" ]} ]}.

Definition goodPlugin : value :=
  VObj {[ "id" := VStr "serve-plugin"; "apply" := VFun 1 ]}.

Definition flagPlugin : value := VObj {[ "apply" := VFun 2 ]}.

(** The host of a project whose configuration file exports [config]. *)
Definition hostOf (config : object) : Env :=
  {| path_isAbsolute := String.prefix "/";
     path_resolve := fun dir file => (dir ++ "/" ++ file)%string;
     path_dirname := fun _ => "/project";
     fs_existsSync := fun _ => true;
     requireFile := fun file =>
       if String.eqb file "/project/san.config.js" then Ok (VObj config)
       else Throw (Thrown (VStr "Cannot find module"));
     findExisting := fun _ cwd => Some (cwd ++ "/san.config.js")%string;
     defaultConfig := defaults;
     validateOptions := fun _ => None;
     requirePlugin := fun _ name =>
       if String.eqb name "flag-plugin" then Ok flagPlugin
       else Throw (Thrown (VStr "Cannot find module"));
     requireBuiltIn := fun id => VObj {[ "id" := VStr id; "apply" := VFun 0 ]};
     pluginApply := fun f _ _ =>
       match f with
       | 1 => [CallRegisterCommand (VStr "serve [entry]") serveModule]
       | 2 => [CallRegisterCommandFlag (VStr "serve") portFlag (VFun 11)]
       | _ => []
       end;
     callHandler := fun f _ =>
       match f with
       | 12 => Ok (VBool false)
       | 13 => Ok (VNum 0)
       | _ => Ok VUndef
       end;
     argsert := fun _ _ => true;
     chain := list nat;
     newConfig := [];
     callChainFn := fun f config => Ok (config ++ [f]);
     toConfig := fun _ => ∅;
     callRawFn := fun _ config => Ok (config, VUndef);
     webpackMerge := fun config _ => config;
     lMerge := fun a b => VObj (ownProps b ∪ ownProps a);
     useMiddleware := fun f =>
       match f with
       | 32 => Throw (Thrown (VStr "listen EADDRINUSE"))
       | _ => Ok tt
       end;
     callBefore := fun _ => Ok tt;
     cliName := "san" |}.

Definition host : Env := hostOf fileConfig.

(** A Service constructed with [projectOptions] that set [assetsDir]. *)
Definition configured : Service :=
  emptyService "/project" (VObj {[ "assetsDir" := VStr "res" ]}).

(** What [loadProjectOptions()] returns on it. *)
Definition loadedOptions : object :=
  match (loadProjectOptions host VUndef configured).1 with
  | Ok config => config
  | Throw _ => ∅
  end.

(** The same project with a configuration file that lists one plugin, and
    a Service constructed with [projectOptions] that list two. *)
Definition pluginsFile : object := {[ "plugins" := VArr [VStr "a"] ]}.

Definition withPlugins : Env := hostOf pluginsFile.

Definition listed : Service :=
  emptyService "/project" (VObj {[ "plugins" := VArr [VStr "x"; VStr "y"] ]}).

Definition listedOptions : object :=
  match (loadProjectOptions withPlugins VUndef listed).1 with
  | Ok config => config
  | Throw _ => ∅
  end.

(** The configuration file after [normalizeConfig]. *)
Definition normalized : object :=
  match normalizeConfig host fileConfig (VStr "/project/san.config.js") with
  | Ok config => config
  | Throw _ => ∅
  end.

(** A Service with no plugin at all. *)
Definition bare : Service := emptyService "/project" (VObj ∅).

(** One whose project options have a chain mutator, which [init]
    registers. *)
Definition chaining : Service :=
  set_projectOptions (VObj {[ "chainWebpack" := VFun 7 ]}) bare.

(** The state of a method's result. *)
Definition after {A} (m : M A) (s : Service) : Service := (m s).2.

(** [serve] registered, then one flag registration for it. *)
Definition withServe : Service :=
  after (registerCommandFlag host (VStr "serve") portFlag (VFun 11))
    (after (registerCommand host (VStr "serve [entry]") serveModule) bare).

(** What [registerCommand] stores for [serve]. *)
Definition serveDescriptor : Descriptor :=
  {| command := VStr "serve [entry]";
     handler := UserHandler 10;
     aliases := VUndef;
     extend := VUndef;
     describe := VStr "start a dev server";
     builder := VObj {[ "port" := VObj {[ "type" := VStr "number" ]};
                        "host" := VObj {[ "type" := VStr "string" ]} ]} |}.

(** [serve] dispatched, and the module the parser is given for it. *)
Definition dispatched : Service :=
  after (runCommand host "serve" ["--port"; "8899"]) withServe.

Definition serveCli : CliModule :=
  {| cm_command := VStr "serve [entry]";
     cm_handlers := Some "serve";
     cm_oHandler := UserHandler 10;
     cm_describe := VStr "start a dev server";
     cm_builder := AggregateOf "serve";
     cm_aliases := VUndef |}.

(** A Service constructed with a specifier that cannot be loaded between
    two that can, and the same without it; [run] sets [projectOptions]
    before it calls [init]. *)
Definition constructed (specs : list PluginSpec) : outcome unit * Service :=
  newService host "/project" specs false (VObj ∅).

Definition withMissing : Service :=
  set_projectOptions (VObj defaults)
    (constructed [Single goodPlugin; Single (VStr "missing-plugin");
                  Single (VStr "flag-plugin")]).2.

Definition withoutMissing : Service :=
  set_projectOptions (VObj defaults)
    (constructed [Single goodPlugin; Single (VStr "flag-plugin")]).2.

(** [serve] registered twice, with flag registrations around. *)
Definition flagsBefore : list (value * value * value) :=
  [(VStr "serve", portFlag, VFun 11)].
Definition flagsBetween : list (value * value * value) :=
  [(VStr "build", VObj ∅, VFun 12); (VStr "serve  [entry]", VObj ∅, VFun 13)].
Definition flagsAfter : list (value * value * value) :=
  [(VStr "serve", VObj ∅, VFun 11)].

Definition step1 : Service := after (registerFlags host flagsBefore) bare.
Definition step2 : Service :=
  after (registerCommand host (VStr "serve [entry]") serveModule) step1.
Definition step3 : Service := after (registerFlags host flagsBetween) step2.
Definition step4 : Service :=
  after (registerCommand host (VStr "serve") (VFun 20)) step3.
Definition step5 : Service := after (registerFlags host flagsAfter) step4.

Definition secondDescriptor : Descriptor :=
  {| command := VStr "serve";
     handler := UserHandler 20;
     aliases := VUndef;
     extend := VUndef;
     describe := VBool false;
     builder := VObj ∅ |}.

(** Two more pre-handlers for [serve]: 12 vetoes, 13 returns [0]. *)
Definition withVeto : Service :=
  after (registerFlags host
           [(VStr "serve", VObj ∅, VFun 12); (VStr "serve", VObj ∅, VFun 13)])
    withServe.

End Example.

(** ** Words of a command string *)

Module Words.

(** No white-space character at all. *)
Fixpoint noSpace (s : string) : bool :=
  match s with
  | EmptyString => true
  | String c s' => negb (Str.isSpace c) && noSpace s'
  end.

(** Neither of the closing brackets ["]"] and [">"]. *)
Fixpoint noClosing (s : string) : bool :=
  match s with
  | EmptyString => true
  | String c s' =>
      negb (Ascii.eqb c "]") && negb (Ascii.eqb c ">") && noClosing s'
  end.

(** The text before the first white-space character. *)
Fixpoint firstWord (s : string) : string :=
  match s with
  | EmptyString => EmptyString
  | String c s' => if Str.isSpace c then EmptyString else String c (firstWord s')
  end.

(** The last character is a slash. *)
Fixpoint endsWithSlash (s : string) : bool :=
  match s with
  | EmptyString => false
  | String c EmptyString => Ascii.eqb c "/"
  | String _ s' => endsWithSlash s'
  end.

End Words.

(** The properties that [defaultsDeep] fills a nested object or array in
    from: those of an object or an array, and none of any other source. *)
Definition mergeProps (src : value) : object :=
  match src with
  | VObj _ | VArr _ => ownProps src
  | _ => ∅
  end.

(** The value at a path of property names; [undefined] below anything
    that is not an object. *)
Fixpoint getPath (v : value) (path : list string) : value :=
  match path with
  | [] => v
  | k :: path' =>
      match v with
      | VObj o => getPath (getProp o k) path'
      | _ => VUndef
      end
  end.

(** The first element of a pair specifier, or the specifier itself:
    what [_loadPlugin] goes on with. *)
Definition specifierOf (spec : PluginSpec) : value :=
  match spec with
  | Pair p _ => p
  | Single (VArr [p; _]) => p
  | Single p => p
  end.

(** The Service without what was logged. *)
Definition withoutLog (s : Service) : Service := set_log [] s.

(** The options [initPlugin] passes for an element of [this.plugins]. *)
Definition entryOptions (e : PluginEntry) : value := (entryParts e).2.

(** What [addPlugin] hands to [_loadPlugin]: the first two elements of
    an array, or else the two arguments, with an empty object for options
    that are [undefined]. *)
Definition addedParts (name : PluginSpec) (options : value) : value * value :=
  let orEmpty o := match o with VUndef => VObj ∅ | _ => o end in
  match name with
  | Pair p o => (p, orEmpty o)
  | Single (VArr l) =>
      (default VUndef (l !! 0), orEmpty (default VUndef (l !! 1)))
  | Single p => (p, orEmpty options)
  end.

(** A method only ever appends to a list it keeps in the Service. *)
Definition appendsTo {A B} (proj : Service -> list B) (m : M A) : Prop :=
  forall s, proj s `prefix_of` proj (m s).2.

(** A list of the Service, or a list computed from it, that grows when
    one of the lists of the Service is appended to and does not depend on
    the rest of the Service that the methods below write to. *)
Definition appendOnlyView {B} (proj : Service -> list B) : Prop :=
  (forall x s, proj (set_initialized x s) = proj s) /\
  (forall x s, proj (set_mode x s) = proj s) /\
  (forall x s, proj (set_registeredCommands x s) = proj s) /\
  (forall x s, proj (set_registeredCommandFlags x s) = proj s) /\
  (forall x s, proj (set_registeredCommandHandlers x s) = proj s) /\
  (forall l s, proj s `prefix_of` proj (set_log (log s ++ l) s)) /\
  (forall l s, proj s `prefix_of` proj (set_plugins (plugins s ++ l) s)) /\
  (forall l s,
     proj s `prefix_of`
       proj (set_devServerMiddlewares (devServerMiddlewares s ++ l) s)) /\
  (forall l s,
     proj s `prefix_of` proj (set_webpackChainFns (webpackChainFns s ++ l) s)) /\
  (forall l s,
     proj s `prefix_of`
       proj (set_webpackRawConfigFns (webpackRawConfigFns s ++ l) s)) /\
  (forall l s, proj s `prefix_of` proj (set_applied (applied s ++ l) s)).

(** ** Environment files *)

(** What [dotenv.parse(fs.readFileSync(path))] gives: the variables, an
    error whose text contains ENOENT, or another error. *)
Inductive EnvRead : Type :=
  | EnvParsed (vars : gmap string string)
  | EnvMissing
  | EnvFailed (e : error).

(** [path.join], [findExisting] with a list of paths, and the reading of
    an environment file. *)
Record EnvFiles : Type := mkEnvFiles {
  path_join : string -> string -> string;
  findExistingPath : list string -> option string;
  readEnv : string -> EnvRead
}.

Section Environment.

Context (files : EnvFiles).

(** The closure [load] of [loadEnv]: an unreadable file counts as empty,
    and is reported unless the file is missing. *)
Definition loadEnvFile (envPath : string)
    : gmap string string * list LogEntry :=
  match readEnv files envPath with
  | EnvParsed vars => (vars, [])
  | EnvMissing => (∅, [])
  | EnvFailed e => (∅, [LogErrorThrown e])
  end.

(** [mode === 'production' ? mode : 'development'] *)
Definition defaultNodeEnv (mode : value) : string :=
  match mode with
  | VStr m => if String.eqb m "production" then m else "development"
  | _ => "development"
  end.

(** [if (!process.env[k]) process.env[k] = v]: an empty value is set
    again. *)
Definition setIfEmpty (k v : string) (env : gmap string string)
    : gmap string string :=
  match env !! k with
  | Some (String _ _) => env
  | _ => <[k := v]> env
  end.

(** [`.env${mode ? `.${mode}` : ''}`] *)
Definition modeEnvName (mode : value) : string :=
  (".env" ++ (if truthy mode then "." ++ toDisplay mode else ""))%string.

(** [loadEnv(mode)] on [process.env]: the new [process.env] and what is
    logged. *)
Definition loadEnv (cwd : string) (mode : value) (env : gmap string string)
    : gmap string string * list LogEntry :=
  match findExistingPath files [path_join files cwd (modeEnvName mode)] with
  | None | Some EmptyString => (env, [])
  | Some envPath =>
      let '(localEnv, log1) := loadEnvFile (envPath ++ ".local")%string in
      let '(defaultEnv, log2) := loadEnvFile envPath in
      let envObj := localEnv ∪ defaultEnv in
      let env := env ∪ envObj in
      let env :=
        if truthy mode then
          setIfEmpty "BABEL_ENV" (defaultNodeEnv mode)
            (setIfEmpty "NODE_ENV" (defaultNodeEnv mode) env)
        else env in
      (env, log1 ++ log2)
  end.

End Environment.

(** ** The run sequence *)

(** The fields of [argv] that [run] reads. *)
Record Argv : Type := mkArgv {
  argv_version : value;
  argv_mode : value;
  argv_watch : value;
  argv_configFile : value;
  argv_noProgress : value
}.

(** What [run] needs besides the environment of the Service: the
    environment files and [require('../plugins/progress')]. *)
Record RunHost : Type := mkRunHost {
  envFiles : EnvFiles;
  progressPlugin : value
}.

(** The Service together with what [run] writes outside of the fields
    above: [this.version], [process.env] and [global.__isProduction]. *)
Record Runtime : Type := mkRuntime {
  service : Service;
  version : value;
  processEnv : gmap string string;
  isProduction : option bool
}.

Section Run.

Context (env : Env) (host : RunHost).

Local Open Scope method_scope.

(** [argv.mode || (cmd === 'build' && argv.watch ? 'development' : 'production')] *)
Definition runMode (cmd : string) (argv : Argv) : value :=
  jsOr (argv_mode argv)
    (if String.eqb cmd "build" && truthy (argv_watch argv)
     then VStr "development" else VStr "production").

(** [mode === 'production'] *)
Definition isProductionMode (mode : value) : bool :=
  match mode with
  | VStr m => String.eqb m "production"
  | _ => false
  end.

(** The part of [run] that runs on the Service, after [loadEnv]. *)
Definition runService (cmd : string) (argv : Argv) (rawArgv : list string)
    (mode : value) : M unit :=
  let* options := loadProjectOptions env (argv_configFile argv) in
  modify (set_projectOptions (VObj options)) ;;
  (match getProp options "plugins" with
   | VArr ps => forEach (fun p => addPlugin env (Single p) VUndef) ps
   | _ => ret tt
   end) ;;
  (if truthy (argv_noProgress argv) then ret tt
   else addPlugin env (Single (progressPlugin host))
          (VObj {[ "name" := VStr cmd ]})) ;;
  init env mode ;;
  runCommand env cmd rawArgv.

(** [run(cmd, argv, rawArgv)]; a rejected promise is a [Throw]. *)
Definition run (cmd : string) (argv : Argv) (rawArgv : list string)
    (rt : Runtime) : outcome unit * Runtime :=
  let mode := runMode cmd argv in
  let '(penv, envLog) :=
    loadEnv (envFiles host) (cwd (service rt)) mode (processEnv rt) in
  let '(r, s) :=
    runService cmd argv rawArgv mode
      (set_log (log (service rt) ++ envLog) (service rt)) in
  (r, {| service := s;
         version := argv_version argv;
         processEnv := penv;
         isProduction := Some (isProductionMode mode) |}).

End Run.

(** ** Rule names *)

(** A rule of a webpack configuration, as far as [cloneRuleNames] looks at
    it: its [__ruleNames] property, which is absent or was defined with
    [Object.defineProperty] (so it is neither writable nor configurable)
    with the value [undefined] or an array, known by its identity; and its
    [oneOf]. An element of an array of rules is a rule, or [null] or
    [undefined] ([None]).
    The rules of the two arrays given to [cloneRuleNames] are distinct
    objects, or the same object at the same position. *)
#[warnings="-register-all"]
Inductive Rule : Type :=
  | mkRule (names : option (option nat))
           (oneOf : option (list (option Rule))).

(** [Object.defineProperty(rule, '__ruleNames', {value})]: a property
    that is there can only be defined again with the same value. *)
Definition defineRuleNames (names : option (option nat)) (v : option nat)
    : outcome (option (option nat)) :=
  match names with
  | None => Ok (Some v)
  | Some w => if decide (w = v) then Ok names else Throw TypeError
  end.

(** The body of the loop of [cloneRuleNames] for a rule [t] of [to] and
    the rule [r] of [from] at the same index, with the recursive call on
    their [oneOf]. *)
Fixpoint cloneRule (r t : Rule) {struct r} : outcome Rule :=
  let 'mkRule rnames roneOf := r in
  let 'mkRule tnames toneOf := t in
  obind (defineRuleNames tnames (default None rnames)) (fun tnames' =>
  obind
    (match toneOf, roneOf with
     | Some ts, Some rs =>
         obind
           ((fix go (rs ts : list (option Rule))
               : outcome (list (option Rule)) :=
               match rs, ts with
               | [], _ => Ok ts
               | _, [] => Ok []
               | r0 :: rs', t0 :: ts' =>
                   obind
                     (match t0, r0 with
                      | None, _ => Ok None
                      | Some _, None => Throw TypeError
                      | Some t1, Some r1 =>
                          obind (cloneRule r1 t1) (fun t1' => Ok (Some t1'))
                      end) (fun t0' =>
                   obind (go rs' ts') (fun ts'' => Ok (t0' :: ts'')))
               end) rs ts)
           (fun ts' => Ok (Some ts'))
     | _, _ => Ok toneOf
     end) (fun toneOf' =>
  Ok (mkRule tnames' toneOf'))).

(** The loop [from.forEach((r, i) => ...)] over two arrays. *)
Fixpoint cloneRules (rs ts : list (option Rule))
    : outcome (list (option Rule)) :=
  match rs, ts with
  | [], _ => Ok ts
  | _, [] => Ok []
  | r0 :: rs', t0 :: ts' =>
      obind
        (match t0, r0 with
         | None, _ => Ok None
         | Some _, None => Throw TypeError
         | Some t1, Some r1 =>
             obind (cloneRule r1 t1) (fun t1' => Ok (Some t1'))
         end) (fun t0' =>
      obind (cloneRules rs' ts') (fun ts'' => Ok (t0' :: ts'')))
  end.

(** [cloneRuleNames(to, from)]: what [to] is afterwards. *)
Definition cloneRuleNames (to from : option (list (option Rule)))
    : outcome (option (list (option Rule))) :=
  match to, from with
  | Some ts, Some rs => obind (cloneRules rs ts) (fun ts' => Ok (Some ts'))
  | _, _ => Ok to
  end.

(** A rule without its names: what [cloneRuleNames] must not change. *)
Fixpoint shapeOf (t : Rule) : Rule :=
  let 'mkRule _ oneOf := t in
  mkRule None (option_map (map (option_map shapeOf)) oneOf).

(** Every rule of the tree has its [__ruleNames] defined. *)
Fixpoint allNamed (t : Rule) : bool :=
  let 'mkRule names oneOf := t in
  match names with
  | None => false
  | Some _ =>
      match oneOf with
      | None => true
      | Some ts =>
          forallb (fun t0 => match t0 with
                             | None => true
                             | Some t1 => allNamed t1
                             end) ts
      end
  end.

(** Every rule of an array of rules, at any depth, has its names. *)
Definition allNamedRules (ts : list (option Rule)) : bool :=
  forallb (fun t0 => match t0 with
                     | None => true
                     | Some t1 => allNamed t1
                     end) ts.

(** An array of rules without the names. *)
Definition shapesOf (ts : list (option Rule)) : list (option Rule) :=
  map (option_map shapeOf) ts.

(** ** More of the small project

    Hosts that differ from [Example.host] in what the file system has and
    in what the schema accepts, the environment files of the project and
    a [run] of [serve]. *)
Module Scenario.

(** Like [Example.host], with the file [/project/missing.js] missing and
    a pre-handler 14 that throws; [find] is [findExisting] and [validate]
    the schema. *)
Definition hostWith (find : list string -> string -> option string)
    (validate : value -> option string) : Env :=
  {| path_isAbsolute := path_isAbsolute Example.host;
     path_resolve := path_resolve Example.host;
     path_dirname := path_dirname Example.host;
     fs_existsSync := fun file =>
       negb (String.eqb file "/project/missing.js");
     requireFile := requireFile Example.host;
     findExisting := find;
     defaultConfig := defaultConfig Example.host;
     validateOptions := validate;
     requirePlugin := requirePlugin Example.host;
     requireBuiltIn := requireBuiltIn Example.host;
     pluginApply := pluginApply Example.host;
     callHandler := fun f argv =>
       match f with
       | 14 => Throw (Thrown (VStr "port in use"))
       | _ => callHandler Example.host f argv
       end;
     argsert := argsert Example.host;
     chain := chain Example.host;
     newConfig := newConfig Example.host;
     callChainFn := callChainFn Example.host;
     toConfig := toConfig Example.host;
     callRawFn := callRawFn Example.host;
     webpackMerge := webpackMerge Example.host;
     lMerge := lMerge Example.host;
     useMiddleware := useMiddleware Example.host;
     callBefore := callBefore Example.host;
     cliName := cliName Example.host |}.

(** [Example.host] with an [argsert] that finds fault with every call. *)
Definition warning : Env :=
  {| path_isAbsolute := path_isAbsolute Example.host;
     path_resolve := path_resolve Example.host;
     path_dirname := path_dirname Example.host;
     fs_existsSync := fs_existsSync Example.host;
     requireFile := requireFile Example.host;
     findExisting := findExisting Example.host;
     defaultConfig := defaultConfig Example.host;
     validateOptions := validateOptions Example.host;
     requirePlugin := requirePlugin Example.host;
     requireBuiltIn := requireBuiltIn Example.host;
     pluginApply := pluginApply Example.host;
     callHandler := callHandler Example.host;
     argsert := fun _ _ => false;
     chain := chain Example.host;
     newConfig := newConfig Example.host;
     callChainFn := callChainFn Example.host;
     toConfig := toConfig Example.host;
     callRawFn := callRawFn Example.host;
     webpackMerge := webpackMerge Example.host;
     lMerge := lMerge Example.host;
     useMiddleware := useMiddleware Example.host;
     callBefore := callBefore Example.host;
     cliName := cliName Example.host |}.

(** A project with its configuration file, which the schema accepts. *)
Definition lenient : Env :=
  hostWith (findExisting Example.host) (fun _ => None).

(** The same project with a schema that rejects the file. *)
Definition strict : Env :=
  hostWith (findExisting Example.host)
    (fun _ => Some "publicPath should be string").

(** A project without a configuration file. *)
Definition unconfigured : Env :=
  hostWith (fun _ _ => None) (fun _ => None).

(** [serve] with the pre-handlers 11, 14 and 13. *)
Definition withThrowing : Service :=
  Example.after
    (registerFlags lenient
       [(VStr "serve", VObj ∅, VFun 14); (VStr "serve", VObj ∅, VFun 13)])
    Example.withServe.

(** [serve] registered, before any flag registration. *)
Definition onlyServe : Service :=
  Example.after
    (registerCommand Example.host (VStr "serve [entry]") Example.serveModule)
    Example.bare.

(** [serve] dispatched before its first flag registration. *)
Definition lateFlag : Service :=
  Example.after
    (registerCommandFlag Example.host (VStr "serve") Example.portFlag
       (VFun 11))
    (Example.after (runCommand Example.host "serve" []) onlyServe).

(** A descriptor object without a handler, and the Service it is
    registered on, which has a pre-handler for it. *)
Definition lintModule : value :=
  VObj {[ "command" := VStr "lint [files..]";
          "describe" := VStr "lint the sources" ]}.

Definition lintFlagged : Service :=
  Example.after
    (registerCommandFlag Example.host (VStr "lint") (VObj ∅) (VFun 11))
    Example.bare.

Definition withLint : Service :=
  Example.after (registerCommand Example.host lintModule VUndef) lintFlagged.

(** A Service with the plugin that registers [serve], with
    [projectOptions] set as [run] does. *)
Definition withPlugin (options : value) : Service :=
  set_projectOptions options
    (Example.after (addPlugin Example.host (Single Example.goodPlugin) VUndef)
       Example.bare).

(** Project options with a [chainWebpack] that is not a function. *)
Definition chained : object :=
  <["chainWebpack" := VStr "not a function"]> Example.defaults.

(** The environment files [.env.production] and [.env.production.local]
    of the project. *)
Definition files : EnvFiles :=
  {| path_join := fun dir name => (dir ++ "/" ++ name)%string;
     findExistingPath := fun paths =>
       match paths with
       | p :: _ =>
           if String.eqb p "/project/.env.production" then Some p else None
       | [] => None
       end;
     readEnv := fun p =>
       if String.eqb p "/project/.env.production"
       then EnvParsed {[ "API" := "https://api.example.org";
                         "NODE_ENV" := "test" ]}
       else if String.eqb p "/project/.env.production.local"
       then EnvParsed {[ "API" := "http://localhost:3000" ]}
       else EnvMissing |}.

(** [process.env] with a [PATH] and an empty [NODE_ENV]. *)
Definition shellEnv : gmap string string :=
  {[ "PATH" := "/usr/bin"; "NODE_ENV" := "" ]}.

Definition progress : value :=
  VObj {[ "id" := VStr "progress"; "apply" := VFun 3 ]}.

Definition runHost : RunHost :=
  {| envFiles := files;
     progressPlugin := progress |}.

Definition argv : Argv :=
  {| argv_version := VStr "1.0.0";
     argv_mode := VUndef;
     argv_watch := VUndef;
     argv_configFile := VUndef;
     argv_noProgress := VUndef |}.

(** A Service constructed with [projectOptions] that bring the plugin
    of [serve], not yet run. *)
Definition started : Runtime :=
  {| service :=
       emptyService "/project"
         (VObj {[ "assetsDir" := VStr "res";
                  "plugins" := VArr [Example.goodPlugin] ]});
     version := VUndef;
     processEnv := shellEnv;
     isProduction := None |}.

(** [run('serve', argv, ['--port', '8899'])] on it. *)
Definition served : Runtime :=
  (run lenient runHost "serve" argv ["--port"; "8899"] started).2.

(** The rules of an original configuration and of a merged one, which
    has lost the names and got one more rule. *)
Definition originalRules : list (option Rule) :=
  [Some (mkRule (Some (Some 1))
           (Some [Some (mkRule (Some (Some 2)) None); None]));
   None;
   Some (mkRule (Some None) None)].

Definition addedRule : option Rule := Some (mkRule None None).

(** What [resolvePlugins] returns for one plugin that loads and one that
    does not, behind the built-in plugins. *)
Definition resolved : list PluginEntry :=
  match (resolvePlugins Example.host
           [Single Example.goodPlugin; Single (VStr "missing-plugin")]
           true Example.bare).1 with
  | Ok ps => ps
  | Throw _ => []
  end.

(** The Service after [init] with a [chainWebpack] that is not a
    function. *)
Definition chainedService : Service :=
  Example.after (init Example.host (VStr "production"))
    (withPlugin (VObj chained)).

(** An initialized Service. *)
Definition ready : Service :=
  Example.after (init Example.host (VStr "production"))
    (withPlugin (VObj Example.defaults)).

(** An initialized Service whose project options configure a [before]
    hook, with one dev-server middleware, and its final configuration. *)
Definition withMiddleware : Service :=
  Example.after (addDevServerMiddleware Example.host (VFun 30))
    (Example.after (init Example.host (VStr "production"))
       (withPlugin
          (VObj (<["devServer" := VObj {[ "before" := VFun 40 ]}]>
                   Example.defaults)))).

Definition finalConfig : WebpackConfig :=
  match (getWebpackConfig Example.host None withMiddleware).1 with
  | Ok w => w
  | Throw _ => {| wc_config := ∅; wc_before := ConfiguredBefore VUndef |}
  end.

(** The same Service later on: something that is not a function and one
    more middleware have been added; and then one that throws, and
    another one. *)
Definition later : Service :=
  Example.after (addDevServerMiddleware Example.host (VFun 31))
    (Example.after (addDevServerMiddleware Example.host (VStr "static"))
       withMiddleware).

Definition failing : Service :=
  Example.after (addDevServerMiddleware Example.host (VFun 33))
    (Example.after (addDevServerMiddleware Example.host (VFun 32)) later).

(** What [loadProjectOptions()] returns without a configuration file. *)
Definition defaulted : object :=
  match (loadProjectOptions unconfigured VUndef Example.configured).1 with
  | Ok config => config
  | Throw _ => ∅
  end.

End Scenario.

(** * Properties *)

(** ** The command-name regular expressions *)

Module StrFacts.
Import Str.

Lemma space_not_bracket (x : ascii) :
  isSpace x = true ->
  Ascii.eqb x "[" = false /\ Ascii.eqb x "]" = false /\
  Ascii.eqb x "<" = false /\ Ascii.eqb x ">" = false.
Proof.
  destruct x as [[] [] [] [] [] [] [] []]; cbn; intros H;
    solve [discriminate H | repeat split].
Qed.

Lemma insideBrackets_space (x : ascii) (s : string) :
  isSpace x = true -> insideBrackets (String x s) = insideBrackets s.
Proof.
  intros Hx. destruct (space_not_bracket x Hx) as (H1 & H2 & H3 & H4).
  unfold insideBrackets. cbn [closes]. now rewrite H1, H2, H3, H4.
Qed.

(** A bracket pair whose characters are not white space. *)
Definition bracketPair (o c : ascii) : Prop :=
  (o = "["%char /\ c = "]"%char) \/ (o = "<"%char /\ c = ">"%char).

Lemma closes_insideBrackets (o c : ascii) (s : string) :
  bracketPair o c -> closes o c s = true -> insideBrackets s = true.
Proof.
  unfold insideBrackets. intros [[-> ->] | [-> ->]] ->; [reflexivity |].
  apply orb_true_r.
Qed.

Lemma closes_space (o c x : ascii) (s : string) :
  bracketPair o c -> isSpace x = true ->
  closes o c (String x s) = closes o c s.
Proof.
  intros Hp Hx. destruct (space_not_bracket x Hx) as (H1 & H2 & H3 & H4).
  destruct Hp as [[-> ->] | [-> ->]]; cbn [closes]; now rewrite ?H1, ?H2, ?H3, ?H4.
Qed.

Lemma closes_firstToken (o c : ascii) (s : string) :
  bracketPair o c -> closes o c s = true -> closes o c (firstToken s) = true.
Proof.
  intros Hp. induction s as [| x s IH]; [easy |].
  intros H. cbn [firstToken].
  destruct (isSpace x) eqn:Hx; cbn [andb].
  - rewrite closes_space in H by assumption.
    rewrite (closes_insideBrackets o c s Hp H). cbn [negb].
    rewrite closes_space by assumption. auto.
  - cbn [closes] in *. destruct (Ascii.eqb x c); [reflexivity |].
    destruct (Ascii.eqb x o); [discriminate | auto].
Qed.

Lemma insideBrackets_firstToken (s : string) :
  insideBrackets s = true -> insideBrackets (firstToken s) = true.
Proof.
  unfold insideBrackets. intros [H | H]%orb_true_iff.
  - rewrite (closes_firstToken "[" "]" s); [reflexivity | left; auto | exact H].
  - rewrite (closes_firstToken "<" ">" s); [apply orb_true_r | right; auto | exact H].
Qed.

Lemma firstToken_idem (s : string) :
  firstToken (firstToken s) = firstToken s.
Proof.
  induction s as [| x s IH]; [reflexivity |].
  cbn [firstToken].
  destruct (isSpace x && negb (insideBrackets s)) eqn:Hc; [reflexivity |].
  cbn [firstToken]. rewrite IH.
  destruct (isSpace x); cbn [andb] in *; [| reflexivity].
  apply negb_false_iff in Hc.
  now rewrite (insideBrackets_firstToken s Hc).
Qed.

Lemma firstToken_fixed_inv (x : ascii) (s : string) :
  firstToken (String x s) = String x s ->
  isSpace x && negb (insideBrackets s) = false /\ firstToken s = s.
Proof.
  cbn [firstToken].
  destruct (isSpace x && negb (insideBrackets s)); [discriminate |].
  intros [= H]. auto.
Qed.

Lemma firstToken_trimStart (s : string) :
  firstToken s = s -> firstToken (trimStart s) = trimStart s.
Proof.
  induction s as [| x s IH]; [reflexivity |].
  intros H. cbn [trimStart]. destruct (isSpace x); [| exact H].
  apply firstToken_fixed_inv in H as [_ H]. auto.
Qed.

Lemma closes_trimEnd (o c : ascii) (s : string) :
  bracketPair o c -> closes o c (trimEnd s) = closes o c s.
Proof.
  intros Hp. induction s as [| x s IH]; [reflexivity |].
  cbn [trimEnd]. destruct (trimEnd s) as [| y r] eqn:Hr.
  - cbn [closes] in IH. destruct (isSpace x) eqn:Hx.
    + rewrite closes_space by assumption. now rewrite <- IH.
    + cbn [closes]. now rewrite <- IH.
  - cbn [closes] in *. now rewrite IH.
Qed.

Lemma insideBrackets_trimEnd (s : string) :
  insideBrackets (trimEnd s) = insideBrackets s.
Proof.
  unfold insideBrackets.
  rewrite (closes_trimEnd "[" "]"), (closes_trimEnd "<" ">");
    [reflexivity | right; auto | left; auto].
Qed.

Lemma firstToken_trimEnd (s : string) :
  firstToken s = s -> firstToken (trimEnd s) = trimEnd s.
Proof.
  induction s as [| x s IH]; [reflexivity |].
  intros H. apply firstToken_fixed_inv in H as [Hc H].
  specialize (IH H). cbn [trimEnd].
  pose proof (insideBrackets_trimEnd s) as Hi.
  destruct (trimEnd s) as [| y r] eqn:Hr.
  - destruct (isSpace x) eqn:Hx; [reflexivity |].
    cbn [firstToken]. now rewrite Hx.
  - change (firstToken (String x (String y r))) with
      (if isSpace x && negb (insideBrackets (String y r)) then EmptyString
       else String x (firstToken (String y r))).
    now rewrite Hi, Hc, IH.
Qed.

Lemma trimStart_no_space (s : string) :
  startsWithSpace s = false -> trimStart s = s.
Proof. destruct s as [| x s]; cbn; [easy |]. now intros ->. Qed.

Lemma startsWithSpace_trimStart (s : string) :
  startsWithSpace (trimStart s) = false.
Proof.
  induction s as [| x s IH]; [reflexivity |].
  cbn [trimStart]. destruct (isSpace x) eqn:Hx; [exact IH | exact Hx].
Qed.

Lemma startsWithSpace_trimEnd (s : string) :
  startsWithSpace (trimEnd s) = true -> startsWithSpace s = true.
Proof.
  destruct s as [| x s]; [easy |]. cbn [trimEnd].
  destruct (trimEnd s); [destruct (isSpace x) eqn:Hx |]; cbn; congruence.
Qed.

Lemma trimEnd_idem (s : string) : trimEnd (trimEnd s) = trimEnd s.
Proof.
  induction s as [| x s IH]; [reflexivity |].
  cbn [trimEnd]. destruct (trimEnd s) as [| y r] eqn:Hr.
  - destruct (isSpace x) eqn:Hx; [reflexivity |]. cbn. now rewrite Hx.
  - change (trimEnd (String x (String y r))) with
      (match trimEnd (String y r) with
       | EmptyString => if isSpace x then EmptyString else String x EmptyString
       | r' => String x r'
       end).
    now rewrite IH.
Qed.

Lemma trim_idem (s : string) : trim (trim s) = trim s.
Proof.
  unfold trim. rewrite (trimStart_no_space (trimEnd (trimStart s))).
  - apply trimEnd_idem.
  - destruct (startsWithSpace (trimEnd (trimStart s))) eqn:H; [| reflexivity].
    apply startsWithSpace_trimEnd in H.
    now rewrite startsWithSpace_trimStart in H.
Qed.

Lemma startsWithSpace_collapse (s : string) :
  startsWithSpace (collapseFrom true s) = false /\
  (startsWithSpace s = false -> startsWithSpace (collapseFrom false s) = false).
Proof.
  induction s as [| x s [IH1 IH2]]; [easy |].
  cbn [collapseFrom startsWithSpace]. destruct (isSpace x) eqn:Hx.
  - split; [exact IH1 | discriminate].
  - cbn. now rewrite Hx.
Qed.

Lemma noDoubleSpace_collapse (s : string) (inRun : bool) :
  noDoubleSpace (collapseFrom inRun s) = true.
Proof.
  revert inRun. induction s as [| x s IH]; [reflexivity |].
  intros inRun. cbn [collapseFrom].
  destruct (startsWithSpace_collapse s) as [H1 H2].
  destruct (isSpace x) eqn:Hx.
  - destruct inRun; [apply IH |].
    destruct (startsWithSpace s) eqn:Hs; cbn [noDoubleSpace].
    + now rewrite H1, IH, andb_false_r.
    + now rewrite (H2 eq_refl), IH, andb_false_r.
  - cbn [noDoubleSpace]. now rewrite Hx, IH.
Qed.

Lemma collapse_noDoubleSpace (s : string) :
  noDoubleSpace s = true -> collapseSpaces s = s.
Proof.
  unfold collapseSpaces. induction s as [| x s IH]; [reflexivity |].
  cbn [noDoubleSpace collapseFrom]. intros [H1 H2]%andb_true_iff.
  rewrite (IH H2). destruct (isSpace x); [| reflexivity].
  cbn [andb] in H1. apply negb_true_iff in H1. now rewrite H1.
Qed.

Lemma startsWithSpace_firstToken (s : string) :
  startsWithSpace (firstToken s) = true -> startsWithSpace s = true.
Proof.
  destruct s as [| x s]; [easy |]. cbn [firstToken].
  destruct (isSpace x && negb (insideBrackets s)); cbn; congruence.
Qed.

Lemma noDoubleSpace_firstToken (s : string) :
  noDoubleSpace s = true -> noDoubleSpace (firstToken s) = true.
Proof.
  induction s as [| x s IH]; [reflexivity |].
  cbn [noDoubleSpace firstToken]. intros [H1 H2]%andb_true_iff.
  destruct (isSpace x && negb (insideBrackets s)); [reflexivity |].
  cbn [noDoubleSpace]. rewrite (IH H2), andb_true_r.
  destruct (isSpace x); [| reflexivity]. cbn [andb] in *.
  destruct (startsWithSpace (firstToken s)) eqn:Hs; [| reflexivity].
  apply startsWithSpace_firstToken in Hs. now rewrite Hs in H1.
Qed.

Lemma noDoubleSpace_trimStart (s : string) :
  noDoubleSpace s = true -> noDoubleSpace (trimStart s) = true.
Proof.
  induction s as [| x s IH]; [reflexivity |].
  intros H. cbn [trimStart]. destruct (isSpace x); [| exact H].
  cbn [noDoubleSpace] in H. apply andb_true_iff in H as [_ H]. auto.
Qed.

Lemma noDoubleSpace_trimEnd (s : string) :
  noDoubleSpace s = true -> noDoubleSpace (trimEnd s) = true.
Proof.
  induction s as [| x s IH]; [reflexivity |].
  cbn [noDoubleSpace trimEnd]. intros [H1 H2]%andb_true_iff.
  specialize (IH H2).
  pose proof (startsWithSpace_trimEnd s) as Hs.
  destruct (trimEnd s) as [| y r] eqn:Hr.
  - destruct (isSpace x) eqn:Hx; [reflexivity |]. cbn. now rewrite Hx.
  - change (noDoubleSpace (String x (String y r))) with
      (negb (isSpace x && startsWithSpace (String y r)) &&
       noDoubleSpace (String y r)).
    rewrite IH, andb_true_r.
    destruct (isSpace x); [| reflexivity]. cbn [andb] in *.
    destruct (startsWithSpace (String y r)) eqn:Hy; [| reflexivity].
    now rewrite (Hs eq_refl) in H1.
Qed.

End StrFacts.

Lemma getCommandName_fixed (s : string) :
  Str.noDoubleSpace s = true -> Str.firstToken s = s -> Str.trim s = s ->
  getCommandName s = s.
Proof.
  intros H1 H2 H3. unfold getCommandName.
  now rewrite (StrFacts.collapse_noDoubleSpace s H1), H2.
Qed.

Lemma getCommandName_idempotent (s : string) :
  getCommandName (getCommandName s) = getCommandName s.
Proof.
  apply getCommandName_fixed; unfold getCommandName, Str.trim.
  - apply StrFacts.noDoubleSpace_trimEnd, StrFacts.noDoubleSpace_trimStart,
      StrFacts.noDoubleSpace_firstToken, StrFacts.noDoubleSpace_collapse.
  - apply StrFacts.firstToken_trimEnd, StrFacts.firstToken_trimStart,
      StrFacts.firstToken_idem.
  - apply StrFacts.trim_idem.
Qed.

(** ** Dispatch: the builder handed to the parser *)

Lemma ownProps_jsOr (v : value) : ownProps (jsOr v (VObj ∅)) = ownProps v.
Proof.
  unfold jsOr. destruct v as [| | [] | n | s | f | o | l]; cbn; try reflexivity.
  - destruct (n =? 0)%Z; reflexivity.
  - destruct s; reflexivity.
Qed.

Section DispatchFacts.

Context (env : Env).

(** The module [runCommand] registers, and the Service it leaves, for a
    registered command. *)
Lemma runCommand_registered (s : Service) (cmd : string)
    (rawArgs : list string) (d : Descriptor) :
  registeredCommands s !! cmd = Some d ->
  exists (m : CliModule) (s' : Service),
    runCommand env cmd rawArgs s = (Ok tt, s') /\
    cliCommands s' = cliCommands s ++ [m] /\
    cm_command m = command d /\
    cm_oHandler m = handler d /\
    cm_describe m = describe d /\
    cm_aliases m = aliases d /\
    cm_handlers m = (fun _ => cmd) <$> registeredCommandHandlers s !! cmd /\
    cm_builder m =
      match registeredCommandFlags s !! cmd with
      | Some _ => AggregateOf cmd
      | None => OwnBuilder (objectAssign ∅ (ownProps (builder d)))
      end /\
    registeredCommandFlags s' =
      match registeredCommandFlags s !! cmd with
      | Some flags =>
          <[cmd := objectAssign flags (ownProps (builder d))]>
            (registeredCommandFlags s)
      | None => registeredCommandFlags s
      end /\
    registeredCommandHandlers s' = registeredCommandHandlers s /\
    registeredCommands s' = registeredCommands s /\
    initialized s' = initialized s.
Proof.
  intros Hd. unfold runCommand, bind, gets, modify, ret. rewrite Hd.
  rewrite ownProps_jsOr.
  destruct (registeredCommandFlags s !! cmd) as [flags |] eqn:Hf;
    destruct (registeredCommandHandlers s !! cmd) as [hs |] eqn:Hh;
    cbn; rewrite ?Hf, ?Hh; eexists _, _;
    (split; [reflexivity |]); cbn; rewrite ?Hf, ?Hh; repeat split.
Qed.

Lemma objectAssign_lookup (target source : object) (k : string) :
  objectAssign target source !! k =
    match source !! k with
    | Some v => Some v
    | None => target !! k
    end.
Proof.
  unfold objectAssign. rewrite lookup_union.
  destruct (source !! k), (target !! k); reflexivity.
Qed.

(** C9, amended: for every command key that has a flag aggregate,
    [runCommand] assigns the descriptor's builder flags into the very
    object stored in [registeredCommandFlags]: the parser's builder is
    that object, and after the dispatch the stored aggregate has the
    descriptor's builder keys with the descriptor's values and its other
    keys as before. The dispatch leaves the aggregate as it was exactly
    when it already had every builder key with the descriptor's value, as
    for a descriptor without builder flags; it changes it as soon as the
    builder has a key the aggregate lacks or binds otherwise. *)
Theorem runCommand_mutates_flag_aggregate (s : Service) (cmd : string)
    (rawArgs : list string) (flags : object) (d : Descriptor) :
  registeredCommandFlags s !! cmd = Some flags ->
  registeredCommands s !! cmd = Some d ->
  exists (m : CliModule) (s' : Service) (stored : object),
    runCommand env cmd rawArgs s = (Ok tt, s') /\
    cliCommands s' = cliCommands s ++ [m] /\
    cm_builder m = AggregateOf cmd /\
    registeredCommandFlags s' !! cmd = Some stored /\
    stored = objectAssign flags (ownProps (builder d)) /\
    (forall k v, ownProps (builder d) !! k = Some v -> stored !! k = Some v) /\
    (forall k, ownProps (builder d) !! k = None -> stored !! k = flags !! k) /\
    (stored = flags <->
     forall k v, ownProps (builder d) !! k = Some v -> flags !! k = Some v) /\
    ((exists k v, ownProps (builder d) !! k = Some v /\ flags !! k <> Some v) ->
     stored <> flags).
Proof.
  intros Hf Hd.
  destruct (runCommand_registered s cmd rawArgs d Hd)
    as (m & s' & Hrun & Hcli & _ & _ & _ & _ & _ & Hb & Hfl & _).
  rewrite Hf in Hb, Hfl.
  exists m, s', (objectAssign flags (ownProps (builder d))).
  split; [exact Hrun |]. split; [exact Hcli |]. split; [exact Hb |].
  split; [rewrite Hfl; apply lookup_insert_eq |]. split; [reflexivity |].
  split; [| split; [| split]].
  - intros k v Hk. now rewrite objectAssign_lookup, Hk.
  - intros k Hk. now rewrite objectAssign_lookup, Hk.
  - split.
    + intros Heq k v Hk. rewrite <- Heq.
      now rewrite objectAssign_lookup, Hk.
    + intros Hall. apply map_eq. intros k. rewrite objectAssign_lookup.
      destruct (ownProps (builder d) !! k) as [v |] eqn:Hk; [| reflexivity].
      symmetry. now apply Hall.
  - intros (k & v & Hk & Hne) Heq. apply Hne. rewrite <- Heq.
    now rewrite objectAssign_lookup, Hk.
Qed.

(** C2, amended: the builder [runCommand] hands to the parser has, on
    every flag name of the descriptor's builder, the descriptor's spec
    (the descriptor wins on a collision), and on every other name what the
    aggregated flags have: the keys of both sides are present. *)
Theorem runCommand_builder_descriptor_wins (s : Service) (cmd : string)
    (rawArgs : list string) (d : Descriptor) :
  registeredCommands s !! cmd = Some d ->
  exists (m : CliModule) (s' : Service),
    runCommand env cmd rawArgs s = (Ok tt, s') /\
    cliCommands s' = cliCommands s ++ [m] /\
    (forall k v, ownProps (builder d) !! k = Some v ->
                 builderOf s' m !! k = Some v) /\
    (forall k, ownProps (builder d) !! k = None ->
               builderOf s' m !! k =
                 default ∅ (registeredCommandFlags s !! cmd) !! k).
Proof.
  intros Hd.
  destruct (runCommand_registered s cmd rawArgs d Hd)
    as (m & s' & Hrun & Hcli & _ & _ & _ & _ & _ & Hb & Hfl & _).
  exists m, s'. split; [exact Hrun |]. split; [exact Hcli |].
  unfold builderOf. rewrite Hb.
  destruct (registeredCommandFlags s !! cmd) as [flags |] eqn:Hf; cbn.
  - rewrite Hfl, lookup_insert_eq. cbn.
    split; intros k; [intros v |]; intros Hk;
      now rewrite objectAssign_lookup, Hk.
  - split; intros k; [intros v |]; intros Hk;
      now rewrite objectAssign_lookup, Hk.
Qed.

End DispatchFacts.

Lemma runCommand_mutates_flag_aggregate_witness :
  exists stored : object,
    registeredCommandFlags Example.dispatched !! "serve" = Some stored /\
    stored !! "host" = Some (VObj {[ "type" := VStr "string" ]}) /\
    stored !! "open" = ownProps Example.portFlag !! "open" /\
    stored <> ownProps Example.portFlag.
Proof.
  destruct (runCommand_mutates_flag_aggregate Example.host Example.withServe
              "serve" ["--port"; "8899"] (ownProps Example.portFlag)
              Example.serveDescriptor)
    as (m & s' & stored & Hrun & _ & _ & Hst & _ & Hin & Hout & _ & Hne);
    [vm_compute; reflexivity | vm_compute; reflexivity |].
  exists stored. unfold Example.dispatched, Example.after. rewrite Hrun.
  split; [exact Hst |]. split; [| split].
  - apply Hin. vm_compute. reflexivity.
  - apply Hout. vm_compute. reflexivity.
  - apply Hne. exists "host", (VObj {[ "type" := VStr "string" ]}).
    split; [vm_compute; reflexivity |]. vm_compute. discriminate.
Defined.

(** C9 as stated fails: [serve] has the aggregate of one flag
    registration and is registered again with a bare handler, so with an
    empty builder; the dispatch leaves the stored aggregate as it was. *)
Lemma dispatch_may_keep_flag_aggregate :
  ~ (forall (env : Env) (s s' : Service) (cmd : string)
            (rawArgs : list string) (flags : object) (d : Descriptor),
       registeredCommandFlags s !! cmd = Some flags ->
       flags <> ∅ ->
       registeredCommands s !! cmd = Some d ->
       runCommand env cmd rawArgs s = (Ok tt, s') ->
       exists stored,
         registeredCommandFlags s' !! cmd = Some stored /\
         (forall k v, ownProps (builder d) !! k = Some v ->
                      stored !! k = Some v) /\
         stored <> flags).
Proof.
  intros H.
  destruct (H Example.host Example.step5
              (Example.after (runCommand Example.host "serve" [])
                 Example.step5)
              "serve" [] (ownProps Example.portFlag)
              Example.secondDescriptor)
    as (stored & Hst & _ & Hne).
  - vm_compute. reflexivity.
  - intros Heq. apply (f_equal (fun o : object => o !! "port")) in Heq.
    vm_compute in Heq. discriminate Heq.
  - vm_compute. reflexivity.
  - vm_compute. reflexivity.
  - apply Hne. vm_compute in Hst. injection Hst as <-.
    vm_compute. reflexivity.
Qed.

Lemma runCommand_builder_descriptor_wins_witness :
  exists (m : CliModule) (s' : Service),
    runCommand Example.host "serve" ["--port"; "8899"] Example.withServe
      = (Ok tt, s') /\
    cliCommands s' = cliCommands Example.withServe ++ [m] /\
    (forall k v, ownProps (builder Example.serveDescriptor) !! k = Some v ->
                 builderOf s' m !! k = Some v) /\
    (forall k, ownProps (builder Example.serveDescriptor) !! k = None ->
               builderOf s' m !! k =
                 default ∅ (registeredCommandFlags Example.withServe !! "serve")
                   !! k).
Proof.
  apply (runCommand_builder_descriptor_wins Example.host Example.withServe
           "serve" ["--port"; "8899"] Example.serveDescriptor).
  vm_compute. reflexivity.
Defined.

(** C2 as stated fails: [serve] is registered with a builder that has
    [port], a flag [port] is aggregated for it with another spec, and the
    builder the parser is given has the descriptor's [port], not the
    aggregated one. *)
Lemma aggregated_flags_do_not_win :
  ~ (forall (env : Env) (s s' : Service) (cmd : string)
            (rawArgs : list string) (d : Descriptor) (flags : object)
            (m : CliModule),
       registeredCommands s !! cmd = Some d ->
       registeredCommandFlags s !! cmd = Some flags ->
       runCommand env cmd rawArgs s = (Ok tt, s') ->
       last (cliCommands s') = Some m ->
       forall k v,
         flags !! k = Some v -> is_Some (ownProps (builder d) !! k) ->
         builderOf s' m !! k = Some v).
Proof.
  intros H.
  assert (builderOf Example.dispatched Example.serveCli !! "port"
          = Some (VObj {[ "type" := VStr "string" ]})) as Hport.
  { apply (H Example.host Example.withServe Example.dispatched "serve"
             ["--port"; "8899"] Example.serveDescriptor
             (ownProps Example.portFlag) Example.serveCli);
      try (vm_compute; reflexivity).
    vm_compute. eexists. reflexivity. }
  clear H. rename Hport into H.
  apply (f_equal (fun o => match o with
                           | Some (VObj spec) => getProp spec "type"
                           | _ => VUndef
                           end)) in H.
  vm_compute in H. discriminate H.
Qed.

(** ** Dispatch: the chain of pre-handlers *)

Section HandlerFacts.

Context (env : Env).

Lemma preHandlers_step (f : nat) (rest : list value) (argv doit v : value) :
  callHandler env f argv = Ok v -> v <> VBool false ->
  preHandlers env (VFun f :: rest) argv doit =
    (Called (UserHandler f) argv :: (preHandlers env rest argv v).1,
     (preHandlers env rest argv v).2).
Proof.
  intros Hc Hv. cbn [preHandlers]. rewrite Hc.
  destruct (preHandlers env rest argv v) as [events r].
  destruct v as [| | [] | | | | |]; try reflexivity. congruence.
Qed.

(** No veto: every function is called, in order, and the loop ends with a
    [doit] that is not [false]. *)
Lemma preHandlers_continue (handlers : list value) (argv doit : value) :
  doit <> VBool false ->
  (forall f, f ∈ functionsOf handlers -> continues env argv f) ->
  exists doit',
    preHandlers env handlers argv doit
      = (calls (functionsOf handlers) argv, Ok doit') /\
    doit' <> VBool false.
Proof.
  revert doit. induction handlers as [| h rest IH]; intros doit Hd Hall.
  - exists doit. split; [reflexivity | exact Hd].
  - destruct h as [| | b | n | t | f | o | l];
      try (cbn [preHandlers functionsOf omap]; apply IH; [exact Hd |];
           intros g Hg; apply Hall; exact Hg).
    destruct (Hall f) as (v & Hv & Hne); [cbn; left |].
    destruct (IH v Hne) as (doit' & Heq & Hd').
    { intros g Hg. apply Hall. cbn. now right. }
    exists doit'. split; [| exact Hd'].
    rewrite (preHandlers_step f rest argv doit v Hv Hne), Heq. reflexivity.
Qed.

(** A veto: the functions before the vetoing one and that one are called,
    in order, and nothing after it. *)
Lemma preHandlers_veto (handlers : list value) (argv doit : value)
    (before : list nat) (f : nat) (after : list nat) :
  functionsOf handlers = before ++ f :: after ->
  (forall g, g ∈ before -> continues env argv g) ->
  callHandler env f argv = Ok (VBool false) ->
  preHandlers env handlers argv doit
    = (calls (before ++ [f]) argv, Ok (VBool false)).
Proof.
  revert doit before.
  induction handlers as [| h rest IH]; intros doit before Hfs Hall Hf.
  - destruct before; discriminate Hfs.
  - destruct h as [| | b | n | t | g | o | l];
      try (cbn [preHandlers]; apply IH; assumption).
    cbn [functionsOf omap] in Hfs. fold (functionsOf rest) in Hfs.
    destruct before as [| g' before'].
    + injection Hfs as -> Hrest. cbn [preHandlers]. rewrite Hf. reflexivity.
    + injection Hfs as <- Hrest.
      destruct (Hall g) as (v & Hv & Hne); [left |].
      rewrite (preHandlers_step g rest argv doit v Hv Hne).
      rewrite (IH v before' Hrest); [reflexivity | | exact Hf].
      intros g' Hg'. apply Hall. now right.
Qed.

Lemma callOwnHandler_first (h : HandlerRef) (argv : value) :
  exists rest, (callOwnHandler env h argv).1 = Called h argv :: rest.
Proof. destruct h; cbn; eauto. Qed.

Lemma composedHandler_continue (s : Service) (m : CliModule) (argv : value) :
  (forall f, f ∈ functionsOf (capturedHandlers s m) -> continues env argv f) ->
  composedHandler env s m argv
    = (calls (functionsOf (capturedHandlers s m)) argv
         ++ (callOwnHandler env (cm_oHandler m) argv).1,
       (callOwnHandler env (cm_oHandler m) argv).2).
Proof.
  intros Hall. unfold composedHandler.
  destruct (preHandlers_continue (capturedHandlers s m) argv (VBool true))
    as (doit & -> & Hd); [discriminate | exact Hall |].
  destruct (callOwnHandler env (cm_oHandler m) argv) as [events r].
  destruct doit as [| | [] | | | | |]; try reflexivity. congruence.
Qed.

Lemma composedHandler_veto (s : Service) (m : CliModule) (argv : value)
    (before : list nat) (f : nat) (after : list nat) :
  functionsOf (capturedHandlers s m) = before ++ f :: after ->
  (forall g, g ∈ before -> continues env argv g) ->
  callHandler env f argv = Ok (VBool false) ->
  composedHandler env s m argv = (calls (before ++ [f]) argv, Ok tt).
Proof.
  intros Hfs Hall Hf. unfold composedHandler.
  now rewrite (preHandlers_veto _ argv (VBool true) before f after Hfs Hall Hf).
Qed.

(** C6: the handler that [runCommand] hands to the parser for a registered
    command calls the registered pre-handlers in registration order. When
    one of them returns exactly [false], the pre-handlers after it are not
    called and neither is the command's own handler; when every one
    returns a value that is not [false], the command's own handler is
    called after all of them. *)
Theorem prehandler_short_circuit (s : Service) (cmd : string)
    (rawArgs : list string) (d : Descriptor) (argv : value) :
  registeredCommands s !! cmd = Some d ->
  exists (m : CliModule) (s' : Service),
    runCommand env cmd rawArgs s = (Ok tt, s') /\
    cliCommands s' = cliCommands s ++ [m] /\
    capturedHandlers s' m = default [] (registeredCommandHandlers s !! cmd) /\
    (forall before f after,
       functionsOf (capturedHandlers s' m) = before ++ f :: after ->
       (forall g, g ∈ before -> continues env argv g) ->
       callHandler env f argv = Ok (VBool false) ->
       composedHandler env s' m argv = (calls (before ++ [f]) argv, Ok tt)) /\
    ((forall f, f ∈ functionsOf (capturedHandlers s' m) -> continues env argv f) ->
     exists rest,
       (callOwnHandler env (handler d) argv).1
         = Called (handler d) argv :: rest /\
       composedHandler env s' m argv
         = (calls (functionsOf (capturedHandlers s' m)) argv
              ++ Called (handler d) argv :: rest,
            (callOwnHandler env (handler d) argv).2)).
Proof.
  intros Hd.
  destruct (runCommand_registered env s cmd rawArgs d Hd)
    as (m & s' & Hrun & Hcli & _ & Hown & _ & _ & Hhs & _ & _ & Hh' & _).
  exists m, s'. split; [exact Hrun |]. split; [exact Hcli |].
  split; [| split].
  - unfold capturedHandlers. rewrite Hhs, Hh'.
    destruct (registeredCommandHandlers s !! cmd) eqn:E; cbn;
      [now rewrite E | reflexivity].
  - intros before f after. apply composedHandler_veto.
  - intros Hall. destruct (callOwnHandler_first (handler d) argv) as [rest Hr].
    exists rest. split; [exact Hr |].
    rewrite (composedHandler_continue s' m argv Hall), Hown, Hr. reflexivity.
Qed.

End HandlerFacts.

Lemma prehandler_short_circuit_witness :
  exists (m : CliModule) (s' : Service),
    runCommand Example.host "serve" [] Example.withVeto = (Ok tt, s') /\
    cliCommands s' = cliCommands Example.withVeto ++ [m] /\
    capturedHandlers s' m
      = default [] (registeredCommandHandlers Example.withVeto !! "serve") /\
    (forall before f after,
       functionsOf (capturedHandlers s' m) = before ++ f :: after ->
       (forall g, g ∈ before -> continues Example.host (VObj ∅) g) ->
       callHandler Example.host f (VObj ∅) = Ok (VBool false) ->
       composedHandler Example.host s' m (VObj ∅)
         = (calls (before ++ [f]) (VObj ∅), Ok tt)) /\
    ((forall f, f ∈ functionsOf (capturedHandlers s' m) ->
                continues Example.host (VObj ∅) f) ->
     exists rest,
       (callOwnHandler Example.host (handler Example.serveDescriptor)
          (VObj ∅)).1
         = Called (handler Example.serveDescriptor) (VObj ∅) :: rest /\
       composedHandler Example.host s' m (VObj ∅)
         = (calls (functionsOf (capturedHandlers s' m)) (VObj ∅)
              ++ Called (handler Example.serveDescriptor) (VObj ∅) :: rest,
            (callOwnHandler Example.host (handler Example.serveDescriptor)
               (VObj ∅)).2)).
Proof.
  apply (prehandler_short_circuit Example.host Example.withVeto "serve" []
           Example.serveDescriptor (VObj ∅)).
  vm_compute. reflexivity.
Defined.

(** The veto at work: 11 returns [undefined], 12 returns [false]; 13 and
    the handler 10 of [serve] are not called. *)
Example dispatch_with_veto :
  composedHandler Example.host
    (Example.after (runCommand Example.host "serve" []) Example.withVeto)
    Example.serveCli (VObj ∅)
  = ([Called (UserHandler 11) (VObj ∅); Called (UserHandler 12) (VObj ∅)],
     Ok tt).
Proof. vm_compute. reflexivity. Qed.

(** Without a veto the handler of [serve] runs last. *)
Example dispatch_without_veto :
  composedHandler Example.host Example.dispatched Example.serveCli (VObj ∅)
  = ([Called (UserHandler 11) (VObj ∅); Called (UserHandler 10) (VObj ∅)],
     Ok tt).
Proof. vm_compute. reflexivity. Qed.

(** ** Registration *)

Section RegistryFacts.

Context (env : Env).

(** A call of [argsert] changes nothing and never throws. *)
Lemma argsertCall_bind {A} (expected : string) (args : list value)
    (k : M A) :
  bind (argsertCall env expected args) (fun _ => k) = k.
Proof.
  unfold argsertCall. destruct (argsert env expected args); reflexivity.
Qed.

Lemma registerCommandFlag_inv (cmdName flag h : value) (s s' : Service) :
  registerCommandFlag env cmdName flag h s = (Ok tt, s') ->
  exists c,
    cmdName = VStr c /\
    s' = set_registeredCommandHandlers
           (<[getCommandName c :=
                default [] (registeredCommandHandlers s !! getCommandName c)
                  ++ [h]]> (registeredCommandHandlers s))
           (set_registeredCommandFlags
              (<[getCommandName c :=
                   objectAssign
                     (default ∅ (registeredCommandFlags s !! getCommandName c))
                     (ownProps flag)]> (registeredCommandFlags s)) s).
Proof.
  unfold registerCommandFlag. rewrite argsertCall_bind.
  destruct cmdName as [| | | | c | | |]; try discriminate.
  unfold bind, commandNameOf, ret, modify. cbn. intros [= <-].
  exists c. split; reflexivity.
Qed.

Lemma registerCommand_inv (name yargsModule : value) (s s' : Service) :
  registerCommand env name yargsModule s = (Ok tt, s') ->
  exists k d,
    descriptorOf name yargsModule = Ok (k, d) /\
    s' = set_registeredCommands (<[k := d]> (registeredCommands s)) s.
Proof.
  unfold registerCommand. rewrite argsertCall_bind.
  unfold bind, lift, modify.
  destruct (descriptorOf name yargsModule) as [[k d] | e]; [| discriminate].
  intros [= <-]. exists k, d. split; reflexivity.
Qed.

Lemma handlersFor_cons (k c : string) (f h : value)
    (regs : list (value * value * value)) :
  handlersFor k ((VStr c, f, h) :: regs) =
    if decide (getCommandName c = k) then h :: handlersFor k regs
    else handlersFor k regs.
Proof. unfold handlersFor. cbn. destruct (decide _); reflexivity. Qed.

Lemma registerFlags_inv (regs : list (value * value * value))
    (s s' : Service) :
  registerFlags env regs s = (Ok tt, s') ->
  registeredCommands s' = registeredCommands s /\
  cliCommands s' = cliCommands s /\
  forall k,
    default [] (registeredCommandHandlers s' !! k)
      = default [] (registeredCommandHandlers s !! k) ++ handlersFor k regs.
Proof.
  revert s. induction regs as [| [[c f] h] regs IH]; intros s.
  - cbn. intros [= <-]. repeat split. intros k. symmetry. apply app_nil_r.
  - unfold registerFlags. cbn [forEach]. unfold bind at 1.
    destruct (registerCommandFlag env c f h s) as [[[] | e] s1] eqn:H1;
      [| discriminate].
    intros H2. apply registerCommandFlag_inv in H1 as (c' & -> & ->).
    apply IH in H2 as (Hc & Hcli & Hh). cbn in Hc, Hcli.
    split; [exact Hc |]. split; [exact Hcli |].
    intros k. rewrite Hh, handlersFor_cons.
    cbn [set_registeredCommandHandlers registeredCommandHandlers].
    destruct (decide (getCommandName c' = k)) as [<- | Hne].
    + rewrite lookup_insert_eq. cbn [default from_option id].
      now rewrite <- List.app_assoc.
    + now rewrite lookup_insert_ne.
Qed.

Lemma registerFlags_handlers (regs : list (value * value * value))
    (s s' : Service) (k : string) :
  registerFlags env regs s = (Ok tt, s') ->
  default [] (registeredCommandHandlers s' !! k)
    = default [] (registeredCommandHandlers s !! k) ++ handlersFor k regs.
Proof. intros H. now apply registerFlags_inv in H as (_ & _ & H). Qed.

(** C5: a command registered twice under one key, with flag registrations
    before, between and after. The second registration replaces the
    stored descriptor entirely (nothing of the first one is left) and
    neither registration touches the aggregated flags or the pre-handler
    lists. The dispatch that follows captures all the pre-handlers
    registered for the key, in registration order, and, when none of them
    vetoes, calls them in that order and then the own handler of the
    second descriptor and no other handler. *)
Theorem reregistration_keeps_aggregates
    (s sa sb sc sd se : Service) (regs0 regs1 regs2 : list (value * value * value))
    (name1 ym1 name2 ym2 : value) (k : string) (d1 d2 : Descriptor)
    (rawArgs : list string) :
  descriptorOf name1 ym1 = Ok (k, d1) ->
  descriptorOf name2 ym2 = Ok (k, d2) ->
  registerFlags env regs0 s = (Ok tt, sa) ->
  registerCommand env name1 ym1 sa = (Ok tt, sb) ->
  registerFlags env regs1 sb = (Ok tt, sc) ->
  registerCommand env name2 ym2 sc = (Ok tt, sd) ->
  registerFlags env regs2 sd = (Ok tt, se) ->
  (registeredCommands sb !! k = Some d1 /\
   registeredCommands sd = <[k := d2]> (registeredCommands sa) /\
   registeredCommands se !! k = Some d2) /\
  (registeredCommandFlags sb = registeredCommandFlags sa /\
   registeredCommandHandlers sb = registeredCommandHandlers sa /\
   registeredCommandFlags sd = registeredCommandFlags sc /\
   registeredCommandHandlers sd = registeredCommandHandlers sc) /\
  exists (m : CliModule) (sf : Service),
    runCommand env k rawArgs se = (Ok tt, sf) /\
    cliCommands sf = cliCommands se ++ [m] /\
    cm_oHandler m = handler d2 /\
    capturedHandlers sf m
      = default [] (registeredCommandHandlers s !! k)
          ++ handlersFor k regs0 ++ handlersFor k regs1 ++ handlersFor k regs2 /\
    forall argv,
      (forall f, f ∈ functionsOf (capturedHandlers sf m) ->
                 continues env argv f) ->
      exists warnings,
        composedHandler env sf m argv
          = (calls (functionsOf (capturedHandlers sf m)) argv
               ++ Called (handler d2) argv :: (Warned <$> warnings),
             (callOwnHandler env (handler d2) argv).2).
Proof.
  intros Hd1 Hd2 Ha Hb Hc Hd He.
  apply registerCommand_inv in Hb as (k1 & d1' & Hb1 & ->).
  apply registerCommand_inv in Hd as (k2 & d2' & Hb2 & ->).
  rewrite Hd1 in Hb1. injection Hb1 as <- <-.
  rewrite Hd2 in Hb2. injection Hb2 as <- <-.
  pose proof (registerFlags_handlers _ _ _ k Ha) as Hha.
  pose proof (registerFlags_handlers _ _ _ k Hc) as Hhc.
  pose proof (registerFlags_handlers _ _ _ k He) as Hhe.
  apply registerFlags_inv in Hc as (Hcc & _ & _).
  apply registerFlags_inv in He as (Hce & _ & _).
  cbn in Hcc, Hce, Hhc, Hhe.
  assert (registeredCommands se !! k = Some d2) as Hk.
  { rewrite Hce. apply lookup_insert_eq. }
  split; [| split].
  - split; [apply lookup_insert_eq |]. split; [| exact Hk].
    cbn. rewrite Hcc. apply insert_insert_eq.
  - repeat split.
  - destruct (runCommand_registered env se k rawArgs d2 Hk)
      as (m & sf & Hrun & Hcli & _ & Hown & _ & _ & Hhs & _ & _ & Hh' & _).
    exists m, sf. split; [exact Hrun |]. split; [exact Hcli |].
    split; [exact Hown |].
    assert (capturedHandlers sf m
            = default [] (registeredCommandHandlers se !! k)) as Hcap.
    { unfold capturedHandlers. rewrite Hhs, Hh'.
      destruct (registeredCommandHandlers se !! k) eqn:E; cbn;
        [now rewrite E | reflexivity]. }
    split.
    + rewrite Hcap, Hhe, Hhc, Hha. now rewrite <- !List.app_assoc.
    + intros argv Hall.
      rewrite (composedHandler_continue env sf m argv Hall), Hown.
      destruct (handler d2) as [f | name]; cbn.
      * exists []. reflexivity.
      * exists [(toDisplay name ++ " has an empty handler.")%string].
        reflexivity.
Qed.

End RegistryFacts.

Lemma reregistration_keeps_aggregates_witness :
  (registeredCommands Example.step2 !! "serve" = Some Example.serveDescriptor /\
   registeredCommands Example.step4
     = <["serve" := Example.secondDescriptor]> (registeredCommands Example.step1) /\
   registeredCommands Example.step5 !! "serve" = Some Example.secondDescriptor) /\
  (registeredCommandFlags Example.step2 = registeredCommandFlags Example.step1 /\
   registeredCommandHandlers Example.step2
     = registeredCommandHandlers Example.step1 /\
   registeredCommandFlags Example.step4 = registeredCommandFlags Example.step3 /\
   registeredCommandHandlers Example.step4
     = registeredCommandHandlers Example.step3) /\
  exists (m : CliModule) (sf : Service),
    runCommand Example.host "serve" [] Example.step5 = (Ok tt, sf) /\
    cliCommands sf = cliCommands Example.step5 ++ [m] /\
    cm_oHandler m = handler Example.secondDescriptor /\
    capturedHandlers sf m
      = default [] (registeredCommandHandlers Example.bare !! "serve")
          ++ handlersFor "serve" Example.flagsBefore
          ++ handlersFor "serve" Example.flagsBetween
          ++ handlersFor "serve" Example.flagsAfter /\
    forall argv,
      (forall f, f ∈ functionsOf (capturedHandlers sf m) ->
                 continues Example.host argv f) ->
      exists warnings,
        composedHandler Example.host sf m argv
          = (calls (functionsOf (capturedHandlers sf m)) argv
               ++ Called (handler Example.secondDescriptor) argv
                  :: (Warned <$> warnings),
             (callOwnHandler Example.host (handler Example.secondDescriptor)
                argv).2).
Proof.
  apply (reregistration_keeps_aggregates Example.host
           Example.bare Example.step1 Example.step2 Example.step3
           Example.step4 Example.step5
           Example.flagsBefore Example.flagsBetween Example.flagsAfter
           (VStr "serve [entry]") Example.serveModule
           (VStr "serve") (VFun 20) "serve"
           Example.serveDescriptor Example.secondDescriptor []);
    vm_compute; reflexivity.
Defined.

(** The handlers of [serve] after the two registrations, as dispatched. *)
Example reregistration_dispatch :
  composedHandler Example.host
    (Example.after (runCommand Example.host "serve" []) Example.step5)
    {| cm_command := VStr "serve"; cm_handlers := Some "serve";
       cm_oHandler := UserHandler 20; cm_describe := VBool false;
       cm_builder := AggregateOf "serve"; cm_aliases := VUndef |}
    (VObj ∅)
  = ([Called (UserHandler 11) (VObj ∅); Called (UserHandler 13) (VObj ∅);
      Called (UserHandler 11) (VObj ∅); Called (UserHandler 20) (VObj ∅)],
     Ok tt).
Proof. vm_compute. reflexivity. Qed.

(** ** Initialization *)

Section FrameFacts.

Context {B : Type} (proj : Service -> B).

Lemma keeps_ret {A} (a : A) : keeps proj (ret a).
Proof. intros s. reflexivity. Qed.

Lemma keeps_throw {A} (e : error) : keeps proj (@throw A e).
Proof. intros s. reflexivity. Qed.

Lemma keeps_lift {A} (r : outcome A) : keeps proj (lift r).
Proof. intros s. reflexivity. Qed.

Lemma keeps_gets {A} (f : Service -> A) : keeps proj (gets f).
Proof. intros s. reflexivity. Qed.

Lemma keeps_modify (f : Service -> Service) :
  (forall s, proj (f s) = proj s) -> keeps proj (modify f).
Proof. intros H s. apply H. Qed.

Lemma keeps_bind {A C} (m : M A) (k : A -> M C) :
  keeps proj m -> (forall a, keeps proj (k a)) -> keeps proj (bind m k).
Proof.
  intros Hm Hk s. unfold bind. specialize (Hm s).
  destruct (m s) as [[a | e] s1]; cbn in *; [| exact Hm].
  now rewrite Hk.
Qed.

Lemma keeps_tryCatch {A} (m : M A) (h : error -> M A) :
  keeps proj m -> (forall e, keeps proj (h e)) -> keeps proj (tryCatch m h).
Proof.
  intros Hm Hh s. unfold tryCatch. specialize (Hm s).
  destruct (m s) as [[a | e] s1]; cbn in *; [exact Hm |].
  now rewrite Hh.
Qed.

Lemma keeps_forEach {A} (f : A -> M unit) (xs : list A) :
  (forall x, keeps proj (f x)) -> keeps proj (forEach f xs).
Proof.
  intros Hf. induction xs as [| x xs IH]; cbn [forEach].
  - apply keeps_ret.
  - apply keeps_bind; auto.
Qed.

Lemma keeps_mapM {A C} (f : A -> M C) (xs : list A) :
  (forall x, keeps proj (f x)) -> keeps proj (mapM f xs).
Proof.
  intros Hf. induction xs as [| x xs IH]; cbn [mapM].
  - apply keeps_ret.
  - apply keeps_bind; [auto |]. intros y.
    apply keeps_bind; [exact IH |]. intros ys. apply keeps_ret.
Qed.

Lemma keeps_if {A} (b : bool) (m1 m2 : M A) :
  keeps proj m1 -> keeps proj m2 -> keeps proj (if b then m1 else m2).
Proof. destruct b; auto. Qed.

End FrameFacts.

(** Proves that a method built from the combinators above keeps a field
    none of its writes touches. *)
Ltac keeps_field :=
  repeat first
    [ apply keeps_ret | apply keeps_throw | apply keeps_lift
    | apply keeps_gets
    | apply keeps_modify; intros ?; reflexivity
    | apply keeps_bind; [| intros ?]
    | apply keeps_tryCatch; [| intros ?]
    | apply keeps_forEach; intros ?
    | apply keeps_mapM; intros ?
    | apply keeps_if
    | match goal with
      | |- keeps _ (match ?x with _ => _ end) => destruct x
      | |- keeps _ (let '(_, _) := ?x in _) => destruct x
      end ].

Section InitFacts.

Context (env : Env).

Lemma untouched_initialized : untouchedByPlugins initialized.
Proof. repeat split. Qed.

Lemma untouched_applied : untouchedByPlugins applied.
Proof. repeat split. Qed.

Lemma untouched_mode : untouchedByPlugins mode.
Proof. repeat split. Qed.

Lemma untouched_projectOptions : untouchedByPlugins projectOptions.
Proof. repeat split. Qed.

Lemma keeps_logger {B} (proj : Service -> B) (e : LogEntry) :
  untouchedByPlugins proj -> keeps proj (logger e).
Proof. intros (H & _) s. apply H. Qed.

Lemma keeps_loadPlugin {B} (proj : Service -> B) (spec : PluginSpec) :
  untouchedByPlugins proj -> keeps proj (_loadPlugin env spec).
Proof.
  intros Hu. pose proof (keeps_logger proj) as Hl.
  unfold _loadPlugin, invalidPlugin.
  destruct spec as [p | p o]; destruct p; keeps_field; auto.
Qed.

Lemma keeps_apiCall {B} (proj : Service -> B) (c : ApiCall) :
  untouchedByPlugins proj -> keeps proj (apiCall env c).
Proof.
  intros Hu. pose proof (keeps_loadPlugin proj) as Hp.
  destruct Hu as (H1 & H2 & H3 & H4 & H5 & H6 & H7 & H8).
  destruct c; cbn [apiCall].
  - unfold registerCommand. keeps_field. apply keeps_modify. auto.
  - unfold registerCommandFlag, commandNameOf. keeps_field;
      apply keeps_modify; auto.
  - unfold addPlugin. keeps_field; try (apply Hp; repeat split; auto).
    all: apply keeps_modify; auto.
  - unfold addDevServerMiddleware. keeps_field. apply keeps_modify. auto.
  - apply keeps_modify. auto.
  - apply keeps_modify. auto.
  - apply keeps_throw.
Qed.

End InitFacts.

Section InitTheorems.

Context (env : Env).

Lemma keeps_initPlugin {B} (proj : Service -> B) (e : PluginEntry) :
  untouchedByPlugins proj ->
  (forall x s, proj (set_applied x s) = proj s) ->
  keeps proj (initPlugin env e).
Proof.
  intros Hu Ha. pose proof (fun c => keeps_apiCall env proj c Hu) as Hc.
  unfold initPlugin. destruct e as [p | p o]; keeps_field; auto.
  all: apply keeps_modify; auto.
Qed.

(** What is left of [init] once the guard has let it through. *)
Lemma init_first (mode0 : value) (s : Service) :
  initialized s = false ->
  init env mode0 s =
    (let* ps := gets plugins in
     forEach (initPlugin env) ps ;;
     let* options := gets projectOptions in
     let* chainFn := lift (getField options "chainWebpack") in
     (if truthy chainFn
      then modify (fun s =>
             set_webpackChainFns (webpackChainFns s ++ [chainFn]) s)
      else ret tt) ;;
     let* options := gets projectOptions in
     let* rawFn := lift (getField options "configWebpack") in
     if truthy rawFn
     then modify (fun s =>
            set_webpackRawConfigFns (webpackRawConfigFns s ++ [rawFn]) s)
     else ret tt)%method (set_mode mode0 (set_initialized true s)).
Proof. intros H. unfold init, bind at 1, gets at 1. now rewrite H. Qed.

Lemma init_initialized (mode0 : value) (s : Service) :
  initialized (init env mode0 s).2 = true.
Proof.
  destruct (initialized s) eqn:Hi.
  - unfold init, bind, gets. now rewrite Hi.
  - rewrite (init_first mode0 s Hi).
    match goal with |- initialized (?m ?s0).2 = true =>
      assert (keeps initialized m) as Hk
    end.
    { pose proof (fun e => keeps_initPlugin initialized e
                             untouched_initialized
                             (fun _ _ => eq_refl)) as Hp.
      keeps_field; auto. }
    now rewrite Hk.
Qed.

Lemma init_again (mode0 : value) (s : Service) :
  initialized s = true -> init env mode0 s = (Ok tt, s).
Proof. intros H. unfold init, bind, gets, ret. now rewrite H. Qed.

(** C7: a second [init], with any mode, returns without changing the
    Service that the first [init] left, whether that one returned or
    threw: no plugin is applied again, the chain and raw mutator sequences
    are not extended again and the stored mode stays. *)
Theorem init_idempotent (mode1 mode2 : value) (s : Service) :
  let s1 := (init env mode1 s).2 in
  init env mode2 s1 = (Ok tt, s1) /\
  applied (init env mode2 s1).2 = applied s1 /\
  webpackChainFns (init env mode2 s1).2 = webpackChainFns s1 /\
  webpackRawConfigFns (init env mode2 s1).2 = webpackRawConfigFns s1 /\
  mode (init env mode2 s1).2 = mode s1.
Proof.
  intros s1.
  rewrite (init_again mode2 s1 (init_initialized mode1 s)).
  repeat split.
Qed.

Lemma initPlugin_applies (e : PluginEntry) (s s' : Service) :
  initPlugin env e s = (Ok tt, s') ->
  exists a, applied s' = applied s ++ [a] /\ entryFunction e = Some (app_fn a).
Proof.
  unfold initPlugin, entryFunction.
  destruct (entryParts e) as [p o]. cbn [fst].
  unfold bind at 1, lift at 1.
  destruct (getField p "id") as [id | err]; [| discriminate].
  unfold bind at 1, lift at 1.
  destruct (getField p "apply") as [[| | | | | f | |] | err]; try discriminate.
  unfold bind at 1, gets at 1. unfold bind at 1, modify at 1.
  intros H.
  match type of H with ?m ?s0 = _ =>
    assert (keeps applied m) as Hk
  end.
  { pose proof (fun c => keeps_apiCall env applied c untouched_applied).
    keeps_field; auto. }
  specialize (Hk (set_applied
                    (applied s ++
                       [{| app_fn := f; app_id := id;
                           app_projectOptions := projectOptions s;
                           app_options := o |}]) s)).
  rewrite H in Hk. cbn in Hk. eexists. split; [exact Hk | reflexivity].
Qed.

Lemma forEach_initPlugin_applies (ps : list PluginEntry) (s s' : Service) :
  forEach (initPlugin env) ps s = (Ok tt, s') ->
  exists apps,
    applied s' = applied s ++ apps /\
    Forall2 (fun e a => entryFunction e = Some (app_fn a)) ps apps.
Proof.
  revert s. induction ps as [| e ps IH]; intros s.
  - cbn. intros [= <-]. exists []. split; [now rewrite app_nil_r | constructor].
  - cbn [forEach]. unfold bind at 1.
    destruct (initPlugin env e s) as [[[] | err] s1] eqn:H1; [| discriminate].
    intros H2. apply initPlugin_applies in H1 as (a & Ha & Hf).
    apply IH in H2 as (apps & Hs & Hall).
    exists (a :: apps). split; [| constructor; assumption].
    rewrite Hs, Ha. now rewrite <- List.app_assoc.
Qed.

(** An [init] that returns has applied every plugin of the Service once,
    in order. *)
Lemma init_applies_once (mode0 : value) (s s' : Service) :
  initialized s = false ->
  init env mode0 s = (Ok tt, s') ->
  exists apps,
    applied s' = applied s ++ apps /\
    Forall2 (fun e a => entryFunction e = Some (app_fn a)) (plugins s) apps.
Proof.
  intros Hi. rewrite (init_first mode0 s Hi).
  unfold bind at 1, gets at 1. unfold bind at 1.
  destruct (forEach (initPlugin env) _ _) as [[[] | err] s1] eqn:H1;
    [| discriminate].
  apply forEach_initPlugin_applies in H1 as (apps & Hs & Hall).
  cbn in Hs, Hall. intros H.
  match type of H with ?m ?s0 = _ =>
    assert (keeps applied m) as Hk
  end.
  { keeps_field; apply keeps_modify; reflexivity. }
  specialize (Hk s1). rewrite H in Hk. cbn in Hk.
  exists apps. split; [congruence | exact Hall].
Qed.

(** [initPlugin] on the [undefined] a failed load leaves behind. *)
Lemma initPlugin_undefined (s : Service) :
  initPlugin env (EntryValue VUndef) s = (Throw TypeError, s).
Proof. reflexivity. Qed.

(** A string specifier whose module cannot be loaded: the failure is
    logged and [_loadPlugin] returns [undefined]. *)
Lemma loadPlugin_failure (name : string) (e : error) (s : Service) :
  requirePlugin env (cwd s) name = Throw e ->
  _loadPlugin env (Single (VStr name)) s =
    (Ok (EntryValue VUndef),
     set_log (log s ++ [LogError ("Plugin load failed: " ++ name)%string;
                        LogErrorThrown e]) s).
Proof.
  intros H. unfold _loadPlugin, tryCatch, bind, gets, lift, logger, modify, ret.
  cbn. rewrite H. cbn. now rewrite <- List.app_assoc.
Qed.

(** [init] reaches an [undefined] element of [this.plugins]: it throws,
    and what comes after that element is never initialized. *)
Lemma init_undefined_plugin (mode0 : value) (s : Service)
    (rest : list PluginEntry) :
  initialized s = false ->
  plugins s = EntryValue VUndef :: rest ->
  init env mode0 s = (Throw TypeError, set_mode mode0 (set_initialized true s)).
Proof.
  intros Hi Hp. rewrite (init_first mode0 s Hi).
  unfold bind at 1, gets at 1. cbn [plugins set_mode set_initialized].
  rewrite Hp. reflexivity.
Qed.

End InitTheorems.

(** C3, on the code: a specifier that cannot be loaded is logged, but
    [undefined] takes its place in the resolved list; [init] throws a
    TypeError when it reaches it, and the plugin after it is never
    initialized, although it is when the failing specifier is not
    supplied. *)
Theorem failed_plugin_load_aborts_init :
  (Example.constructed
     [Single Example.goodPlugin; Single (VStr "missing-plugin");
      Single (VStr "flag-plugin")]).1 = Ok tt /\
  plugins Example.withMissing
    = [EntryValue Example.goodPlugin; EntryValue VUndef;
       EntryValue (VObj (<["id" := VStr "flag-plugin"]>
                           (ownProps Example.flagPlugin)))] /\
  log Example.withMissing
    = [LogError "Plugin load failed: missing-plugin";
       LogErrorThrown (Thrown (VStr "Cannot find module"))] /\
  (init Example.host (VStr "production") Example.withMissing).1
    = Throw TypeError /\
  app_fn <$> applied (init Example.host (VStr "production")
                        Example.withMissing).2 = [1] /\
  registeredCommandHandlers
    (init Example.host (VStr "production") Example.withMissing).2 = ∅ /\
  plugins Example.withoutMissing
    = [EntryValue Example.goodPlugin;
       EntryValue (VObj (<["id" := VStr "flag-plugin"]>
                           (ownProps Example.flagPlugin)))] /\
  (init Example.host (VStr "production") Example.withoutMissing).1 = Ok tt /\
  app_fn <$> applied (init Example.host (VStr "production")
                        Example.withoutMissing).2 = [1; 2] /\
  registeredCommandHandlers
    (init Example.host (VStr "production") Example.withoutMissing).2
    = {[ "serve" := [VFun 11] ]}.
Proof. vm_compute. repeat split. Qed.

(** ** Webpack configuration *)

Section WebpackFacts.

Context (env : Env).

Lemma getWebpackChainConfig_state (s : Service) :
  (getWebpackChainConfig env s).2 = s.
Proof. reflexivity. Qed.

Lemma getWebpackChainConfig_fns (s s0 : Service) :
  webpackChainFns s0 = webpackChainFns s ->
  (getWebpackChainConfig env s0).1 = (getWebpackChainConfig env s).1.
Proof.
  intros H. unfold getWebpackChainConfig, bind, gets, lift. now rewrite H.
Qed.

Lemma getWebpackChainConfig_empty (s : Service) :
  webpackChainFns s = [] ->
  getWebpackChainConfig env s = (Ok (newConfig env), s).
Proof.
  intros H. unfold getWebpackChainConfig, bind, gets, lift. now rewrite H.
Qed.

Lemma getWebpackChainConfig_last (fns : list value) (fn : value)
    (s : Service) :
  webpackChainFns s = fns ++ [fn] ->
  (getWebpackChainConfig env s).1
    = obind (getWebpackChainConfig env (set_webpackChainFns fns s)).1
        (fun config =>
           match fn with
           | VFun f => callChainFn env f config
           | _ => Throw TypeError
           end).
Proof.
  intros H. unfold getWebpackChainConfig, bind, gets, lift. rewrite H.
  cbn [webpackChainFns set_webpackChainFns]. rewrite fold_left_app.
  cbn [fold_left].
  destruct (fold_left _ fns _); reflexivity.
Qed.

(** C4, amended: on a Service on which [init] has not been called,
    [getWebpackConfig] throws, with or without a chainable configuration
    given, and the error is the one of its guard when one is given or
    when the default one can be built. [getWebpackChainConfig] has no such
    guard: it leaves the Service as it is, and what it returns is
    determined by the chain mutators registered so far, which it applies
    in the order of their registration to a fresh chainable
    configuration; with none registered it returns the fresh
    configuration. *)
Theorem getWebpackConfig_requires_init (s : Service) :
  initialized s = false ->
  (forall c, exists e, getWebpackConfig env c s = (Throw e, s)) /\
  (forall c,
     getWebpackConfig env (Some c) s
       = (Throw (SError
            "Service must call init() before calling getWebpackConfig()."),
          s)) /\
  (forall c,
     (getWebpackChainConfig env s).1 = Ok c ->
     getWebpackConfig env None s
       = (Throw (SError
            "Service must call init() before calling getWebpackConfig()."),
          s)) /\
  (getWebpackChainConfig env s).2 = s /\
  (forall s0,
     webpackChainFns s0 = webpackChainFns s ->
     (getWebpackChainConfig env s0).1 = (getWebpackChainConfig env s).1) /\
  (webpackChainFns s = [] ->
   getWebpackChainConfig env s = (Ok (newConfig env), s)) /\
  (forall fns fn,
     webpackChainFns s = fns ++ [fn] ->
     (getWebpackChainConfig env s).1
       = obind (getWebpackChainConfig env (set_webpackChainFns fns s)).1
           (fun config =>
              match fn with
              | VFun f => callChainFn env f config
              | _ => Throw TypeError
              end)).
Proof.
  intros Hi.
  assert (forall c,
            getWebpackConfig env (Some c) s
            = (Throw (SError
                 "Service must call init() before calling getWebpackConfig()."),
               s)) as Hsome.
  { intros c. unfold getWebpackConfig, bind, ret, gets, throw.
    now rewrite Hi. }
  assert (forall c,
            (getWebpackChainConfig env s).1 = Ok c ->
            getWebpackConfig env None s
            = (Throw (SError
                 "Service must call init() before calling getWebpackConfig()."),
               s)) as Hnone.
  { intros c Hc. unfold getWebpackConfig, bind at 1. cbv beta iota.
    pose proof (getWebpackChainConfig_state s) as Hs.
    destruct (getWebpackChainConfig env s) as [r s0]. cbn in Hc, Hs.
    subst r s0. unfold bind, gets, throw. now rewrite Hi. }
  split; [| split; [exact Hsome | split; [exact Hnone |]]].
  - intros [c |]; [eexists; apply Hsome |].
    destruct (getWebpackChainConfig env s) as [[c | e] s0] eqn:Hc.
    + eexists. apply (Hnone c). reflexivity.
    + exists e. unfold getWebpackConfig, bind at 1. cbv beta iota.
      rewrite Hc.
      pose proof (getWebpackChainConfig_state s) as Hs.
      rewrite Hc in Hs. cbn in Hs. now subst s0.
  - split; [apply getWebpackChainConfig_state |].
    split; [intros s0; apply getWebpackChainConfig_fns |].
    split; [apply getWebpackChainConfig_empty |].
    intros fns fn. apply getWebpackChainConfig_last.
Qed.

End WebpackFacts.

Lemma getWebpackConfig_requires_init_witness :
  getWebpackConfig Example.host None Example.chaining
    = (Throw (SError
         "Service must call init() before calling getWebpackConfig()."),
       Example.chaining) /\
  getWebpackChainConfig Example.host Example.chaining
    = (Ok [], Example.chaining).
Proof.
  destruct (getWebpackConfig_requires_init Example.host Example.chaining)
    as (_ & _ & Hnone & _ & _ & Hempty & _); [reflexivity |].
  split; [apply (Hnone []) | apply Hempty]; reflexivity.
Defined.

(** What [getWebpackChainConfig] returns is not the same before and
    after [init]: [init] registers the chain mutator of the project
    options, which is applied from then on. *)
Example getWebpackChainConfig_across_init :
  (getWebpackChainConfig Example.host Example.chaining).1 = Ok [] /\
  (getWebpackChainConfig Example.host
     (Example.after (init Example.host (VStr "production"))
        Example.chaining)).1 = Ok [7].
Proof. vm_compute. split; reflexivity. Qed.

(** C4 as stated fails: on a Service that was just constructed,
    [getWebpackChainConfig] returns a configuration and does not throw. *)
Lemma getWebpackChainConfig_before_init :
  ~ (forall (env : Env) (s : Service),
       initialized s = false ->
       (exists e, (getWebpackChainConfig env s).1 = Throw e) /\
       (forall c, exists e, (getWebpackConfig env c s).1 = Throw e)).
Proof.
  intros H.
  destruct (H Example.host Example.bare eq_refl) as [[e He] _].
  discriminate He.
Qed.

(** ** Project options *)

Lemma defaultsDeepValue_undef_r (v : value) : defaultsDeepValue v VUndef = v.
Proof. destruct v; reflexivity. Qed.

Lemma defaultsDeepValue_leaf (v w : value) :
  isLeaf v = true -> defaultsDeepValue v w = v.
Proof. destruct v; try discriminate; reflexivity. Qed.

Lemma defaultsDeep_getProp (dst : value) (src : object) (k : string) :
  getProp (defaultsDeep dst src) k
    = defaultsDeepValue (getProp (ownProps dst) k) (getProp src k).
Proof.
  unfold defaultsDeep, getProp. rewrite lookup_union_with.
  destruct (ownProps dst !! k) as [dv |], (src !! k) as [sv |]; cbn;
    try reflexivity.
  symmetry. apply defaultsDeepValue_undef_r.
Qed.

Lemma fill_lookup (src : value) (d : list value) (n i : nat) (v : value) :
  d !! i = Some v ->
  ((fix fill (i : nat) (d : list value) {struct d} : list value :=
      match d with
      | [] => []
      | dv :: d' =>
          match ownProps src !! pretty i with
          | Some sv => defaultsDeepValue dv sv
          | None => dv
          end :: fill (S i) d'
      end) n d) !! i
  = Some (defaultsDeepValue v (getProp (ownProps src) (pretty (n + i)%nat))).
Proof.
  revert n i. induction d as [| dv d IH]; intros n i; [discriminate |].
  destruct i as [| i]; cbn.
  - intros [= ->]. rewrite Nat.add_0_r. unfold getProp.
    destruct (ownProps src !! pretty n); cbn; [reflexivity |].
    now rewrite defaultsDeepValue_undef_r.
  - intros H. rewrite Nat.add_succ_r. exact (IH (S n) i H).
Qed.

Lemma fill_length (src : value) (d : list value) (n : nat) :
  length
    ((fix fill (i : nat) (d : list value) {struct d} : list value :=
        match d with
        | [] => []
        | dv :: d' =>
            match ownProps src !! pretty i with
            | Some sv => defaultsDeepValue dv sv
            | None => dv
            end :: fill (S i) d'
        end) n d)
  = length d.
Proof.
  revert n. induction d as [| dv d IH]; intros n; [reflexivity |].
  cbn. f_equal. apply IH.
Qed.

(** A nested object is filled in key by key. *)
Lemma defaultsDeepValue_object (d : object) (src : value) :
  exists o, defaultsDeepValue (VObj d) src = VObj o /\
    forall k,
      getProp o k = defaultsDeepValue (getProp d k) (getProp (mergeProps src) k).
Proof.
  destruct src; cbn [defaultsDeepValue mergeProps];
    try (exists d; split; [reflexivity |]; intros k; unfold getProp at 3;
         rewrite lookup_empty; cbn; now rewrite defaultsDeepValue_undef_r).
  - eexists. split; [reflexivity |]. intros k.
    apply (defaultsDeep_getProp (VObj d)).
  - eexists. split; [reflexivity |]. intros k.
    apply (defaultsDeep_getProp (VObj d)).
Qed.

(** A nested array is filled in index by index, and gets the elements
    that an array it is filled in from has beyond its length. *)
Lemma defaultsDeepValue_array (d : list value) (src : value) :
  exists l, defaultsDeepValue (VArr d) src = VArr l /\
    (forall i v, d !! i = Some v ->
       l !! i
         = Some (defaultsDeepValue v (getProp (mergeProps src) (pretty i)))) /\
    (forall r, src = VArr r ->
       length l = Nat.max (length d) (length r) /\
       forall i, length d <= i -> l !! i = r !! i).
Proof.
  destruct src; cbn [defaultsDeepValue mergeProps];
    try (exists d; split; [reflexivity |]; split; [| discriminate];
         intros i v H; unfold getProp; rewrite lookup_empty; cbn;
         now rewrite defaultsDeepValue_undef_r).
  - eexists. split; [reflexivity |]. split; [| discriminate].
    intros i v H. apply lookup_app_l_Some.
    apply (fill_lookup (VObj o) d 0 i v H).
  - eexists. split; [reflexivity |]. split.
    + intros i v H. apply lookup_app_l_Some.
      apply (fill_lookup (VArr l) d 0 i v H).
    + intros r [= <-]. cbn [elementsFrom]. split.
      * rewrite length_app, (fill_length (VArr l)), length_drop. lia.
      * intros i Hi.
        rewrite lookup_app_r by (rewrite (fill_length (VArr l)); exact Hi).
        rewrite (fill_length (VArr l)), lookup_drop. f_equal. lia.
Qed.

Lemma getProp_insert_ne (o : object) (k k' : string) (v : value) :
  k <> k' -> getProp (<[k := v]> o) k' = getProp o k'.
Proof. intros H. unfold getProp. now rewrite lookup_insert_ne. Qed.

Lemma getProp_insert_eq (o : object) (k : string) (v : value) :
  getProp (<[k := v]> o) k = v.
Proof. unfold getProp. now rewrite lookup_insert_eq. Qed.

Lemma updateString_other (f : string -> string) (o : object) (k k' : string) :
  k <> k' -> getProp (updateString f k o) k' = getProp o k'.
Proof.
  intros H. unfold updateString.
  destruct (getProp o k); try reflexivity. now apply getProp_insert_ne.
Qed.

Lemma updateString_string (f : string -> string) (o : object) (k : string)
    (val : string) :
  getProp o k = VStr val -> getProp (updateString f k o) k = VStr (f val).
Proof.
  intros H. unfold updateString. rewrite H. apply getProp_insert_eq.
Qed.

Section OptionFacts.

Context (env : Env).

(** [normalizeConfig] writes to [publicPath], [outputDir] and [pages]
    only. *)
Lemma normalizeConfig_other (config config' : object) (filepath : value)
    (k : string) :
  k ∉ ["publicPath"; "outputDir"; "pages"] ->
  normalizeConfig env config filepath = Ok config' ->
  getProp config' k = getProp config k.
Proof.
  intros Hk. unfold normalizeConfig, ensureSlash, removeSlash.
  assert ("publicPath" <> k /\ "outputDir" <> k /\ "pages" <> k)
    as (H1 & H2 & H3).
  { repeat split; intros <-; apply Hk; set_solver. }
  set (c3 := updateString _ "outputDir" _).
  assert (getProp c3 k = getProp config k) as Hc3.
  { unfold c3. now rewrite !updateString_other. }
  destruct (truthy filepath && truthy (getProp c3 "pages")).
  - destruct filepath; try discriminate.
    destruct (normalizePages env _ _) as [pages' | e]; [| discriminate].
    cbn. intros [= <-]. now rewrite getProp_insert_ne.
  - intros [= <-]. exact Hc3.
Qed.

(** Without pages to resolve, [normalizeConfig] returns. *)
Lemma normalizeConfig_no_pages (config : object) (filepath : value) :
  truthy (getProp config "pages") = false ->
  exists config', normalizeConfig env config filepath = Ok config'.
Proof.
  intros Hp. unfold normalizeConfig, ensureSlash, removeSlash.
  set (c3 := updateString _ "outputDir" _).
  assert (getProp c3 "pages" = getProp config "pages") as ->.
  { unfold c3. now rewrite !updateString_other. }
  rewrite Hp, andb_false_r. eauto.
Qed.

(** C8: on a merged configuration whose [publicPath] is ["assets"],
    [normalizeConfig] gives [publicPath] ["/assets/"], and on one whose
    [outputDir] is ["build/"] it gives [outputDir] ["build"]. *)
Theorem normalizeConfig_slashes (config config' : object) (filepath : value) :
  normalizeConfig env config filepath = Ok config' ->
  (getProp config "publicPath" = VStr "assets" ->
   getProp config' "publicPath" = VStr "/assets/") /\
  (getProp config "outputDir" = VStr "build/" ->
   getProp config' "outputDir" = VStr "build").
Proof.
  unfold normalizeConfig, ensureSlash, removeSlash.
  set (c1 := updateString _ "publicPath" config).
  set (c2 := updateString _ "publicPath" c1).
  set (c3 := updateString _ "outputDir" c2).
  intros H.
  assert (getProp config' "publicPath" = getProp c3 "publicPath" /\
          getProp config' "outputDir" = getProp c3 "outputDir") as [Hp Ho].
  { destruct (truthy filepath && truthy (getProp c3 "pages")).
    - destruct filepath; try discriminate.
      destruct (normalizePages env _ _) as [pages' | e]; [| discriminate].
      cbn in H. injection H as <-.
      now rewrite !getProp_insert_ne.
    - now injection H as <-. }
  rewrite Hp, Ho. split; intros Hv.
  - unfold c3. rewrite updateString_other by discriminate.
    unfold c2.
    rewrite (updateString_string _ c1 "publicPath" "/assets/");
      [reflexivity |].
    unfold c1.
    now rewrite (updateString_string _ config "publicPath" "assets" Hv).
  - unfold c3.
    rewrite (updateString_string _ c2 "outputDir" "build/"); [reflexivity |].
    unfold c2, c1. now rewrite !updateString_other by discriminate.
Qed.

Lemma readConfig_cwd (o c : value) (s1 s2 : Service) :
  cwd s1 = cwd s2 ->
  (readConfig env o c s1).1 = (readConfig env o c s2).1.
Proof.
  intros H. unfold readConfig, bind, gets, lift, ret, throw.
  destruct (truthy c).
  - destruct c; try reflexivity. destruct (requireFile env s); reflexivity.
  - cbn. rewrite H. destruct (findExisting env _ _); [| reflexivity].
    destruct (requireFile env s); reflexivity.
Qed.

Lemma resolveConfigFile_cwd (c : value) (s : Service) :
  exists c', (resolveConfigFile env c s).1 = Ok c' /\
             cwd (resolveConfigFile env c s).2 = cwd s.
Proof.
  unfold resolveConfigFile. destruct c; try (eexists; split; reflexivity).
  destruct (truthy (VStr s0)); [| eexists; split; reflexivity].
  unfold bind, gets, logger, modify, ret. cbn.
  destruct (fs_existsSync env _); eexists; split; reflexivity.
Qed.

(** What a [loadProjectOptions] that returns has read and merged. *)
Lemma loadProjectOptions_inv (configFile : value) (config : object)
    (s s' : Service) :
  loadProjectOptions env configFile s = (Ok config, s') ->
  exists fileConfig filepath,
    (loadedConfigFile env configFile s).1 = Ok (fileConfig, filepath) /\
    normalizeConfig env
      (if truthy fileConfig
       then defaultsDeep fileConfig
              (defaultsDeep (_initProjectOptions s) (defaultConfig env))
       else defaultsDeep (_initProjectOptions s) (defaultConfig env))
      filepath = Ok config.
Proof.
  intros H.
  assert (keeps _initProjectOptions (resolveConfigFile env configFile) /\
          keeps cwd (resolveConfigFile env configFile)) as [Hki Hkc].
  { unfold resolveConfigFile, logger. split; keeps_field. }
  specialize (Hki s). specialize (Hkc s).
  unfold loadProjectOptions, bind at 1 in H.
  unfold loadedConfigFile, bind.
  destruct (resolveConfigFile env configFile s) as [[c' | e] s0];
    [| discriminate].
  cbn in Hki, Hkc.
  unfold bind at 1, gets at 1 in H.
  unfold bind at 1, storeInitProjectOptions, modify at 1 in H.
  match type of H with _ ?s1 = _ =>
    set (st := s1) in H;
    assert (cwd s0 = cwd st) as Hcwd
      by (unfold st; destruct (_initProjectOptions s0); reflexivity)
  end.
  rewrite (readConfig_cwd configFile c' s0 st Hcwd).
  unfold bind at 1 in H.
  destruct (readConfig env configFile c' st)
    as [[[fileConfig filepath] | e] s2]; [| discriminate].
  exists fileConfig, filepath. split; [reflexivity |].
  rewrite <- Hki.
  destruct (truthy fileConfig).
  - unfold bind, lift, logger, modify, throw, ret in H.
    destruct fileConfig; try (now injection H as -> _);
      (destruct (validateOptions env _); [discriminate |];
       now injection H as -> _).
  - unfold bind at 1, lift at 1 in H.
    destruct (normalizeConfig env _ filepath) as [c |]; [| discriminate].
    unfold bind, modify, ret in H. now injection H as -> _.
Qed.

(** C1, amended: of a key that [normalizeConfig] does not rewrite, the
    value that [loadProjectOptions] produces is the configuration file's,
    filled in from the constructor-supplied options, filled in from the
    defaults: a file value that is neither [undefined] nor a plain object
    nor an array wins over the constructor-supplied value and the
    default; without a file value such a constructor-supplied value wins
    over the default; the default is used when neither has the key. A
    file value that is a plain object is filled in key by key, and one
    that is an array index by index, from what the constructor-supplied
    options and the defaults give; the array also gets the elements that
    an array there has beyond its length. *)
Theorem project_option_precedence (configFile : value) (config : object)
    (s s' : Service) :
  loadProjectOptions env configFile s = (Ok config, s') ->
  exists fileConfig filepath,
    (loadedConfigFile env configFile s).1 = Ok (fileConfig, filepath) /\
    forall k,
      k ∉ ["publicPath"; "outputDir"; "pages"] ->
      let file :=
        getProp (if truthy fileConfig then ownProps fileConfig else ∅) k in
      let init := getProp (ownProps (_initProjectOptions s)) k in
      let dflt := getProp (defaultConfig env) k in
      let rest := defaultsDeepValue init dflt in
      getProp config k = defaultsDeepValue file rest /\
      (isLeaf file = true -> getProp config k = file) /\
      (file = VUndef -> isLeaf init = true -> getProp config k = init) /\
      (file = VUndef -> init = VUndef -> getProp config k = dflt) /\
      (forall fo, file = VObj fo ->
         exists o, getProp config k = VObj o /\
           forall k',
             getProp o k'
               = defaultsDeepValue (getProp fo k')
                   (getProp (mergeProps rest) k')) /\
      (forall fl, file = VArr fl ->
         exists l, getProp config k = VArr l /\
           (forall i v, fl !! i = Some v ->
              l !! i
                = Some (defaultsDeepValue v
                          (getProp (mergeProps rest) (pretty i)))) /\
           (forall rl, rest = VArr rl ->
              length l = Nat.max (length fl) (length rl) /\
              forall i, length fl <= i -> l !! i = rl !! i)).
Proof.
  intros H.
  apply loadProjectOptions_inv in H as (fileConfig & filepath & Hf & Hn).
  exists fileConfig, filepath. split; [exact Hf |].
  intros k Hk file init dflt rest.
  assert (getProp config k = defaultsDeepValue file rest) as Heq.
  { rewrite (normalizeConfig_other _ _ _ k Hk Hn).
    unfold rest, file, init, dflt.
    destruct (truthy fileConfig); now rewrite !defaultsDeep_getProp. }
  rewrite Heq. split; [reflexivity |].
  split; [| split; [| split; [| split]]].
  - apply defaultsDeepValue_leaf.
  - intros -> Hl. cbn. now apply defaultsDeepValue_leaf.
  - now intros -> ->.
  - intros fo ->. apply defaultsDeepValue_object.
  - intros fl ->. apply defaultsDeepValue_array.
Qed.

End OptionFacts.

(** A key that [normalizeConfig] does not rewrite. *)
Ltac other_key := apply (bool_decide_unpack _); vm_compute; exact I.

Lemma project_option_precedence_witness :
  getProp Example.loadedOptions "assetsDir" = VStr "static" /\
  getProp Example.loadedOptions "filenameHashing" = VBool true /\
  (exists o, getProp Example.loadedOptions "devServer" = VObj o /\
             getProp o "port" = VNum 8899 /\
             getProp o "host" = VStr "0.0.0.0") /\
  (exists l, getProp Example.listedOptions "plugins" = VArr l /\
             length l = 2 /\
             l !! 0 = Some (VStr "a") /\ l !! 1 = Some (VStr "y")).
Proof.
  destruct (project_option_precedence Example.host VUndef
              Example.loadedOptions Example.configured
              (loadProjectOptions Example.host VUndef Example.configured).2)
    as (fc & fp & Hf & Hk); [vm_compute; reflexivity |].
  assert (Ok (fc, fp)
          = Ok (VObj Example.fileConfig, VStr "/project/san.config.js"))
    as [= -> ->] by (rewrite <- Hf; vm_compute; reflexivity).
  destruct (project_option_precedence Example.withPlugins VUndef
              Example.listedOptions Example.listed
              (loadProjectOptions Example.withPlugins VUndef
                 Example.listed).2)
    as (fc & fp & Hf' & Hk'); [vm_compute; reflexivity |].
  assert (Ok (fc, fp)
          = Ok (VObj Example.pluginsFile, VStr "/project/san.config.js"))
    as [= -> ->] by (rewrite <- Hf'; vm_compute; reflexivity).
  clear Hf Hf'. split; [| split; [| split]].
  - destruct (Hk "assetsDir") as (_ & Hleaf & _); [other_key |].
    rewrite Hleaf; vm_compute; reflexivity.
  - destruct (Hk "filenameHashing") as (_ & _ & _ & Hd & _); [other_key |].
    rewrite Hd; vm_compute; reflexivity.
  - destruct (Hk "devServer") as (_ & _ & _ & _ & Ho & _); [other_key |].
    destruct (Ho {[ "port" := VNum 8899 ]}) as (o & Heq & Hks);
      [vm_compute; reflexivity |].
    exists o. split; [exact Heq |].
    split; rewrite Hks; vm_compute; reflexivity.
  - destruct (Hk' "plugins") as (_ & _ & _ & _ & _ & Ha); [other_key |].
    destruct (Ha [VStr "a"]) as (l & Heq & Hin & Hout);
      [vm_compute; reflexivity |].
    destruct (Hout [VStr "x"; VStr "y"]) as [Hlen Hrest];
      [vm_compute; reflexivity |].
    exists l. split; [exact Heq |]. split; [exact Hlen |]. split.
    + rewrite (Hin 0 (VStr "a") eq_refl). vm_compute. reflexivity.
    + apply (Hrest 1). cbn. lia.
Defined.

(** C1 as stated fails: the constructor supplies [assetsDir: "res"], the
    configuration file has [assetsDir: "static"], and [loadProjectOptions]
    produces the file's value. *)
Lemma constructor_options_do_not_win :
  ~ (forall (env : Env) (configFile filepath : value)
            (config fileObj initObj : object) (s s' : Service),
       (loadedConfigFile env configFile s).1 = Ok (VObj fileObj, filepath) ->
       _initProjectOptions s = VObj initObj ->
       loadProjectOptions env configFile s = (Ok config, s') ->
       forall k vf vi,
         fileObj !! k = Some vf -> initObj !! k = Some vi ->
         config !! k = Some vi).
Proof.
  intros H.
  assert (Example.loadedOptions !! "assetsDir" = Some (VStr "res")) as Hres.
  { apply (H Example.host VUndef (VStr "/project/san.config.js")
             Example.loadedOptions Example.fileConfig
             {[ "assetsDir" := VStr "res" ]} Example.configured
             (loadProjectOptions Example.host VUndef Example.configured).2)
      with (vf := VStr "static"); vm_compute; reflexivity. }
  vm_compute in Hres. discriminate Hres.
Qed.

(** The scenarios of the specification, end to end: the file's
    [outputDir] and [publicPath] over the defaults, normalized. *)
Example loadProjectOptions_scenarios :
  getProp Example.loadedOptions "outputDir" = VStr "build" /\
  getProp Example.loadedOptions "publicPath" = VStr "/assets/" /\
  getProp Example.loadedOptions "assetsDir" = VStr "static" /\
  getProp Example.loadedOptions "filenameHashing" = VBool true /\
  getProp Example.loadedOptions "devServer"
    = VObj {[ "port" := VNum 8899; "host" := VStr "0.0.0.0" ]}.
Proof. vm_compute. repeat split. Qed.

Lemma normalizeConfig_slashes_witness :
  getProp Example.normalized "publicPath" = VStr "/assets/" /\
  getProp Example.normalized "outputDir" = VStr "build".
Proof.
  destruct (normalizeConfig_slashes Example.host Example.fileConfig
              Example.normalized (VStr "/project/san.config.js"))
    as [Hp Ho].
  - vm_compute. reflexivity.
  - split; [apply Hp | apply Ho]; vm_compute; reflexivity.
Defined.

(** ** Command keys *)

Section KeyFacts.

Context (env : Env).

Lemma descriptorOf_key (name yargsModule : value) (k : string)
    (d : Descriptor) :
  descriptorOf name yargsModule = Ok (k, d) ->
  exists c, command d = VStr c /\ k = getCommandName c.
Proof.
  unfold descriptorOf.
  destruct (if typeofObject name then _ else _)
    as [[[[[[command0 description] builder0] handler0] aliases0] extend0] | e];
    [| discriminate].
  cbn. destruct command0; try discriminate.
  intros [= <- <-]. eexists. split; reflexivity.
Qed.

Lemma descriptorOf_string (c : string) (yargsModule : value) (k : string)
    (d : Descriptor) :
  descriptorOf (VStr c) yargsModule = Ok (k, d) -> k = getCommandName c.
Proof.
  unfold descriptorOf. cbn [typeofObject].
  destruct (typeofFunction yargsModule).
  - cbn. now intros [= <- _].
  - unfold obind.
    destruct (descriptionOf yargsModule); [| discriminate].
    repeat (destruct (getField yargsModule _); [| discriminate]).
    cbn. now intros [= <- _].
Qed.

(** C10: [getCommandName] is idempotent, so every key of the two
    registries is a fixed point of it, and registering under a full
    command string or under the name extracted from it writes to the same
    key: [registerCommandFlag] leaves the same Service in both cases, and
    [registerCommand] stores its descriptor under the same key. *)
Theorem getCommandName_key (c : string) :
  getCommandName (getCommandName c) = getCommandName c /\
  (forall flag h s s1 s2,
     registerCommandFlag env (VStr c) flag h s = (Ok tt, s1) ->
     registerCommandFlag env (VStr (getCommandName c)) flag h s = (Ok tt, s2) ->
     s1 = s2) /\
  (forall ym1 ym2 s s1 s2,
     registerCommand env (VStr c) ym1 s = (Ok tt, s1) ->
     registerCommand env (VStr (getCommandName c)) ym2 s = (Ok tt, s2) ->
     exists d1 d2,
       registeredCommands s1
         = <[getCommandName c := d1]> (registeredCommands s) /\
       registeredCommands s2
         = <[getCommandName c := d2]> (registeredCommands s)) /\
  (forall name ym k d,
     descriptorOf name ym = Ok (k, d) -> getCommandName k = k).
Proof.
  split; [apply getCommandName_idempotent |]. split; [| split].
  - intros flag h s s1 s2 H1 H2.
    apply registerCommandFlag_inv in H1 as (c1 & [= <-] & ->).
    apply registerCommandFlag_inv in H2 as (c2 & [= <-] & ->).
    now rewrite getCommandName_idempotent.
  - intros ym1 ym2 s s1 s2 H1 H2.
    apply registerCommand_inv in H1 as (k1 & d1 & Hd1 & ->).
    apply registerCommand_inv in H2 as (k2 & d2 & Hd2 & ->).
    apply descriptorOf_string in Hd1, Hd2.
    rewrite getCommandName_idempotent in Hd2. subst k1 k2.
    exists d1, d2. split; reflexivity.
  - intros name ym k d H.
    apply descriptorOf_key in H as (c' & _ & ->).
    apply getCommandName_idempotent.
Qed.

End KeyFacts.

Example getCommandName_serve :
  getCommandName "serve  [entry  file]   --port" = "serve".
Proof. reflexivity. Qed.

(** White space inside a placeholder does not end the name. *)
Example getCommandName_placeholder :
  getCommandName "<entry file>  [out dir] rest" = "<entry file>".
Proof. reflexivity. Qed.

(** [split] gives an empty first piece when the string starts with white
    space. *)
Example getCommandName_leading_space : getCommandName " build" = "".
Proof. reflexivity. Qed.

(** The two registrations of [serve] above, one under the command string
    and one under its name, share the key. *)
Example registration_shares_key :
  dom (registeredCommands Example.step4) = {[ "serve" ]} /\
  dom (registeredCommandHandlers Example.step5) = {[ "serve"; "build" ]}.
Proof. vm_compute. split; reflexivity. Qed.

Lemma getCommandName_key_witness :
  getCommandName (getCommandName "serve  [entry]")
    = getCommandName "serve  [entry]" /\
  (forall flag h s s1 s2,
     registerCommandFlag Example.host (VStr "serve  [entry]") flag h s
       = (Ok tt, s1) ->
     registerCommandFlag Example.host
       (VStr (getCommandName "serve  [entry]")) flag h s = (Ok tt, s2) ->
     s1 = s2) /\
  (forall ym1 ym2 s s1 s2,
     registerCommand Example.host (VStr "serve  [entry]") ym1 s
       = (Ok tt, s1) ->
     registerCommand Example.host
       (VStr (getCommandName "serve  [entry]")) ym2 s = (Ok tt, s2) ->
     exists d1 d2,
       registeredCommands s1
         = <[getCommandName "serve  [entry]" := d1]> (registeredCommands s) /\
       registeredCommands s2
         = <[getCommandName "serve  [entry]" := d2]> (registeredCommands s)) /\
  (forall name ym k d,
     descriptorOf name ym = Ok (k, d) -> getCommandName k = k).
Proof. exact (getCommandName_key Example.host "serve  [entry]"). Defined.

(** * Further properties *)

(** ** Command names without placeholders *)

Module WordFacts.
Import Str Words.

Lemma noClosing_closes (s : string) :
  noClosing s = true -> insideBrackets s = false.
Proof.
  unfold insideBrackets. induction s as [| x s IH]; [reflexivity |].
  cbn [noClosing closes].
  intros [[H1 H2]%andb_true_iff H3]%andb_true_iff.
  apply negb_true_iff in H1, H2. rewrite H1, H2.
  specialize (IH H3). apply orb_false_iff in IH as [I1 I2].
  rewrite I1, I2. destruct (Ascii.eqb x "["), (Ascii.eqb x "<"); reflexivity.
Qed.

Lemma firstToken_noClosing (s : string) :
  noClosing s = true -> firstToken s = firstWord s.
Proof.
  induction s as [| x s IH]; [reflexivity |].
  cbn [noClosing firstToken firstWord]. intros [_ H]%andb_true_iff.
  rewrite (noClosing_closes s H), (IH H).
  destruct (isSpace x); reflexivity.
Qed.

Lemma noClosing_collapse (s : string) (inRun : bool) :
  noClosing s = true -> noClosing (collapseFrom inRun s) = true.
Proof.
  revert inRun. induction s as [| x s IH]; [reflexivity |].
  intros inRun. cbn [noClosing collapseFrom].
  intros [Hx H]%andb_true_iff.
  destruct (isSpace x); [destruct inRun; [auto |];
                         destruct (startsWithSpace s) |];
    cbn [noClosing]; rewrite ?Hx, IH by exact H; reflexivity.
Qed.

Lemma firstWord_collapse (s : string) :
  firstWord (collapseSpaces s) = firstWord s.
Proof.
  unfold collapseSpaces. induction s as [| x s IH]; [reflexivity |].
  cbn [collapseFrom firstWord]. destruct (isSpace x) eqn:Hx.
  - destruct (startsWithSpace s); cbn [firstWord]; [reflexivity |].
    now rewrite Hx.
  - cbn [firstWord]. now rewrite Hx, IH.
Qed.

Lemma noSpace_firstWord (s : string) : noSpace (firstWord s) = true.
Proof.
  induction s as [| x s IH]; [reflexivity |].
  cbn [firstWord]. destruct (isSpace x) eqn:Hx; [reflexivity |].
  cbn [noSpace]. now rewrite Hx, IH.
Qed.

Lemma trimEnd_noSpace (s : string) : noSpace s = true -> trimEnd s = s.
Proof.
  induction s as [| x s IH]; [reflexivity |].
  cbn [noSpace trimEnd]. intros [Hx H]%andb_true_iff.
  rewrite (IH H). apply negb_true_iff in Hx. rewrite Hx.
  destruct s; reflexivity.
Qed.

Lemma trim_noSpace (s : string) : noSpace s = true -> trim s = s.
Proof.
  intros H. unfold trim. rewrite (StrFacts.trimStart_no_space s).
  - now apply trimEnd_noSpace.
  - destruct s as [| x s]; [reflexivity |]. cbn in *.
    apply andb_true_iff in H as [H _]. now apply negb_true_iff in H.
Qed.

Lemma firstToken_noSpace (s : string) : noSpace s = true -> firstToken s = s.
Proof.
  induction s as [| x s IH]; [reflexivity |].
  cbn [noSpace firstToken]. intros [Hx H]%andb_true_iff.
  apply negb_true_iff in Hx. now rewrite Hx, (IH H).
Qed.

Lemma noDoubleSpace_noSpace (s : string) :
  noSpace s = true -> noDoubleSpace s = true.
Proof.
  induction s as [| x s IH]; [reflexivity |].
  cbn [noSpace noDoubleSpace]. intros [Hx H]%andb_true_iff.
  apply negb_true_iff in Hx. now rewrite Hx, (IH H).
Qed.

End WordFacts.

(** X1: for a command string without the closing brackets ["]"] and
    [">"], the key is the text before the first white-space character; in
    particular it is empty when the string starts with white space. *)
Theorem getCommandName_first_word (command : string) :
  Words.noClosing command = true ->
  getCommandName command = Words.firstWord command /\
  (Str.startsWithSpace command = true -> getCommandName command = "").
Proof.
  intros H.
  assert (getCommandName command = Words.firstWord command) as Heq.
  { unfold getCommandName.
    rewrite WordFacts.firstToken_noClosing
      by now apply WordFacts.noClosing_collapse.
    rewrite WordFacts.firstWord_collapse.
    apply WordFacts.trim_noSpace, WordFacts.noSpace_firstWord. }
  split; [exact Heq |]. rewrite Heq.
  destruct command as [| x s]; [discriminate |]. cbn. now intros ->.
Qed.

Lemma getCommandName_first_word_witness :
  getCommandName "build --watch  src" = Words.firstWord "build --watch  src" /\
  (Str.startsWithSpace "build --watch  src" = true ->
   getCommandName "build --watch  src" = "").
Proof.
  apply (getCommandName_first_word "build --watch  src"). reflexivity.
Defined.

(** ** Registration: merging, failures and defaults *)

Section RegistrationExtras.

Context (env : Env).

(** X2: a flag registration that returns merges its flags into the
    aggregate of its key, the newest spec winning on a flag name that was
    there and the other flags staying, appends its handler to the key's
    list, and leaves the aggregates and lists of the other keys, the
    registered commands and the parser alone. *)
Theorem registerCommandFlag_merges (c : string) (flag h : value)
    (s s' : Service) :
  registerCommandFlag env (VStr c) flag h s = (Ok tt, s') ->
  let k := getCommandName c in
  (forall name,
     default ∅ (registeredCommandFlags s' !! k) !! name
       = match ownProps flag !! name with
         | Some spec => Some spec
         | None => default ∅ (registeredCommandFlags s !! k) !! name
         end) /\
  registeredCommandHandlers s' !! k
    = Some (default [] (registeredCommandHandlers s !! k) ++ [h]) /\
  (forall k', k' <> k ->
     registeredCommandFlags s' !! k' = registeredCommandFlags s !! k' /\
     registeredCommandHandlers s' !! k' = registeredCommandHandlers s !! k') /\
  registeredCommands s' = registeredCommands s /\
  cliCommands s' = cliCommands s.
Proof.
  intros H k. apply registerCommandFlag_inv in H as (c' & [= <-] & ->).
  cbn. fold k. rewrite !lookup_insert_eq. cbn.
  split; [intros name; apply objectAssign_lookup |].
  split; [reflexivity |]. split; [| split; reflexivity].
  intros k' Hk. now rewrite !lookup_insert_ne by congruence.
Qed.

(** X3: [registerCommand] and [registerCommandFlag] write nothing when
    they do not return, and what they throw then is a TypeError, whatever
    [argsert] makes of the arguments: it only warns. [registerCommandFlag]
    returns for every command name that is a string. *)
Theorem registration_failure_writes_nothing (a b c : value) (s : Service) :
  (isOk (registerCommand env a b s).1 = false ->
   registerCommand env a b s = (Throw TypeError, s)) /\
  (isOk (registerCommandFlag env a b c s).1 = false ->
   registerCommandFlag env a b c s = (Throw TypeError, s)) /\
  (forall name, a = VStr name ->
                isOk (registerCommandFlag env a b c s).1 = true).
Proof.
  split; [| split].
  - unfold registerCommand. rewrite argsertCall_bind.
    unfold bind, lift, modify.
    destruct (descriptorOf a b) as [[k d] | e] eqn:Hd; [discriminate |].
    intros _. f_equal. f_equal.
    revert Hd. unfold descriptorOf, descriptionOf, obind, getField.
    destruct a, b; cbn;
      repeat match goal with
             | |- context [match ?x with _ => _ end] =>
                 lazymatch x with
                 | context [match _ with _ => _ end] => fail
                 | _ => destruct x
                 end
             end; congruence.
  - unfold registerCommandFlag. rewrite argsertCall_bind.
    unfold bind, commandNameOf, throw, ret, modify.
    destruct a; first [discriminate | reflexivity].
  - intros name ->. unfold registerCommandFlag. rewrite argsertCall_bind.
    reflexivity.
Qed.

(** X4: a command registered without a function as its handler, be it in
    a descriptor object or in the object that comes with a command
    string, is stored with the empty handler. When it is dispatched and
    no pre-handler vetoes or throws, the call of its handler ends, after
    the pre-handlers, with the warning that it has an empty handler, and
    returns; the warning names the first argument of [registerCommand],
    which for a descriptor object reads [[object Object]]. *)
Theorem registerCommand_empty_handler (name ym h argv : value)
    (s s' : Service) :
  registerCommand env name ym s = (Ok tt, s') ->
  (typeofObject name = true /\ getField name "handler" = Ok h) \/
  (typeofObject name = false /\ typeofFunction ym = false /\
   getField ym "handler" = Ok h) ->
  typeofFunction h = false ->
  exists k d,
    registeredCommands s' !! k = Some d /\
    handler d = EmptyHandler name /\
    registeredCommands s' = <[k := d]> (registeredCommands s) /\
    (forall rawArgs,
       exists m s'',
         runCommand env k rawArgs s' = (Ok tt, s'') /\
         cliCommands s'' = cliCommands s' ++ [m] /\
         ((forall f, f ∈ functionsOf (capturedHandlers s'' m) ->
                     continues env argv f) ->
          composedHandler env s'' m argv
            = (calls (functionsOf (capturedHandlers s'' m)) argv ++
               [Called (EmptyHandler name) argv;
                Warned (toDisplay name ++ " has an empty handler.")%string],
               Ok tt))) /\
    (typeofObject name = true -> toDisplay name = "[object Object]").
Proof.
  intros H Hh Hf.
  apply registerCommand_inv in H as (k & d & Hd & ->).
  assert (handler d = EmptyHandler name /\
          (typeofObject name = true -> toDisplay name = "[object Object]"))
    as [Hd1 Hd2].
  { revert Hd. unfold descriptorOf.
    destruct Hh as [[Ho Hh] | (Ho & Hy & Hh)]; rewrite Ho, ?Hy, Hh.
    - unfold obind.
      destruct (getField name "command") as [c0 |] eqn:Hc; [| discriminate].
      destruct (descriptionOf name); [| discriminate].
      destruct (getField name "builder"); [| discriminate].
      destruct (getField name "aliases"); [| discriminate].
      destruct (getField name "extend"); [| discriminate].
      destruct c0; try discriminate. intros [= _ <-]. cbn. split.
      + destruct h; try reflexivity. discriminate Hf.
      + intros _. destruct name; try discriminate; reflexivity.
    - unfold obind.
      destruct (descriptionOf ym); [| discriminate].
      destruct (getField ym "builder"); [| discriminate].
      destruct (getField ym "aliases"); [| discriminate].
      destruct (getField name "extend"); [| discriminate].
      destruct name; try discriminate. intros [= _ <-]. cbn. split.
      + destruct h; try reflexivity. discriminate Hf.
      + discriminate. }
  exists k, d.
  split; [cbn; apply lookup_insert_eq |].
  split; [exact Hd1 |]. split; [reflexivity |]. split; [| exact Hd2].
  intros rawArgs.
  destruct (runCommand_registered env
              (set_registeredCommands (<[k := d]> (registeredCommands s)) s)
              k rawArgs d) as (m & s'' & Hrun & Hcli & _ & Ho & _).
  { cbn. apply lookup_insert_eq. }
  exists m, s''. split; [exact Hrun |]. split; [exact Hcli |].
  intros Hall. rewrite (composedHandler_continue env s'' m argv Hall).
  now rewrite Ho, Hd1.
Qed.

End RegistrationExtras.

(** ** Dispatch: unknown commands, late registrations and exceptions *)

Section DispatchExtras.

Context (env : Env).

(** X5: the arguments given to the parser start with the command, which
    is put in front of [rawArgs] unless it is already its first element. *)
Theorem runCommand_parsed_args (cmd : string) (rawArgs : list string)
    (d : Descriptor) (s : Service) :
  registeredCommands s !! cmd = Some d ->
  exists parsed,
    cliParsed (runCommand env cmd rawArgs s).2 = cliParsed s ++ [parsed] /\
    head parsed = Some cmd /\
    (head rawArgs = Some cmd -> parsed = rawArgs) /\
    (head rawArgs <> Some cmd -> parsed = cmd :: rawArgs).
Proof.
  intros H. unfold runCommand, bind, gets, modify, ret. rewrite H.
  exists (match rawArgs with
          | a :: _ => if String.eqb a cmd then rawArgs else cmd :: rawArgs
          | [] => cmd :: rawArgs
          end).
  split; [destruct (registeredCommandFlags s !! cmd); reflexivity |].
  destruct rawArgs as [| a rest]; cbn.
  - repeat split. discriminate.
  - destruct (String.eqb_spec a cmd) as [-> | Hne]; cbn;
      repeat split; congruence.
Qed.

Lemma preHandlers_throw (handlers : list value) (argv doit : value)
    (before : list nat) (f : nat) (after : list nat) (e : error) :
  functionsOf handlers = before ++ f :: after ->
  (forall g, g ∈ before -> continues env argv g) ->
  callHandler env f argv = Throw e ->
  preHandlers env handlers argv doit = (calls (before ++ [f]) argv, Throw e).
Proof.
  revert doit before.
  induction handlers as [| h rest IH]; intros doit before Hfs Hall Hf.
  - destruct before; discriminate Hfs.
  - destruct h as [| | b | n | t | g | o | l];
      try (cbn [preHandlers]; apply IH; assumption).
    cbn [functionsOf omap] in Hfs. fold (functionsOf rest) in Hfs.
    destruct before as [| g' before'].
    + injection Hfs as -> Hrest. cbn [preHandlers]. rewrite Hf. reflexivity.
    + injection Hfs as <- Hrest.
      destruct (Hall g) as (v & Hv & Hne); [left |].
      rewrite (preHandlers_step env g rest argv doit v Hv Hne).
      rewrite (IH v before' Hrest); [reflexivity | | exact Hf].
      intros g' Hg'. apply Hall. now right.
Qed.

(** X6: when a pre-handler throws, the dispatch handler throws the same
    error; the pre-handlers after it and the command's own handler are
    not called. *)
Theorem prehandler_exception_propagates (s : Service) (m : CliModule)
    (argv : value) (before : list nat) (f : nat) (after : list nat)
    (e : error) :
  functionsOf (capturedHandlers s m) = before ++ f :: after ->
  (forall g, g ∈ before -> continues env argv g) ->
  callHandler env f argv = Throw e ->
  composedHandler env s m argv = (calls (before ++ [f]) argv, Throw e).
Proof.
  intros Hfs Hall Hf. unfold composedHandler.
  now rewrite (preHandlers_throw _ argv (VBool true) before f after e
                 Hfs Hall Hf).
Qed.

(** X7: a flag registration made after [runCommand]. The handler and
    the builder that the parser was given see it when the command had
    a pre-handler list and a flag aggregate at the time of [runCommand]
    (they hold those very objects); a command dispatched before any flag
    registration has a handler that never calls pre-handlers registered
    later, and a builder of its own that does not get their flags. *)
Theorem late_flag_registration (cmd c : string) (rawArgs : list string)
    (d : Descriptor) (flag h : value) (s s2 : Service) :
  registeredCommands s !! cmd = Some d ->
  getCommandName c = cmd ->
  let s1 := (runCommand env cmd rawArgs s).2 in
  registerCommandFlag env (VStr c) flag h s1 = (Ok tt, s2) ->
  exists m,
    cliCommands s2 = cliCommands s ++ [m] /\
    (forall hs, registeredCommandHandlers s !! cmd = Some hs ->
                capturedHandlers s2 m = hs ++ [h]) /\
    (registeredCommandHandlers s !! cmd = None ->
     capturedHandlers s2 m = [] /\
     registeredCommandHandlers s2 !! cmd = Some [h]) /\
    (forall flags, registeredCommandFlags s !! cmd = Some flags ->
       builderOf s2 m
         = objectAssign (objectAssign flags (ownProps (builder d)))
             (ownProps flag)) /\
    (registeredCommandFlags s !! cmd = None ->
     builderOf s2 m = objectAssign ∅ (ownProps (builder d))).
Proof.
  intros Hd Hc s1 H2.
  destruct (runCommand_registered env s cmd rawArgs d Hd)
    as (m & s1' & Hrun & Hcli & _ & _ & _ & _ & Hhs & Hb & Hfl & Hh' & _).
  assert (s1 = s1') as Hs1 by (unfold s1; now rewrite Hrun).
  rewrite Hs1 in H2. clear s1 Hs1 Hrun.
  apply registerCommandFlag_inv in H2 as (c' & [= <-] & ->).
  rewrite Hc. exists m. cbn. split; [exact Hcli |].
  unfold capturedHandlers, builderOf. cbn. rewrite Hhs, Hb, Hh', Hfl.
  split; [| split; [| split]].
  - intros hs Hs. rewrite Hs. cbn. now rewrite lookup_insert_eq.
  - intros Hn. rewrite Hn. cbn. now rewrite lookup_insert_eq.
  - intros flags Hf. rewrite Hf. now rewrite !lookup_insert_eq.
  - intros Hn. now rewrite Hn.
Qed.

End DispatchExtras.

(** ** Plugin registry: what loading returns and when it throws *)

Section PluginExtras.

Context (env : Env).

Lemma mapM_length {A B} (f : A -> M B) (xs : list A) (ys : list B)
    (s s' : Service) :
  mapM f xs s = (Ok ys, s') -> length ys = length xs.
Proof.
  revert ys s s'. induction xs as [| x xs IH]; intros ys s s'.
  - cbn. now intros [= <- _].
  - cbn [mapM]. unfold bind at 1.
    destruct (f x s) as [[y | e] s1]; [| discriminate].
    unfold bind at 1.
    destruct (mapM f xs s1) as [[ys' | e] s2] eqn:H; [| discriminate].
    intros [= <- _]. cbn. f_equal. eapply IH, H.
Qed.

(** X8: when [resolvePlugins] returns, the built-in plugins come first,
    in their fixed order, followed by exactly one element per specifier:
    a specifier that fails to load is not left out. *)
Theorem resolvePlugins_shape (specs : list PluginSpec) (useBuiltIn : bool)
    (ps : list PluginEntry) (s s' : Service) :
  resolvePlugins env specs useBuiltIn s = (Ok ps, s') ->
  exists loaded,
    ps = (if useBuiltIn
          then (fun id => EntryValue (requireBuiltIn env id)) <$>
                 ["base"; "css"; "app"; "optimization"; "babel"]
          else []) ++ loaded /\
    length loaded = length specs.
Proof.
  unfold resolvePlugins. destruct specs as [| spec specs].
  - intros [= <- _]. exists []. now rewrite app_nil_r.
  - unfold bind.
    destruct (mapM (_loadPlugin env) (spec :: specs) s) as [[l | e] s1] eqn:H;
      [| discriminate].
    intros [= <- _]. exists l. split; [reflexivity |].
    eapply mapM_length, H.
Qed.

(** A specifier is taken apart into the plugin and its options before
    anything else: an array of any other length than 2 is itself the
    plugin. *)
Lemma loadPlugin_parts (spec : PluginSpec) :
  exists o, _loadPlugin env spec = _loadPlugin env (Pair (specifierOf spec) o) /\
            forall p o', spec = Pair p o' -> o = o'.
Proof.
  destruct spec as [p | p o].
  - destruct p as [| | | | | | | l];
      try (exists VUndef; split; [reflexivity | discriminate]).
    destruct l as [| a [| b [| c l]]];
      try (exists VUndef; split; [reflexivity | discriminate]).
    exists b. split; [reflexivity | discriminate].
  - exists o. split; [reflexivity | now intros ? ? [= _ <-]].
Qed.

(** The last branch of [_loadPlugin] returns [undefined] or throws a
    TypeError. *)
Lemma invalidPlugin_result (p : value) (s : Service) :
  (invalidPlugin p s).1 = Ok (EntryValue VUndef) \/
  (invalidPlugin p s).1 = Throw TypeError /\ (p = VUndef \/ p = VNull).
Proof.
  unfold invalidPlugin, bind, logger, modify, ret, throw.
  destruct p; cbn [fst snd]; try (left; reflexivity);
    try (right; split; [reflexivity | auto]).
  destruct (String.eqb _ _); left; reflexivity.
Qed.

Ltac invalid_case s :=
  cbn [_loadPlugin];
  match goal with
  | |- context [invalidPlugin ?p s] =>
      destruct (invalidPlugin_result p s) as [-> | [-> _]]
  end.

Ltac load_cases :=
  repeat match goal with
         | |- context [match ?x with _ => _ end] =>
             lazymatch x with
             | context [match _ with _ => _ end] => fail
             | _ => destruct x eqn:?; cbn
             end
         end.

(** The only error [_loadPlugin] throws is TypeError; the errors of a
    string specifier are all caught. *)
Lemma loadPlugin_errors (spec : PluginSpec) (s : Service) :
  (forall e, (_loadPlugin env spec s).1 = Throw e -> e = TypeError) /\
  (forall name, specifierOf spec = VStr name ->
     exists entry, (_loadPlugin env spec s).1 = Ok entry).
Proof.
  destruct (loadPlugin_parts spec) as (o & -> & _).
  generalize (specifierOf spec). intros p.
  split.
  - intros e.
    destruct p;
      try (invalid_case s; congruence).
    + cbn. congruence.
    + unfold _loadPlugin, tryCatch, bind, gets, lift, logger, modify, ret,
        throw, getField.
      cbn. load_cases; congruence.
    + cbn [_loadPlugin]. destruct (_ && _); [discriminate |].
      destruct (invalidPlugin_result (VObj o0) s) as [-> | [-> _]]; congruence.
  - intros name ->.
    unfold _loadPlugin, tryCatch, bind, gets, lift, logger, modify, ret,
      throw, getField.
    cbn. load_cases; eauto.
Qed.

(** X9: a specifier that is [null] or [undefined] (alone or as the first
    element of a pair) is not skipped: [resolvePlugins] throws a TypeError
    for any list that has one, so the constructor throws. *)
Theorem resolvePlugins_nullish_specifier (specs : list PluginSpec)
    (spec : PluginSpec) (useBuiltIn : bool) (s : Service) :
  spec ∈ specs ->
  specifierOf spec = VUndef \/ specifierOf spec = VNull ->
  (resolvePlugins env specs useBuiltIn s).1 = Throw TypeError.
Proof.
  intros Hin Hnull.
  assert ((mapM (_loadPlugin env) specs s).1 = Throw TypeError) as Hm.
  { revert s. induction specs as [| x xs IH]; intros s.
    - inversion Hin.
    - cbn [mapM]. unfold bind at 1.
      destruct (_loadPlugin env x s) as [[y | e] s1] eqn:Hx.
      + apply elem_of_cons in Hin as [<- | Hin].
        * exfalso. destruct (loadPlugin_parts spec) as (o & Hp & _).
          rewrite Hp in Hx.
          destruct Hnull as [Hn | Hn]; rewrite Hn in Hx; discriminate Hx.
        * unfold bind. specialize (IH Hin s1).
          destruct (mapM (_loadPlugin env) xs s1) as [[ys | e] s2];
            [discriminate | cbn in *; congruence].
      + cbn. f_equal.
        apply (proj1 (loadPlugin_errors x s)). now rewrite Hx. }
  unfold resolvePlugins. destruct specs as [| x xs]; [inversion Hin |].
  unfold bind.
  destruct (mapM (_loadPlugin env) (x :: xs) s) as [[l | e] s1];
    [discriminate | exact Hm].
Qed.

Lemma loadedEntry_callable (o : object) (options : value) :
  typeofFunction (getProp o "apply") = true ->
  is_Some (entryFunction (loadedEntry (VObj o) options)).
Proof.
  unfold loadedEntry, entryFunction.
  destruct (truthy options); cbn; destruct (getProp o "apply");
    try discriminate; eauto.
Qed.

Lemma entryValue_callable (o : object) :
  typeofFunction (getProp o "apply") = true ->
  is_Some (entryFunction (EntryValue (VObj o))).
Proof.
  unfold entryFunction. cbn. destruct (getProp o "apply");
    try discriminate; eauto.
Qed.

(** An element that [_loadPlugin] returns is [undefined] or has a function
    as its [apply]; of a pair with truthy options it has these options. *)
Lemma loadPlugin_entry (spec : PluginSpec) (s : Service) (entry : PluginEntry) :
  (_loadPlugin env spec s).1 = Ok entry ->
  entry = EntryValue VUndef \/ is_Some (entryFunction entry).
Proof.
  destruct (loadPlugin_parts spec) as (o & -> & _).
  generalize (specifierOf spec). intros p.
  destruct p;
    try (invalid_case s; [intros [= <-]; now left | discriminate]).
  - discriminate.
  - unfold _loadPlugin, tryCatch, bind, gets, lift, logger, modify, ret,
      throw.
    cbn. load_cases; intros [= <-];
      first
        [ left; reflexivity
        | right; apply loadedEntry_callable;
          rewrite ?getProp_insert_ne by discriminate; assumption ].
  - cbn [_loadPlugin]. destruct (_ && _) eqn:Ha.
    + intros [= <-]. right. apply loadedEntry_callable.
      now apply andb_true_iff in Ha as [_ Ha].
    + destruct (invalidPlugin_result (VObj o0) s) as [-> | [-> _]];
        [intros [= <-]; now left | discriminate].
Qed.

Lemma loadPlugin_options (p o : value) (s : Service) (entry : PluginEntry) :
  truthy o = true ->
  (_loadPlugin env (Pair p o) s).1 = Ok entry ->
  entry = EntryValue VUndef \/ entryOptions entry = o.
Proof.
  intros Ho.
  destruct p;
    try (invalid_case s; [intros [= <-]; now left | discriminate]).
  - discriminate.
  - unfold _loadPlugin, tryCatch, bind, gets, lift, logger, modify, ret,
      throw, loadedEntry.
    rewrite Ho. cbn. load_cases;
      intros [= <-]; first [left; reflexivity | right; reflexivity].
  - cbn [_loadPlugin]. unfold loadedEntry. rewrite Ho.
    destruct (_ && _).
    + intros [= <-]. now right.
    + destruct (invalidPlugin_result (VObj o0) s) as [-> | [-> _]];
        [intros [= <-]; now left | discriminate].
Qed.

Lemma loadPlugin_loaded (p o : value) (s : Service) (entry : PluginEntry) :
  (_loadPlugin env (Pair p o) s).1 = Ok entry ->
  entry = EntryValue VUndef \/ exists o', entry = loadedEntry (VObj o') o.
Proof.
  destruct p;
    try (invalid_case s; [intros [= <-]; now left | discriminate]).
  - discriminate.
  - unfold _loadPlugin, tryCatch, bind, gets, lift, logger, modify, ret,
      throw.
    cbn. load_cases;
      intros [= <-]; first [left; reflexivity | right; eexists; reflexivity].
  - cbn [_loadPlugin]. destruct (_ && _).
    + intros [= <-]. right. eexists. reflexivity.
    + destruct (invalidPlugin_result (VObj o0) s) as [-> | [-> _]];
        [intros [= <-]; now left | discriminate].
Qed.

Lemma loadPlugin_object (o : object) (options : value) (s : Service)
    (entry : PluginEntry) :
  truthy options = true ->
  (_loadPlugin env (Pair (VObj o) options) s).1 = Ok entry ->
  entry = EntryValue VUndef \/ entry = EntryPair (VObj o) options.
Proof.
  intros Ho. cbn [_loadPlugin]. unfold loadedEntry. rewrite Ho.
  destruct (truthy (getProp o "id") && typeofFunction (getProp o "apply")).
  - intros [= <-]. now right.
  - destruct (invalidPlugin_result (VObj o) s) as [-> | [-> _]];
      [intros [= <-]; now left | discriminate].
Qed.

(** X10: a string specifier never makes [_loadPlugin] throw, whatever
    loading it does; and whatever the specifier, an element that
    [_loadPlugin] returns is [undefined] or has a function as its
    [apply]. *)
Theorem loadPlugin_result (spec : PluginSpec) (s : Service) :
  (forall name, specifierOf spec = VStr name ->
     exists entry, (_loadPlugin env spec s).1 = Ok entry) /\
  (forall entry, (_loadPlugin env spec s).1 = Ok entry ->
     entry = EntryValue VUndef \/ is_Some (entryFunction entry)).
Proof.
  split; [apply loadPlugin_errors | apply loadPlugin_entry].
Qed.

Lemma keeps_loadPlugin_log {B} (proj : Service -> B) (spec : PluginSpec) :
  (forall x s, proj (set_log x s) = proj s) ->
  keeps proj (_loadPlugin env spec).
Proof.
  intros Hl.
  assert (forall e, keeps proj (logger e)) as Hlog
    by (intros e s; apply Hl).
  destruct (loadPlugin_parts spec) as (o & -> & _).
  generalize (specifierOf spec). intros p.
  unfold _loadPlugin, invalidPlugin.
  destruct p; keeps_field; auto.
Qed.

Lemma addPlugin_entry (name : PluginSpec) (options : value)
    (s s' : Service) :
  addPlugin env name options s = (Ok tt, s') ->
  exists entry,
    (_loadPlugin env (Pair (addedParts name options).1
                           (addedParts name options).2) s).1
      = Ok entry /\
    plugins s' = plugins s ++ [entry] /\
    withoutLog s' = withoutLog (set_plugins (plugins s ++ [entry]) s).
Proof.
  unfold addPlugin. rewrite argsertCall_bind.
  unfold bind at 1.
  match goal with
  | |- context [match ?m s with _ => _ end] =>
      assert (m s = (Ok (addedParts name options), s)
              \/ exists e, m s = (Throw e, s)) as [-> | [e ->]]
  end.
  { destruct name as [p | p o]; [| left; reflexivity].
    destruct p; try (left; reflexivity).
    - right. eexists. reflexivity.
    - cbn [typeofObject]. unfold bind at 1. cbn [lift getField].
      unfold bind at 1. cbn [lift]. rewrite argsertCall_bind.
      left. reflexivity. }
  2: discriminate.
  destruct (addedParts name options) as [p o]. cbn [fst snd].
  unfold bind at 1.
  pose proof (keeps_loadPlugin_log withoutLog (Pair p o)
                (fun _ _ => eq_refl) s) as Hk.
  destruct (_loadPlugin env _ s) as [[entry | e] s1]; [| discriminate].
  cbn in Hk. intros [= <-]. exists entry.
  assert (plugins s1 = plugins s) as Hp
    by (change (plugins (withoutLog s1) = plugins (withoutLog s));
        now rewrite Hk).
  cbn. rewrite Hp. split; [reflexivity |]. split; [reflexivity |].
  unfold withoutLog in *. destruct s1, s. cbn in *.
  injection Hk as -> -> -> -> -> -> -> -> -> -> -> -> -> -> ->.
  reflexivity.
Qed.

(** X11: an [addPlugin] that returns has appended exactly one element to
    [this.plugins], also when the plugin could not be loaded: that
    element is then [undefined]. Otherwise it has a function as its
    [apply]. Apart from the log nothing else changes; in particular the
    plugin is not initialized. *)
Theorem addPlugin_appends_one (name : PluginSpec) (options : value)
    (s s' : Service) :
  addPlugin env name options s = (Ok tt, s') ->
  exists entry,
    plugins s' = plugins s ++ [entry] /\
    (entry = EntryValue VUndef \/ is_Some (entryFunction entry)) /\
    withoutLog s' = withoutLog (set_plugins (plugins s ++ [entry]) s).
Proof.
  intros H. apply addPlugin_entry in H as (entry & Hl & Hp & Hw).
  exists entry. split; [exact Hp |]. split; [| exact Hw].
  eapply loadPlugin_entry, Hl.
Qed.

End PluginExtras.

(** ** Initialization: order, failure and append-only lists *)

Section AppendFacts.

Context {B : Type} (proj : Service -> list B).

Lemma appendsTo_ret {A} (a : A) : appendsTo proj (ret a).
Proof. intros s. reflexivity. Qed.

Lemma appendsTo_throw {A} (e : error) : appendsTo proj (@throw A e).
Proof. intros s. reflexivity. Qed.

Lemma appendsTo_lift {A} (r : outcome A) : appendsTo proj (lift r).
Proof. intros s. reflexivity. Qed.

Lemma appendsTo_gets {A} (f : Service -> A) : appendsTo proj (gets f).
Proof. intros s. reflexivity. Qed.

Lemma appendsTo_modify (f : Service -> Service) :
  (forall s, proj s `prefix_of` proj (f s)) -> appendsTo proj (modify f).
Proof. intros H s. apply H. Qed.

Lemma appendsTo_bind {A C} (m : M A) (k : A -> M C) :
  appendsTo proj m -> (forall a, appendsTo proj (k a)) ->
  appendsTo proj (bind m k).
Proof.
  intros Hm Hk s. unfold bind. specialize (Hm s).
  destruct (m s) as [[a | e] s1]; cbn in *; [| exact Hm].
  etrans; [exact Hm | apply Hk].
Qed.

Lemma appendsTo_tryCatch {A} (m : M A) (h : error -> M A) :
  appendsTo proj m -> (forall e, appendsTo proj (h e)) ->
  appendsTo proj (tryCatch m h).
Proof.
  intros Hm Hh s. unfold tryCatch. specialize (Hm s).
  destruct (m s) as [[a | e] s1]; cbn in *; [exact Hm |].
  etrans; [exact Hm | apply Hh].
Qed.

Lemma appendsTo_forEach {A} (f : A -> M unit) (xs : list A) :
  (forall x, appendsTo proj (f x)) -> appendsTo proj (forEach f xs).
Proof.
  intros Hf. induction xs as [| x xs IH]; cbn [forEach].
  - apply appendsTo_ret.
  - apply appendsTo_bind; auto.
Qed.

Lemma appendsTo_if {A} (b : bool) (m1 m2 : M A) :
  appendsTo proj m1 -> appendsTo proj m2 ->
  appendsTo proj (if b then m1 else m2).
Proof. destruct b; auto. Qed.

End AppendFacts.

(** Reduces a goal [appendsTo proj m] to the writes of [m]. *)
Ltac appends_field :=
  repeat first
    [ apply appendsTo_ret | apply appendsTo_throw | apply appendsTo_lift
    | apply appendsTo_gets
    | apply appendsTo_bind; [| intros ?]
    | apply appendsTo_tryCatch; [| intros ?]
    | apply appendsTo_forEach; intros ?
    | apply appendsTo_if
    | match goal with
      | |- appendsTo _ (match ?x with _ => _ end) => destruct x
      | |- appendsTo _ (let '(_, _) := ?x in _) => destruct x
      end ].

Section InitExtras.

Context (env : Env).

Section View.

Context {B : Type} (proj : Service -> list B) (Hview : appendOnlyView proj).

Lemma appendsTo_logger (e : LogEntry) : appendsTo proj (logger e).
Proof.
  destruct Hview as (_ & _ & _ & _ & _ & H & _). intros s. apply H.
Qed.

Lemma appendsTo_loadPlugin (spec : PluginSpec) :
  appendsTo proj (_loadPlugin env spec).
Proof.
  pose proof appendsTo_logger as Hl.
  unfold _loadPlugin, invalidPlugin.
  destruct spec as [p | p o]; destruct p; appends_field; auto.
Qed.

Lemma appendsTo_apiCall (c : ApiCall) : appendsTo proj (apiCall env c).
Proof.
  pose proof appendsTo_loadPlugin as Hp.
  destruct Hview as (H1 & H2 & H3 & H4 & H5 & H6 & H7 & H8 & H9 & H10 & H11).
  destruct c; cbn [apiCall].
  - unfold registerCommand. appends_field. apply appendsTo_modify.
    intros st. now rewrite H3.
  - unfold registerCommandFlag, commandNameOf. appends_field;
      apply appendsTo_modify; intros st; now rewrite ?H4, ?H5.
  - unfold addPlugin. appends_field; try apply Hp.
    all: apply appendsTo_modify; intros st; apply H7.
  - unfold addDevServerMiddleware. appends_field. apply appendsTo_modify.
    intros st. apply H8.
  - apply appendsTo_modify. intros st. apply H9.
  - apply appendsTo_modify. intros st. apply H10.
  - apply appendsTo_throw.
Qed.

Lemma appendsTo_initPlugin (e : PluginEntry) :
  appendsTo proj (initPlugin env e).
Proof.
  pose proof appendsTo_apiCall as Hc.
  destruct Hview as (H1 & H2 & H3 & H4 & H5 & H6 & H7 & H8 & H9 & H10 & H11).
  unfold initPlugin. destruct e as [p | p o]; appends_field; auto.
  all: apply appendsTo_modify; intros st; apply H11.
Qed.

Lemma appendsTo_init (mode0 : value) : appendsTo proj (init env mode0).
Proof.
  pose proof appendsTo_initPlugin as Hp.
  destruct Hview as (H1 & H2 & H3 & H4 & H5 & H6 & H7 & H8 & H9 & H10 & H11).
  unfold init. appends_field; auto.
  all: apply appendsTo_modify; intros st;
    rewrite ?H1, ?H2; first [reflexivity | apply H9 | apply H10].
Qed.

End View.

Lemma appendOnlyView_lists :
  appendOnlyView webpackChainFns /\ appendOnlyView webpackRawConfigFns /\
  appendOnlyView devServerMiddlewares /\ appendOnlyView plugins /\
  appendOnlyView applied /\ appendOnlyView log.
Proof.
  repeat split; intros; cbn; first [reflexivity | now apply prefix_app_r].
Qed.

(** X12: the lists of the Service are append-only under [init] and under
    everything a plugin can call from its [apply]: the chain and raw
    mutators, the dev-server middlewares, the plugins, the applications
    and the log are only ever extended at the end, whether the method
    returns or throws. *)
Theorem init_append_only (mode0 : value) (c : ApiCall) (s : Service) :
  let after m := (m s).2 in
  (webpackChainFns s `prefix_of` webpackChainFns (after (init env mode0)) /\
   webpackRawConfigFns s `prefix_of`
     webpackRawConfigFns (after (init env mode0)) /\
   devServerMiddlewares s `prefix_of`
     devServerMiddlewares (after (init env mode0)) /\
   plugins s `prefix_of` plugins (after (init env mode0)) /\
   applied s `prefix_of` applied (after (init env mode0)) /\
   log s `prefix_of` log (after (init env mode0))) /\
  (webpackChainFns s `prefix_of` webpackChainFns (after (apiCall env c)) /\
   webpackRawConfigFns s `prefix_of`
     webpackRawConfigFns (after (apiCall env c)) /\
   devServerMiddlewares s `prefix_of`
     devServerMiddlewares (after (apiCall env c)) /\
   plugins s `prefix_of` plugins (after (apiCall env c)) /\
   applied s `prefix_of` applied (after (apiCall env c)) /\
   log s `prefix_of` log (after (apiCall env c))).
Proof.
  destruct appendOnlyView_lists as (V1 & V2 & V3 & V4 & V5 & V6).
  intros after0. unfold after0. split; repeat split;
    first [ now apply appendsTo_init | now apply appendsTo_apiCall ].
Qed.

End InitExtras.

Section InitOrder.

Context (env : Env).

Lemma keeps_forEach_initPlugin {B} (proj : Service -> B)
    (ps : list PluginEntry) :
  untouchedByPlugins proj ->
  (forall x s, proj (set_applied x s) = proj s) ->
  keeps proj (forEach (initPlugin env) ps).
Proof.
  intros Hu Ha. apply keeps_forEach. intros e.
  now apply keeps_initPlugin.
Qed.

Lemma initPlugin_application (e : PluginEntry) (s s' : Service) :
  initPlugin env e s = (Ok tt, s') ->
  exists a,
    applied s' = applied s ++ [a] /\
    entryFunction e = Some (app_fn a) /\
    app_options a = entryOptions e /\
    app_projectOptions a = projectOptions s.
Proof.
  unfold initPlugin, entryFunction, entryOptions.
  destruct (entryParts e) as [p o]. cbn [fst snd].
  unfold bind at 1, lift at 1.
  destruct (getField p "id") as [id | err]; [| discriminate].
  unfold bind at 1, lift at 1.
  destruct (getField p "apply") as [[| | | | | f | |] | err]; try discriminate.
  unfold bind at 1, gets at 1. unfold bind at 1, modify at 1.
  intros H.
  match type of H with ?m ?s0 = _ =>
    assert (keeps applied m) as Hk
  end.
  { pose proof (fun c => keeps_apiCall env applied c untouched_applied).
    keeps_field; auto. }
  specialize (Hk (set_applied
                    (applied s ++
                       [{| app_fn := f; app_id := id;
                           app_projectOptions := projectOptions s;
                           app_options := o |}]) s)).
  rewrite H in Hk. cbn in Hk. eexists. split; [exact Hk |].
  repeat split.
Qed.

Lemma forEach_initPlugin_applications (ps : list PluginEntry)
    (s s' : Service) :
  forEach (initPlugin env) ps s = (Ok tt, s') ->
  exists apps,
    applied s' = applied s ++ apps /\
    Forall2 (fun e a => entryFunction e = Some (app_fn a) /\
                        app_options a = entryOptions e /\
                        app_projectOptions a = projectOptions s) ps apps.
Proof.
  revert s. induction ps as [| e ps IH]; intros s.
  - cbn. intros [= <-]. exists []. split; [now rewrite app_nil_r | constructor].
  - cbn [forEach]. unfold bind at 1.
    pose proof (keeps_initPlugin env projectOptions e
                  untouched_projectOptions (fun _ _ => eq_refl) s) as Hk.
    destruct (initPlugin env e s) as [[[] | err] s1] eqn:H1; [| discriminate].
    cbn in Hk.
    intros H2. apply initPlugin_application in H1 as (a & Ha & Hf).
    apply IH in H2 as (apps & Hs & Hall). rewrite Hk in Hall.
    exists (a :: apps). split; [| constructor; assumption].
    rewrite Hs, Ha. now rewrite <- List.app_assoc.
Qed.

(** The applications of an [init] that returns. *)
Lemma init_applications (mode0 : value) (s s' : Service) :
  initialized s = false ->
  init env mode0 s = (Ok tt, s') ->
  exists apps,
    applied s' = applied s ++ apps /\
    Forall2 (fun e a => entryFunction e = Some (app_fn a) /\
                        app_options a = entryOptions e /\
                        app_projectOptions a = projectOptions s)
      (plugins s) apps.
Proof.
  intros Hi. rewrite (init_first env mode0 s Hi).
  unfold bind at 1, gets at 1. unfold bind at 1.
  destruct (forEach (initPlugin env) _ _) as [[[] | err] s1] eqn:H1;
    [| discriminate].
  apply forEach_initPlugin_applications in H1 as (apps & Hs & Hall).
  cbn in Hs, Hall. intros H.
  match type of H with ?m ?s0 = _ =>
    assert (keeps applied m) as Hk
  end.
  { keeps_field; apply keeps_modify; reflexivity. }
  specialize (Hk s1). rewrite H in Hk. cbn in Hk.
  exists apps. split; [congruence | exact Hall].
Qed.

(** X13: an [init] that returns on a Service that was not initialized has
    called the [apply] of every element that [this.plugins] had when it
    started, once and in order, each with the [projectOptions] of the
    Service and with its own options (an empty object for a plugin without
    options). *)
Theorem init_applies_plugins_in_order (mode0 : value) (s s' : Service) :
  initialized s = false ->
  init env mode0 s = (Ok tt, s') ->
  exists apps,
    applied s' = applied s ++ apps /\
    Forall2 (fun e a => entryFunction e = Some (app_fn a) /\
                        app_options a = entryOptions e /\
                        app_projectOptions a = projectOptions s)
      (plugins s) apps.
Proof. apply init_applications. Qed.

(** X14: [init] on a Service whose [projectOptions] was never set ([run]
    sets it) throws, yet it leaves the Service marked as initialized with
    the mode stored, so that calling [init] again returns without doing
    anything. *)
Theorem init_without_projectOptions (mode1 mode2 : value) (s : Service) :
  initialized s = false ->
  projectOptions s = VUndef \/ projectOptions s = VNull ->
  exists e,
    (init env mode1 s).1 = Throw e /\
    initialized (init env mode1 s).2 = true /\
    init env mode2 (init env mode1 s).2 = (Ok tt, (init env mode1 s).2).
Proof.
  intros Hi Hp.
  assert (exists e, (init env mode1 s).1 = Throw e) as [e He].
  { rewrite (init_first env mode1 s Hi).
    unfold bind at 1, gets at 1. unfold bind at 1.
    pose proof (keeps_forEach_initPlugin projectOptions
                  (plugins (set_mode mode1 (set_initialized true s)))
                  untouched_projectOptions (fun _ _ => eq_refl)
                  (set_mode mode1 (set_initialized true s))) as Hk.
    destruct (forEach (initPlugin env) _ _) as [[[] | err] s1];
      [| eexists; reflexivity].
    cbn in Hk. unfold bind at 1, gets at 1. rewrite Hk.
    destruct Hp as [-> | ->]; eexists; reflexivity. }
  exists e. split; [exact He |].
  split; [apply init_initialized |].
  apply init_again, init_initialized.
Qed.

(** X15: an [init] that returns has put the [chainWebpack] of the project
    options, when it is truthy, last in [webpackChainFns], after the
    mutators that were there and those the plugins added, and the
    [configWebpack] of the project options last in [webpackRawConfigFns];
    neither value is checked to be a function. *)
Theorem init_project_mutators_last (mode0 : value) (s s' : Service)
    (options : object) :
  initialized s = false ->
  projectOptions s = VObj options ->
  init env mode0 s = (Ok tt, s') ->
  (truthy (getProp options "chainWebpack") = true ->
   exists fns, webpackChainFns s' = fns ++ [getProp options "chainWebpack"] /\
               webpackChainFns s `prefix_of` fns) /\
  (truthy (getProp options "configWebpack") = true ->
   exists fns,
     webpackRawConfigFns s' = fns ++ [getProp options "configWebpack"] /\
     webpackRawConfigFns s `prefix_of` fns).
Proof.
  intros Hi Hp. rewrite (init_first env mode0 s Hi).
  unfold bind at 1, gets at 1. unfold bind at 1.
  set (s0 := set_mode mode0 (set_initialized true s)).
  pose proof (keeps_forEach_initPlugin projectOptions (plugins s0)
                untouched_projectOptions (fun _ _ => eq_refl) s0) as Hk.
  destruct appendOnlyView_lists as (V1 & V2 & _).
  pose proof (appendsTo_forEach webpackChainFns (initPlugin env) (plugins s0)
                (appendsTo_initPlugin env webpackChainFns V1) s0) as Hc.
  pose proof (appendsTo_forEach webpackRawConfigFns (initPlugin env)
                (plugins s0)
                (appendsTo_initPlugin env webpackRawConfigFns V2) s0) as Hr.
  destruct (forEach (initPlugin env) (plugins s0) s0) as [[[] | err] s1];
    [| discriminate].
  subst s0. cbn in Hk, Hc, Hr. rewrite Hp in Hk.
  unfold bind, gets, lift, modify, ret. rewrite Hk. cbn.
  destruct (truthy (getProp options "chainWebpack")) eqn:Hc1; cbn;
    rewrite ?Hk; cbn;
    destruct (truthy (getProp options "configWebpack")) eqn:Hr1; cbn;
    intros [= <-]; cbn;
    (split; intros Ht; [try discriminate Ht | try discriminate Ht]);
    eexists; (split; [reflexivity | assumption]).
Qed.

(** X16: as soon as [webpackChainFns] has an element that is not a
    function, which [init] puts there for a truthy [chainWebpack] option
    that is not one, [getWebpackChainConfig] throws, and so does
    [getWebpackConfig] without an argument. *)
Theorem getWebpackChainConfig_non_function (fn : value) (s : Service) :
  fn ∈ webpackChainFns s ->
  typeofFunction fn = false ->
  (exists e, getWebpackChainConfig env s = (Throw e, s)) /\
  (exists e, getWebpackConfig env None s = (Throw e, s)).
Proof.
  intros Hin Hf.
  assert (exists e, getWebpackChainConfig env s = (Throw e, s)) as [e He].
  { unfold getWebpackChainConfig, bind, gets, lift.
    generalize (Ok (newConfig env) : outcome (chain env)).
    induction (webpackChainFns s) as [| x xs IH]; [inversion Hin |].
    intros acc. cbn [fold_left].
    apply elem_of_cons in Hin as [<- | Hin]; [| now apply IH].
    assert (exists e0, obind acc (fun config =>
              match fn with
              | VFun f => callChainFn env f config
              | _ => Throw TypeError
              end) = Throw e0) as [e0 ->].
    { destruct acc; cbn; [| eauto].
      destruct fn; try discriminate; eauto. }
    clear. induction xs as [| y ys IH]; cbn; eauto. }
  split; [eauto |]. exists e.
  unfold getWebpackConfig, bind at 1. cbv beta iota. now rewrite He.
Qed.

End InitOrder.

(** ** Final configuration: the dev-server hook *)

Section WebpackExtras.

Context (env : Env).

Lemma getWebpackConfig_pure (c : option (chain env)) :
  keeps (fun s => s) (getWebpackConfig env c).
Proof.
  unfold getWebpackConfig, getWebpackChainConfig. keeps_field.
Qed.

Lemma useMiddlewares_all (fns : list value) :
  Forall (fun f => isOk (useMiddleware env f) = true) (functionsOf fns) ->
  useMiddlewares env fns = (Used <$> functionsOf fns, Ok tt).
Proof.
  induction fns as [| fn fns IH]; [reflexivity |].
  destruct fn; cbn; try exact IH.
  intros Hall. apply Forall_cons in Hall as [Hf Hall].
  destruct (useMiddleware env f) as [[] | e]; [| discriminate].
  now rewrite (IH Hall).
Qed.

Lemma useMiddlewares_throw (fns : list value) (done : list nat) (f : nat)
    (rest : list nat) (e : error) :
  functionsOf fns = done ++ f :: rest ->
  Forall (fun f => isOk (useMiddleware env f) = true) done ->
  useMiddleware env f = Throw e ->
  useMiddlewares env fns = (Used <$> (done ++ [f]), Throw e).
Proof.
  intros Hfs Hdone He. revert done Hfs Hdone.
  induction fns as [| fn fns IH]; intros done Hfs Hdone.
  - destruct done; discriminate.
  - destruct fn; cbn in *; try (now apply IH).
    destruct done as [| g done]; cbn in Hfs; injection Hfs as -> Hfs.
    + now rewrite He.
    + apply Forall_cons in Hdone as [Hg Hdone].
      destruct (useMiddleware env g) as [[] | e']; [| discriminate].
      now rewrite (IH done Hfs Hdone).
Qed.

(** X17: a [getWebpackConfig] that returns leaves the Service as it is,
    and its [devServer] is never falsy. Its [before] hook is the
    configured one when no middleware is registered at that time.
    Otherwise it is a closure over the list of middlewares itself, not a
    copy: whenever it is called, it uses the functions registered by
    then, in registration order, those added after [getWebpackConfig]
    returned among them, and then calls the configured hook when that is
    a function; a middleware that throws ends the call there. *)
Theorem getWebpackConfig_before_hook (c : option (chain env))
    (w : WebpackConfig) (s s' : Service) :
  getWebpackConfig env c s = (Ok w, s') ->
  s' = s /\
  truthy (getProp (wc_config w) "devServer") = true /\
  exists before,
    getField (getProp (wc_config w) "devServer") "before" = Ok before /\
    (devServerMiddlewares s = [] -> wc_before w = ConfiguredBefore before) /\
    (devServerMiddlewares s <> [] ->
     forall s2,
       let fs := functionsOf (devServerMiddlewares s2) in
       (Forall (fun f => isOk (useMiddleware env f) = true) fs ->
        callBeforeHook env (wc_before w) s2
          = ((Used <$> fs) ++ (callConfiguredBefore env before).1,
             (callConfiguredBefore env before).2)) /\
       (forall done f rest e,
          fs = done ++ f :: rest ->
          Forall (fun f => isOk (useMiddleware env f) = true) done ->
          useMiddleware env f = Throw e ->
          callBeforeHook env (wc_before w) s2
            = (Used <$> (done ++ [f]), Throw e))).
Proof.
  intros H.
  pose proof (getWebpackConfig_pure c s) as Hs. rewrite H in Hs. cbn in Hs.
  subst s'. split; [reflexivity |].
  assert (truthy (getProp (wc_config w) "devServer") = true /\
          exists before,
            getField (getProp (wc_config w) "devServer") "before" = Ok before /\
            wc_before w
              = match devServerMiddlewares s with
                | [] => ConfiguredBefore before
                | _ => MiddlewaresThenBefore before
                end) as [Ht [before [Hb Hw]]].
  { revert H. unfold getWebpackConfig. unfold bind at 1.
    destruct (match c with Some c0 => ret c0 | None => _ end s)
      as [[c1 | e] s1]; [| discriminate].
    unfold bind at 1, gets at 1. destruct (initialized s1); [| discriminate].
    cbn [negb]. unfold bind at 1, gets at 1. unfold bind at 1, lift at 1.
    destruct (fold_left _ _ _) as [config | e]; [| discriminate].
    unfold bind at 1, gets at 1. unfold bind at 1, lift at 1.
    destruct (getField (projectOptions s1) "devServer") as [pd | e];
      [| discriminate].
    set (devServer := jsOr _ (VObj ∅)).
    assert (truthy devServer = true) as Ht.
    { unfold devServer, jsOr. destruct (truthy (lMerge env _ _)) eqn:E;
        [exact E | reflexivity]. }
    unfold bind at 1, lift at 1.
    destruct (getField devServer "before") as [before | e] eqn:Hb;
      [| discriminate].
    unfold bind, gets, ret. intros [= <- Hs1]. subst s1. cbn.
    rewrite getProp_insert_eq. split; [exact Ht |].
    exists before. split; [exact Hb | reflexivity]. }
  split; [exact Ht |]. exists before. split; [exact Hb |]. split.
  - intros Hn. now rewrite Hw, Hn.
  - intros Hn s2 fs.
    assert (wc_before w = MiddlewaresThenBefore before) as ->
      by (rewrite Hw; now destruct (devServerMiddlewares s)).
    unfold callBeforeHook. split.
    + intros Hall. rewrite (useMiddlewares_all _ Hall).
      now destruct (callConfiguredBefore env before).
    + intros done f rest e Hfs Hdone He.
      now rewrite (useMiddlewares_throw _ _ _ _ _ Hfs Hdone He).
Qed.

End WebpackExtras.

(** ** Normalization of the project options *)

Module SlashFacts.
Import Str Words.

Lemma endsWithSlash_cons (c : ascii) (t : string) :
  t <> "" -> endsWithSlash (String c t) = endsWithSlash t.
Proof. destruct t; [congruence | reflexivity]. Qed.

Lemma addTrailingSlash_cons (c : ascii) (t : string) :
  t <> "" -> addTrailingSlash (String c t) = String c (addTrailingSlash t).
Proof. destruct t; [congruence | reflexivity]. Qed.

Lemma stripTrailingSlash_cons (c : ascii) (t : string) :
  t <> "" ->
  stripTrailingSlash (String c t) = String c (stripTrailingSlash t).
Proof. destruct t; [congruence | reflexivity]. Qed.

Lemma append_cons (c : ascii) (s t : string) :
  (String c s ++ t)%string = String c (s ++ t).
Proof. reflexivity. Qed.

Lemma append_slash_nonempty (s : string) : (s ++ "/")%string <> "".
Proof. destruct s; discriminate. Qed.

Lemma addTrailingSlash_spec (s : string) :
  s <> "" ->
  addTrailingSlash s = if endsWithSlash s then s else (s ++ "/")%string.
Proof.
  induction s as [| c s IH]; [congruence |]. intros _.
  destruct (string_dec s "") as [-> | Hs].
  - cbn. destruct (Ascii.eqb c "/"); reflexivity.
  - rewrite addTrailingSlash_cons, endsWithSlash_cons, (IH Hs) by exact Hs.
    destruct (endsWithSlash s); reflexivity.
Qed.

Lemma endsWithSlash_append (s : string) :
  endsWithSlash (s ++ "/") = true.
Proof.
  induction s as [| c s IH]; [reflexivity |].
  rewrite append_cons.
  now rewrite endsWithSlash_cons by apply append_slash_nonempty.
Qed.

Lemma addTrailingSlash_ends (s : string) :
  s <> "" -> endsWithSlash (addTrailingSlash s) = true.
Proof.
  intros H. rewrite (addTrailingSlash_spec s H).
  destruct (endsWithSlash s) eqn:E; [exact E | apply endsWithSlash_append].
Qed.

Lemma stripDotSlash_cases (s : string) :
  stripDotSlash s = s \/
  exists s', s = String "." (String "/" s') /\ stripDotSlash s = s'.
Proof.
  destruct s as [| c s1]; [left; reflexivity |].
  destruct (ascii_dec c ".") as [-> | Hc].
  - destruct s1 as [| d s']; [left; reflexivity |].
    destruct (ascii_dec d "/") as [-> | Hd].
    + right. eexists. split; reflexivity.
    + left. destruct d as [[] [] [] [] [] [] [] []];
        try reflexivity. congruence.
  - left. destruct c as [[] [] [] [] [] [] [] []]; try reflexivity.
    congruence.
Qed.

Lemma stripDotSlash_ends (s : string) :
  endsWithSlash s = true ->
  stripDotSlash s = "" \/ endsWithSlash (stripDotSlash s) = true.
Proof.
  intros H. destruct (stripDotSlash_cases s) as [-> | (s' & -> & ->)].
  - now right.
  - destruct s'; [left; reflexivity | right; exact H].
Qed.

Lemma prefix_cons (a c : ascii) (p s : string) :
  String.prefix (String a p) (String c s)
    = if ascii_dec a c then String.prefix p s else false.
Proof. reflexivity. Qed.

Lemma isHttpUrl_first (s : string) :
  isHttpUrl s = true -> exists rest, s = String "h" rest /\ rest <> "".
Proof.
  unfold isHttpUrl. intros H.
  destruct s as [| c s']; [discriminate H |].
  rewrite !prefix_cons in H.
  destruct (ascii_dec "h" c) as [<- | Hc]; [| discriminate H].
  exists s'. split; [reflexivity |]. intros ->. discriminate H.
Qed.

Lemma stripTrailingSlash_append (w : string) :
  stripTrailingSlash (w ++ "/") = w.
Proof.
  induction w as [| c w IH]; [reflexivity |].
  rewrite append_cons.
  now rewrite stripTrailingSlash_cons, IH by apply append_slash_nonempty.
Qed.

Lemma stripTrailingSlash_none (s : string) :
  endsWithSlash s = false -> stripTrailingSlash s = s.
Proof.
  induction s as [| c s IH]; [reflexivity |].
  destruct (string_dec s "") as [-> | Hs].
  - cbn. now intros ->.
  - rewrite endsWithSlash_cons, stripTrailingSlash_cons by exact Hs.
    intros H. now rewrite (IH H).
Qed.

End SlashFacts.

Section NormalizeExtras.

Context (env : Env).

Lemma updateString_self (f : string -> string) (o : object) (k : string) :
  getProp (updateString f k o) k
    = match getProp o k with VStr val => VStr (f val) | v => v end.
Proof.
  unfold updateString. destruct (getProp o k) eqn:E; rewrite ?E; try reflexivity.
  apply getProp_insert_eq.
Qed.

Lemma normalizeConfig_strings (config config' : object) (filepath : value) :
  normalizeConfig env config filepath = Ok config' ->
  getProp config' "publicPath"
    = getProp (updateString Str.stripDotSlash "publicPath"
                 (ensureSlash config "publicPath")) "publicPath" /\
  getProp config' "outputDir"
    = getProp (removeSlash config "outputDir") "outputDir".
Proof.
  unfold normalizeConfig.
  set (c2 := updateString Str.stripDotSlash "publicPath"
               (ensureSlash config "publicPath")).
  set (c3 := removeSlash c2 "outputDir").
  intros H.
  assert (getProp config' "publicPath" = getProp c3 "publicPath" /\
          getProp config' "outputDir" = getProp c3 "outputDir") as [Hp Ho].
  { destruct (truthy filepath && truthy (getProp c3 "pages")).
    - destruct filepath; try discriminate.
      destruct (normalizePages env _ _) as [pages' | e]; [| discriminate].
      cbn in H. injection H as <-.
      now rewrite !getProp_insert_ne.
    - now injection H as <-. }
  rewrite Hp, Ho. unfold c3, removeSlash.
  rewrite updateString_other by discriminate. split; [reflexivity |].
  rewrite !updateString_self.
  assert (getProp c2 "outputDir" = getProp config "outputDir") as ->.
  { unfold c2, ensureSlash. now rewrite !updateString_other. }
  reflexivity.
Qed.

(** X18: after [normalizeConfig], a [publicPath] that was a string is a
    string that is empty or ends with a slash; when it was an http or
    https URL, it is that URL with a slash added at the end unless it had
    one; a [publicPath] that was not a string is left as it was. *)
Theorem normalizeConfig_publicPath (config config' : object)
    (filepath : value) :
  normalizeConfig env config filepath = Ok config' ->
  (forall v, getProp config "publicPath" = VStr v ->
     exists v',
       getProp config' "publicPath" = VStr v' /\
       (v' = "" \/ Words.endsWithSlash v' = true) /\
       (Str.isHttpUrl v = true ->
        v' = if Words.endsWithSlash v then v else (v ++ "/")%string)) /\
  ((forall v, getProp config "publicPath" <> VStr v) ->
   getProp config' "publicPath" = getProp config "publicPath").
Proof.
  intros H. apply normalizeConfig_strings in H as [Hp _]. rewrite Hp.
  unfold ensureSlash. split.
  - intros v Hv.
    rewrite (updateString_string _ _ "publicPath" _
               (updateString_string _ config "publicPath" v Hv)).
    eexists. split; [reflexivity |]. split.
    + destruct (Str.isHttpUrl v) eqn:Hu.
      * destruct (SlashFacts.isHttpUrl_first v Hu) as (rest & -> & Hr).
        apply SlashFacts.stripDotSlash_ends,
          SlashFacts.addTrailingSlash_ends. discriminate.
      * destruct v as [| c v0]; [left; reflexivity |].
        apply SlashFacts.stripDotSlash_ends,
          SlashFacts.addTrailingSlash_ends.
        unfold Str.addLeadingSlash.
        destruct (Ascii.eqb c "/" || Ascii.eqb c "."); discriminate.
    + intros Hu. rewrite Hu.
      destruct (SlashFacts.isHttpUrl_first v Hu) as (rest & -> & Hr).
      rewrite SlashFacts.addTrailingSlash_spec by discriminate.
      destruct (Words.endsWithSlash (String "h" rest)); [reflexivity |].
      destruct rest; [congruence | reflexivity].
  - intros Hn. unfold updateString.
    destruct (getProp config "publicPath") eqn:E;
      rewrite ?E; try reflexivity.
    now destruct (Hn s).
Qed.

(** X19: after [normalizeConfig], an [outputDir] that was a string has
    lost one slash at its end if it had one, and only one, and is
    otherwise as it was. *)
Theorem normalizeConfig_outputDir (config config' : object)
    (filepath : value) (v : string) :
  normalizeConfig env config filepath = Ok config' ->
  getProp config "outputDir" = VStr v ->
  exists v',
    getProp config' "outputDir" = VStr v' /\
    (forall w, v = (w ++ "/")%string -> v' = w) /\
    (Words.endsWithSlash v = false -> v' = v).
Proof.
  intros H Hv. apply normalizeConfig_strings in H as [_ Ho]. rewrite Ho.
  unfold removeSlash. rewrite (updateString_string _ config "outputDir" v Hv).
  eexists. split; [reflexivity |]. split.
  - intros w ->. apply SlashFacts.stripTrailingSlash_append.
  - apply SlashFacts.stripTrailingSlash_none.
Qed.

End NormalizeExtras.

(** ** More on [loadProjectOptions] *)

Section OptionExtras.

Context (env : Env).

Lemma readConfig_state (o c : value) (s : Service) :
  (readConfig env o c s).2 = s.
Proof.
  unfold readConfig, bind, gets, lift, ret, throw.
  destruct (truthy c).
  - destruct c; try reflexivity. destruct (requireFile env s0); reflexivity.
  - cbn. destruct (findExisting env _ _); [| reflexivity].
    destruct (requireFile env s0); reflexivity.
Qed.

(** How [loadProjectOptions] goes on from what it has read: up to the
    reading, only [_initProjectOptions] and the log are written to. *)
Lemma loadProjectOptions_read (configFile : value) (s s1 : Service)
    (r : outcome (value * value)) :
  loadedConfigFile env configFile s = (r, s1) ->
  exists s2,
    log s2 = log s1 /\
    projectOptions s2 = projectOptions s /\
    _initProjectOptions s2
      = match _initProjectOptions s with
        | VObj _ =>
            VObj (defaultsDeep (_initProjectOptions s) (defaultConfig env))
        | v => v
        end /\
    loadProjectOptions env configFile s
      = match r with
        | Throw e => (Throw e, s2)
        | Ok (fileConfig, filepath) =>
            let config :=
              defaultsDeep (_initProjectOptions s) (defaultConfig env) in
            (if truthy fileConfig then
               (match fileConfig with
                | VObj _ | VArr _ =>
                    match validateOptions env fileConfig with
                    | Some e =>
                        logger (LogError (toDisplay filepath
                                          ++ ": Invalid type.")%string) ;;
                        throw (SError e)
                    | None => ret tt
                    end
                | _ =>
                    logger (LogError (toDisplay filepath ++
                                      ": Expected object type.")%string)
                end) ;;
               lift (normalizeConfig env (defaultsDeep fileConfig config)
                       filepath)
             else
               let* config := lift (normalizeConfig env config filepath) in
               storeInitProjectOptions config ;;
               ret config)%method s2
        end.
Proof.
  intros H.
  assert (keeps _initProjectOptions (resolveConfigFile env configFile) /\
          keeps cwd (resolveConfigFile env configFile) /\
          keeps projectOptions (resolveConfigFile env configFile))
    as (Hki & Hkc & Hkp).
  { unfold resolveConfigFile, logger. repeat split; keeps_field. }
  specialize (Hki s). specialize (Hkc s). specialize (Hkp s).
  unfold loadedConfigFile, bind in H.
  unfold loadProjectOptions, bind at 1.
  destruct (resolveConfigFile_cwd env configFile s) as (c' & Hc & _).
  destruct (resolveConfigFile env configFile s) as [r0 s0].
  cbn in Hc. subst r0.
  cbn in Hki, Hkc, Hkp.
  unfold bind at 1, gets at 1.
  unfold bind at 1, storeInitProjectOptions at 1, modify at 1.
  match goal with |- context [bind (readConfig env configFile c') _ ?x] =>
    set (st := x);
    assert (cwd s0 = cwd st /\ log st = log s0 /\
            projectOptions st = projectOptions s0) as (Hcwd & Hlog & Hpo)
      by (unfold st; destruct (_initProjectOptions s0); repeat split)
  end.
  pose proof (readConfig_cwd env configFile c' s0 st Hcwd) as Hr.
  pose proof (readConfig_state configFile c' s0) as Hs0.
  pose proof (readConfig_state configFile c' st) as Hst.
  rewrite H in Hr, Hs0. cbn in Hr, Hs0. subst s1.
  exists st. split; [exact Hlog |]. split; [congruence |]. split.
  { unfold st. rewrite <- Hki.
    destruct (_initProjectOptions s0) eqn:E; first [exact E | reflexivity]. }
  unfold bind at 1.
  destruct (readConfig env configFile c' st) as [r' s2]. cbn in Hr, Hst.
  subst r' s2. rewrite <- Hki.
  destruct r as [[fileConfig filepath] | e]; reflexivity.
Qed.

Lemma keeps_storeInitProjectOptions {B} (proj : Service -> B)
    (config : object) :
  (forall x s, proj (set_initProjectOptions x s) = proj s) ->
  keeps proj (storeInitProjectOptions config).
Proof.
  intros H. unfold storeInitProjectOptions. apply keeps_modify. intros s.
  destruct (_initProjectOptions s); try reflexivity. apply H.
Qed.

Lemma keeps_loadProjectOptions {B} (proj : Service -> B)
    (configFile : value) :
  (forall x s, proj (set_initProjectOptions x s) = proj s) ->
  (forall x s, proj (set_log x s) = proj s) ->
  keeps proj (loadProjectOptions env configFile).
Proof.
  intros Hi Hl.
  assert (forall e, keeps proj (logger e)) as Hlog.
  { intros e. apply keeps_modify. intros s. apply Hl. }
  assert (forall c, keeps proj (storeInitProjectOptions c)) as Hst.
  { intros c. now apply keeps_storeInitProjectOptions. }
  unfold loadProjectOptions, resolveConfigFile, readConfig.
  repeat first
    [ apply Hlog | apply Hst
    | apply keeps_ret | apply keeps_throw | apply keeps_lift
    | apply keeps_gets
    | apply keeps_bind; [| intros ?]
    | apply keeps_if
    | match goal with
      | |- keeps _ (match ?x with _ => _ end) => destruct x
      | |- keeps _ (let '(_, _) := ?x in _) => destruct x
      end ].
Qed.

(** X20: a configuration file that is named and does not exist is
    reported with a warning and then ignored: [loadProjectOptions] goes
    on as if it had been called without a file name, looking for
    [san.config.js] and [.san.config.js] in the working directory. *)
Theorem loadProjectOptions_missing_file (file : string) (s : Service) :
  file <> "" ->
  fs_existsSync env
    (if path_isAbsolute env file then file
     else path_resolve env (cwd s) file) = false ->
  loadProjectOptions env (VStr file) s
  = loadProjectOptions env VUndef
      (set_log (log s ++ [LogWarn ("config file `" ++ file
                                   ++ "` is not exists!")%string]) s).
Proof.
  intros Hf He. unfold loadProjectOptions, resolveConfigFile.
  assert (truthy (VStr file) = true) as ->
    by (destruct file; [congruence | reflexivity]).
  unfold bind at 1 2 3, gets at 1. rewrite He.
  unfold bind at 1, logger at 1, modify at 1, ret at 1.
  unfold bind at 4, ret at 2.
  reflexivity.
Qed.

(** X21: a configuration file whose export is an object that the schema
    rejects makes [loadProjectOptions] throw an [SError] with the
    validator's error, after the log has got one more entry that names the
    file; [projectOptions] is as it was. *)
Theorem loadProjectOptions_invalid_config (configFile filepath : value)
    (o : object) (e : string) (s s1 : Service) :
  loadedConfigFile env configFile s = (Ok (VObj o, filepath), s1) ->
  validateOptions env (VObj o) = Some e ->
  exists s',
    loadProjectOptions env configFile s = (Throw (SError e), s') /\
    log s' = log s1 ++ [LogError (toDisplay filepath ++ ": Invalid type.")%string] /\
    projectOptions s' = projectOptions s.
Proof.
  intros H Hv.
  destruct (loadProjectOptions_read configFile s s1 _ H)
    as (s2 & Hlog & Hpo & _ & ->).
  cbn. rewrite Hv. eexists. split; [reflexivity |]. cbn.
  now rewrite Hlog, Hpo.
Qed.

(** X22: the option object the Service was constructed with is filled in
    by [loadProjectOptions]: with a configuration file it has got the
    defaults for what it did not set, and without one it is, normalized,
    the very configuration that is returned. *)
Theorem loadProjectOptions_fills_constructor_options
    (configFile fileConfig filepath : value) (init config : object)
    (s s1 s' : Service) :
  _initProjectOptions s = VObj init ->
  loadedConfigFile env configFile s = (Ok (fileConfig, filepath), s1) ->
  loadProjectOptions env configFile s = (Ok config, s') ->
  _initProjectOptions s'
    = if truthy fileConfig
      then VObj (defaultsDeep (VObj init) (defaultConfig env))
      else VObj config.
Proof.
  intros Hi H Hr.
  destruct (loadProjectOptions_read configFile s s1 _ H)
    as (s2 & _ & _ & Hi2 & Heq).
  rewrite Hr, Hi in Heq. rewrite Hi in Hi2. cbn zeta in Heq.
  destruct (truthy fileConfig).
  - unfold bind, lift, logger, modify, throw, ret in Heq.
    destruct fileConfig;
      try (destruct (normalizeConfig env _ filepath); [| discriminate];
           injection Heq as _ ->; exact Hi2);
      (destruct (validateOptions env _); [discriminate |];
       destruct (normalizeConfig env _ filepath); [| discriminate];
       injection Heq as _ ->; exact Hi2).
  - unfold bind at 1, lift at 1 in Heq.
    destruct (normalizeConfig env _ filepath) as [c |]; [| discriminate].
    unfold bind, storeInitProjectOptions, modify, ret in Heq.
    rewrite Hi2 in Heq. now injection Heq as -> ->.
Qed.

End OptionExtras.

(** ** Environment files *)

Section EnvExtras.

Context (files : EnvFiles).

Lemma setIfEmpty_other (k0 d k : string) (e : gmap string string) :
  k <> k0 -> setIfEmpty k0 d e !! k = e !! k.
Proof.
  intros H. unfold setIfEmpty.
  destruct (e !! k0) as [[| c v] |]; try reflexivity;
    now rewrite lookup_insert_ne.
Qed.

Lemma setIfEmpty_set (k0 d v : string) (e : gmap string string) :
  e !! k0 = Some v -> v <> "" -> setIfEmpty k0 d e = e.
Proof.
  intros H Hv. unfold setIfEmpty. rewrite H. destruct v; congruence.
Qed.

Lemma setIfEmpty_same (k0 d : string) (e : gmap string string) :
  setIfEmpty k0 d e !! k0
    = match e !! k0 with
      | Some (String c v) => Some (String c v)
      | _ => Some d
      end.
Proof.
  unfold setIfEmpty.
  destruct (e !! k0) as [[| c v] |] eqn:E; rewrite ?E; try reflexivity;
    apply lookup_insert_eq.
Qed.

Lemma setIfEmpty_keeps (k0 d k v : string) (e : gmap string string) :
  e !! k = Some v -> v <> "" \/ k <> k0 -> setIfEmpty k0 d e !! k = Some v.
Proof.
  intros H Hv. destruct (decide (k = k0)) as [-> | Hk].
  - destruct Hv as [Hv | Hv]; [| congruence].
    now rewrite (setIfEmpty_set k0 d v e H Hv).
  - now rewrite setIfEmpty_other.
Qed.

Lemma defaultNodeEnv_nonempty (mode : value) : defaultNodeEnv mode <> "".
Proof.
  unfold defaultNodeEnv. destruct mode; try discriminate.
  destruct (String.eqb s "production") eqn:E; [| discriminate].
  apply String.eqb_eq in E. now subst.
Qed.

(** X23: [loadEnv] never changes a variable that [process.env] has, except
    that [NODE_ENV] and [BABEL_ENV] are given a value when theirs is
    empty: the environment files only add variables. *)
Theorem loadEnv_keeps_process_env (cwd : string) (mode : value)
    (env : gmap string string) (k v : string) :
  env !! k = Some v ->
  v <> "" \/ (k <> "NODE_ENV" /\ k <> "BABEL_ENV") ->
  (loadEnv files cwd mode env).1 !! k = Some v.
Proof.
  intros H Hv. unfold loadEnv.
  destruct (findExistingPath files _) as [[| c envPath] |]; try exact H.
  destruct (loadEnvFile files _) as [localEnv log1].
  destruct (loadEnvFile files _) as [defaultEnv log2].
  cbn [fst].
  assert ((env ∪ (localEnv ∪ defaultEnv)) !! k = Some v) as Hu
    by now apply lookup_union_Some_l.
  destruct (truthy mode); [| exact Hu].
  apply setIfEmpty_keeps; [apply setIfEmpty_keeps |]; try exact Hu;
    destruct Hv as [Hv | [H1 H2]]; auto.
Qed.

(** X24: of a variable that [process.env] does not have, the value in the
    [.local] file of the mode wins over the value in the environment file
    of the mode itself. *)
Theorem loadEnv_local_over_default (cwd : string) (mode : value)
    (env vars : gmap string string) (envPath k v : string) :
  findExistingPath files [path_join files cwd (modeEnvName mode)]
    = Some envPath ->
  envPath <> "" ->
  readEnv files (envPath ++ ".local") = EnvParsed vars ->
  vars !! k = Some v ->
  env !! k = None ->
  v <> "" ->
  (loadEnv files cwd mode env).1 !! k = Some v.
Proof.
  intros Hf Hp Hr Hk He Hv. unfold loadEnv. rewrite Hf.
  destruct envPath as [| c p]; [congruence |].
  unfold loadEnvFile at 1. rewrite Hr.
  destruct (loadEnvFile files _) as [defaultEnv log2].
  cbn [fst].
  assert ((env ∪ (vars ∪ defaultEnv)) !! k = Some v) as Hu.
  { rewrite lookup_union_r by exact He. now apply lookup_union_Some_l. }
  destruct (truthy mode); [| exact Hu].
  apply setIfEmpty_keeps; [apply setIfEmpty_keeps |]; auto.
Qed.

(** X25: [NODE_ENV] and [BABEL_ENV] are given a value only when the mode
    is truthy and its environment file exists. They are then never empty
    afterwards, and a variable that was empty in [process.env] has the
    default, [production] for the mode [production] and [development]
    for every other mode, whatever the environment files say. Without
    the file [loadEnv] does nothing at all. *)
Theorem loadEnv_node_env (cwd : string) (mode : value)
    (env : gmap string string) :
  let found :=
    findExistingPath files [path_join files cwd (modeEnvName mode)] in
  (found = None -> loadEnv files cwd mode env = (env, [])) /\
  (forall envPath k,
     found = Some envPath -> envPath <> "" -> truthy mode = true ->
     k = "NODE_ENV" \/ k = "BABEL_ENV" ->
     exists v,
       (loadEnv files cwd mode env).1 !! k = Some v /\ v <> "" /\
       (env !! k = Some "" ->
        (mode = VStr "production" -> v = "production") /\
        (mode <> VStr "production" -> v = "development"))).
Proof.
  intros found. split.
  - unfold loadEnv. fold found. now intros ->.
  - intros envPath k Hf Hp Hm Hk. unfold loadEnv. fold found. rewrite Hf.
    destruct envPath as [| c p]; [congruence |].
    destruct (loadEnvFile files _) as [localEnv log1].
    destruct (loadEnvFile files _) as [defaultEnv log2].
    rewrite Hm. cbn [fst].
    set (e := env ∪ (localEnv ∪ defaultEnv)).
    assert ((mode = VStr "production" -> defaultNodeEnv mode = "production") /\
            (mode <> VStr "production" ->
             defaultNodeEnv mode = "development")) as Hd.
    { split; [now intros -> |]. intros Hne.
      unfold defaultNodeEnv. destruct mode; try reflexivity.
      destruct (String.eqb s "production") eqn:E; [| reflexivity].
      apply String.eqb_eq in E. congruence. }
    assert (forall x, env !! x = Some "" -> e !! x = Some "") as He
      by (intros x Hx; now apply lookup_union_Some_l).
    pose proof (defaultNodeEnv_nonempty mode) as Hn.
    destruct Hk as [-> | ->].
    + rewrite setIfEmpty_other by discriminate.
      rewrite setIfEmpty_same.
      destruct (e !! "NODE_ENV") as [[| c0 v0] |] eqn:E.
      * eexists. split; [reflexivity |]. split; [exact Hn |].
        intros _. exact Hd.
      * eexists. split; [reflexivity |]. split; [discriminate |].
        intros Hx. apply He in Hx. congruence.
      * eexists. split; [reflexivity |]. split; [exact Hn |].
        intros _. exact Hd.
    + rewrite setIfEmpty_same.
      rewrite setIfEmpty_other by discriminate.
      destruct (e !! "BABEL_ENV") as [[| c0 v0] |] eqn:E.
      * eexists. split; [reflexivity |]. split; [exact Hn |].
        intros _. exact Hd.
      * eexists. split; [reflexivity |]. split; [discriminate |].
        intros Hx. apply He in Hx. congruence.
      * eexists. split; [reflexivity |]. split; [exact Hn |].
        intros _. exact Hd.
Qed.

End EnvExtras.

(** ** The run sequence *)

Section RunExtras.

Context (env : Env) (host : RunHost).

(** What [loadProjectOptions] returns or throws does not depend on the
    log. *)
Lemma loadProjectOptions_log (l : list LogEntry) (c : value) (s : Service) :
  (loadProjectOptions env c (set_log l s)).1 = (loadProjectOptions env c s).1.
Proof.
  unfold loadProjectOptions, resolveConfigFile, readConfig,
    storeInitProjectOptions, bind, gets, lift, logger, modify, ret, throw.
  destruct s. cbn.
  repeat match goal with
         | |- context [match ?x with _ => _ end] =>
             lazymatch x with
             | context [match _ with _ => _ end] => fail
             | _ => destruct x eqn:?; cbn
             end
         end; try reflexivity; try congruence.
Qed.

Lemma keeps_addPlugin {B} (proj : Service -> B) (name : PluginSpec)
    (options : value) :
  untouchedByPlugins proj -> keeps proj (addPlugin env name options).
Proof. intros H. exact (keeps_apiCall env proj (CallAddPlugin name options) H). Qed.

Lemma keeps_runCommand {B} (proj : Service -> B) (cmd : string)
    (rawArgs : list string) :
  (forall x s, proj (set_log x s) = proj s) ->
  (forall x s, proj (set_registeredCommandFlags x s) = proj s) ->
  (forall x s, proj (set_cliCommands x s) = proj s) ->
  (forall x s, proj (set_cliParsed x s) = proj s) ->
  keeps proj (runCommand env cmd rawArgs).
Proof.
  intros H1 H2 H3 H4. unfold runCommand, logger.
  keeps_field; apply keeps_modify; auto.
Qed.

Lemma keeps_init {B} (proj : Service -> B) (mode0 : value) :
  untouchedByPlugins proj ->
  (forall x s, proj (set_applied x s) = proj s) ->
  (forall x s, proj (set_initialized x s) = proj s) ->
  (forall x s, proj (set_mode x s) = proj s) ->
  keeps proj (init env mode0).
Proof.
  intros Hu Ha Hi Hm.
  pose proof (fun e => keeps_initPlugin env proj e Hu Ha) as Hp.
  destruct Hu as (H1 & H2 & H3 & H4 & H5 & H6 & H7 & H8).
  unfold init. keeps_field; auto; apply keeps_modify; auto.
Qed.

Lemma init_mode (mode0 : value) (s : Service) :
  initialized s = false -> mode (init env mode0 s).2 = mode0.
Proof.
  intros Hi. rewrite (init_first env mode0 s Hi).
  match goal with |- mode (?m ?s0).2 = _ =>
    assert (keeps mode m) as Hk
  end.
  { pose proof (fun e => keeps_initPlugin env mode e untouched_mode
                           (fun _ _ => eq_refl)) as Hp.
    keeps_field; auto. }
  now rewrite Hk.
Qed.

Lemma keeps_result {A B} (proj : Service -> B) (m : M A) (s s' : Service)
    (r : outcome A) :
  keeps proj m -> m s = (r, s') -> proj s' = proj s.
Proof. intros Hk H. specialize (Hk s). now rewrite H in Hk. Qed.

(** The steps of a [run] that returns. *)
Lemma run_inv (cmd : string) (argv : Argv) (rawArgv : list string)
    (rt rt' : Runtime) :
  run env host cmd argv rawArgv rt = (Ok tt, rt') ->
  exists envLog options s1 s3 s4 s5,
    loadProjectOptions env (argv_configFile argv)
      (set_log (log (service rt) ++ envLog) (service rt))
      = (Ok options, s1) /\
    match getProp options "plugins" with
    | VArr ps => forEach (fun p => addPlugin env (Single p) VUndef) ps
    | _ => ret tt
    end (set_projectOptions (VObj options) s1) = (Ok tt, s3) /\
    (if truthy (argv_noProgress argv) then ret tt
     else addPlugin env (Single (progressPlugin host))
            (VObj {[ "name" := VStr cmd ]})) s3 = (Ok tt, s4) /\
    init env (runMode cmd argv) s4 = (Ok tt, s5) /\
    runCommand env cmd rawArgv s5 = (Ok tt, service rt').
Proof.
  unfold run. destruct (loadEnv _ _ _ _) as [penv envLog].
  destruct (runService _ _ _ _ _ _ _) as [r s'] eqn:Hr.
  intros [= -> <-]. cbn [service].
  unfold runService in Hr. unfold bind at 1 in Hr.
  destruct (loadProjectOptions env _ _) as [[options | e] s1] eqn:H1;
    [| discriminate].
  unfold bind at 1, modify at 1 in Hr. unfold bind at 1 in Hr.
  match type of Hr with
  | context [match ?m (set_projectOptions _ s1) with _ => _ end] =>
      destruct (m (set_projectOptions (VObj options) s1))
        as [[[] | e] s3] eqn:H3; [| discriminate]
  end.
  unfold bind at 1 in Hr.
  match type of Hr with
  | context [match ?m s3 with _ => _ end] =>
      destruct (m s3) as [[[] | e] s4] eqn:H4; [| discriminate]
  end.
  unfold bind at 1 in Hr.
  destruct (init env _ s4) as [[[] | e] s5] eqn:H5; [| discriminate].
  exists envLog, options, s1, s3, s4, s5. repeat split; assumption.
Qed.

(** What [run] leaves alone up to the call of [init]. *)
Lemma run_keeps_until_init {B} (proj : Service -> B) (cmd : string)
    (argv : Argv) (envLog : list LogEntry) (options : object)
    (s s1 s3 s4 : Service) :
  untouchedByPlugins proj ->
  (forall x s, proj (set_initProjectOptions x s) = proj s) ->
  loadProjectOptions env (argv_configFile argv)
    (set_log (log s ++ envLog) s) = (Ok options, s1) ->
  match getProp options "plugins" with
  | VArr ps => forEach (fun p => addPlugin env (Single p) VUndef) ps
  | _ => ret tt
  end (set_projectOptions (VObj options) s1) = (Ok tt, s3) ->
  (if truthy (argv_noProgress argv) then ret tt
   else addPlugin env (Single (progressPlugin host))
          (VObj {[ "name" := VStr cmd ]})) s3 = (Ok tt, s4) ->
  proj s4 = proj (set_projectOptions (VObj options) s).
Proof.
  intros Hu Hi H1 H3 H4.
  pose proof Hu as (Hl & _).
  assert (proj s4 = proj s3) as ->.
  { destruct (truthy (argv_noProgress argv)).
    - now injection H4 as ->.
    - eapply keeps_result, H4. now apply keeps_addPlugin. }
  assert (proj s3 = proj (set_projectOptions (VObj options) s1)) as ->.
  { eapply keeps_result, H3.
    destruct (getProp options "plugins"); try apply keeps_ret.
    apply keeps_forEach. intros p. now apply keeps_addPlugin. }
  pose proof (keeps_result (fun s => proj (set_projectOptions (VObj options) s))
                _ _ _ _
                (keeps_loadProjectOptions env _ (argv_configFile argv)
                   (fun x s => Hi x _) (fun x s => Hl x _)) H1) as Hk.
  cbn beta in Hk. rewrite Hk. apply (Hl _ (set_projectOptions _ s)).
Qed.

(** X26: when the project options cannot be loaded, [run] is rejected
    with the error of [loadProjectOptions] and goes no further: no plugin
    has been added or applied, the Service is not initialized and nothing
    is dispatched; [version] and [__isProduction] have been set. *)
Theorem run_config_error (cmd : string) (argv : Argv)
    (rawArgv : list string) (rt : Runtime) (e : error) :
  (loadProjectOptions env (argv_configFile argv) (service rt)).1 = Throw e ->
  exists rt',
    run env host cmd argv rawArgv rt = (Throw e, rt') /\
    plugins (service rt') = plugins (service rt) /\
    projectOptions (service rt') = projectOptions (service rt) /\
    initialized (service rt') = initialized (service rt) /\
    applied (service rt') = applied (service rt) /\
    cliParsed (service rt') = cliParsed (service rt) /\
    version rt' = argv_version argv /\
    isProduction rt' = Some (isProductionMode (runMode cmd argv)).
Proof.
  intros H. unfold run. destruct (loadEnv _ _ _ _) as [penv envLog].
  set (s0 := set_log (log (service rt) ++ envLog) (service rt)).
  pose proof (loadProjectOptions_log (log (service rt) ++ envLog)
                (argv_configFile argv) (service rt)) as Hlog.
  fold s0 in Hlog. rewrite H in Hlog.
  assert (forall {B} (proj : Service -> B),
            (forall x s, proj (set_initProjectOptions x s) = proj s) ->
            (forall x s, proj (set_log x s) = proj s) ->
            proj (loadProjectOptions env (argv_configFile argv) s0).2
              = proj (service rt)) as Hk.
  { intros B proj Hi Hl.
    rewrite (keeps_loadProjectOptions env proj _ Hi Hl s0). apply Hl. }
  unfold runService, bind at 1.
  destruct (loadProjectOptions env (argv_configFile argv) s0) as [r s1].
  cbn in Hlog. subst r. eexists. split; [reflexivity |]. cbn.
  repeat split; apply Hk; reflexivity.
Qed.

(** X27: a [run] that returns on a Service that was not initialized has
    stored what [loadProjectOptions] returned for [argv.configFile] as
    [projectOptions] and has initialized the Service with the mode
    [argv.mode], or, without one, [development] for [build] with
    [argv.watch] and [production] otherwise. *)
Theorem run_initializes (cmd : string) (argv : Argv)
    (rawArgv : list string) (rt rt' : Runtime) :
  initialized (service rt) = false ->
  run env host cmd argv rawArgv rt = (Ok tt, rt') ->
  exists options,
    (loadProjectOptions env (argv_configFile argv) (service rt)).1
      = Ok options /\
    projectOptions (service rt') = VObj options /\
    initialized (service rt') = true /\
    mode (service rt')
      = jsOr (argv_mode argv)
          (if String.eqb cmd "build" && truthy (argv_watch argv)
           then VStr "development" else VStr "production").
Proof.
  intros Hi H.
  apply run_inv in H
    as (envLog & options & s1 & s3 & s4 & s5 & H1 & H3 & H4 & H5 & H6).
  exists options.
  pose proof (loadProjectOptions_log (log (service rt) ++ envLog)
                (argv_configFile argv) (service rt)) as Hlog.
  rewrite H1 in Hlog. split; [now symmetry |].
  pose proof (run_keeps_until_init initialized cmd argv envLog options
                (service rt) s1 s3 s4 untouched_initialized
                (fun _ _ => eq_refl) H1 H3 H4) as Hi4.
  pose proof (run_keeps_until_init projectOptions cmd argv envLog options
                (service rt) s1 s3 s4 untouched_projectOptions
                (fun _ _ => eq_refl) H1 H3 H4) as Hp4.
  cbn in Hi4, Hp4. rewrite Hi in Hi4.
  pose proof (init_initialized env (runMode cmd argv) s4) as Hi5.
  pose proof (init_mode (runMode cmd argv) s4 Hi4) as Hm5.
  pose proof (keeps_result projectOptions _ _ _ _
                (keeps_init projectOptions (runMode cmd argv)
                   untouched_projectOptions (fun _ _ => eq_refl)
                   (fun _ _ => eq_refl) (fun _ _ => eq_refl)) H5) as Hp5.
  rewrite H5 in Hi5, Hm5. cbn in Hi5, Hm5.
  assert (forall {B} (proj : Service -> B),
            (forall x s, proj (set_log x s) = proj s) ->
            (forall x s, proj (set_registeredCommandFlags x s) = proj s) ->
            (forall x s, proj (set_cliCommands x s) = proj s) ->
            (forall x s, proj (set_cliParsed x s) = proj s) ->
            proj (service rt') = proj s5) as Hk.
  { intros B proj Ha Hb Hc Hd. eapply keeps_result, H6.
    now apply keeps_runCommand. }
  rewrite (Hk _ projectOptions), (Hk _ initialized), (Hk _ mode)
    by reflexivity.
  split; [congruence |]. split; [exact Hi5 | exact Hm5].
Qed.

(** X28: unless [argv.noProgress] is truthy, the progress plugin is the
    last plugin that a [run] applies, after the plugins of the Service
    and those of the project options: the last application has the
    options [{name: cmd}] and the project options just loaded, and calls
    the [apply] of the progress plugin when that is an object. (A
    progress plugin that is an array has been taken apart by [addPlugin]:
    its options are then its own second element, if that is truthy, and
    else an empty object.) *)
Theorem run_progress_plugin_last (cmd : string) (argv : Argv)
    (rawArgv : list string) (rt rt' : Runtime) :
  initialized (service rt) = false ->
  truthy (argv_noProgress argv) = false ->
  run env host cmd argv rawArgv rt = (Ok tt, rt') ->
  exists apps a,
    applied (service rt') = applied (service rt) ++ apps ++ [a] /\
    app_options a
      = match progressPlugin host with
        | VArr l => jsOr (default VUndef (l !! 1)) (VObj ∅)
        | _ => VObj {[ "name" := VStr cmd ]}
        end /\
    app_projectOptions a = projectOptions (service rt') /\
    (forall o, progressPlugin host = VObj o ->
               getProp o "apply" = VFun (app_fn a)).
Proof.
  intros Hi Hn H.
  apply run_inv in H
    as (envLog & options & s1 & s3 & s4 & s5 & H1 & H3 & H4 & H5 & H6).
  pose proof (run_keeps_until_init initialized cmd argv envLog options
                (service rt) s1 s3 s4 untouched_initialized
                (fun _ _ => eq_refl) H1 H3 H4) as Hi4.
  pose proof (run_keeps_until_init projectOptions cmd argv envLog options
                (service rt) s1 s3 s4 untouched_projectOptions
                (fun _ _ => eq_refl) H1 H3 H4) as Hp4.
  pose proof (run_keeps_until_init applied cmd argv envLog options
                (service rt) s1 s3 s4 untouched_applied
                (fun _ _ => eq_refl) H1 H3 H4) as Ha4.
  cbn in Hi4, Hp4, Ha4. rewrite Hi in Hi4.
  rewrite Hn in H4.
  apply addPlugin_entry in H4 as (entry & Hl & Hps & _).
  pose proof (fun o => loadPlugin_object env o
                          (VObj {[ "name" := VStr cmd ]}) s3 entry eq_refl)
    as Hobj.
  assert (entry = EntryValue VUndef \/
          entryOptions entry
            = match progressPlugin host with
              | VArr l => jsOr (default VUndef (l !! 1)) (VObj ∅)
              | _ => VObj {[ "name" := VStr cmd ]}
              end) as Hopt.
  { destruct (progressPlugin host) as [| | | | | | | l];
      try (now apply loadPlugin_options in Hl).
    apply loadPlugin_loaded in Hl as [-> | [o' ->]]; [now left | right].
    cbn [addedParts snd]. unfold loadedEntry, jsOr.
    destruct (default VUndef (l !! 1)) as [| | b | n | t | f | o | l'];
      first [reflexivity | idtac].
    all: match goal with
         | |- context [truthy ?v] => destruct (truthy v) eqn:?
         end; reflexivity. }
  pose proof (keeps_result projectOptions _ _ _ _
                (keeps_init projectOptions (runMode cmd argv)
                   untouched_projectOptions (fun _ _ => eq_refl)
                   (fun _ _ => eq_refl) (fun _ _ => eq_refl)) H5) as Hp5.
  apply (init_applications env _ _ _ Hi4) in H5 as (apps' & Happ & Hall).
  rewrite Hps in Hall.
  apply Forall2_app_inv_l in Hall as (apps & last & _ & Hlast & ->).
  inversion Hlast as [| e a l1 l2 (Hf & Ho & Hpo) Hnil]; subst.
  inversion Hnil; subst.
  exists apps, a.
  assert (applied (service rt') = applied s5 /\
          projectOptions (service rt') = projectOptions s5) as [-> ->].
  { split; (eapply keeps_result; [| exact H6]);
      apply keeps_runCommand; reflexivity. }
  split; [congruence |]. split; [| split; [congruence |]].
  - rewrite Ho. destruct Hopt as [-> | Hopt]; [discriminate Hf | exact Hopt].
  - intros o Hp. rewrite Hp in Hl.
    destruct (Hobj o Hl) as [-> | ->]; [discriminate Hf |].
    revert Hf. unfold entryFunction. cbn.
    destruct (getProp o "apply"); congruence.
Qed.

End RunExtras.

(** ** Rule names *)

Section RuleExtras.

(** Induction on a rule with its [oneOf] rules as hypotheses. *)
Lemma rule_ind (P : Rule -> Prop) :
  (forall names oneOf,
     match oneOf with
     | Some ts => Forall (fun t0 => forall t1, t0 = Some t1 -> P t1) ts
     | None => True
     end ->
     P (mkRule names oneOf)) ->
  forall r, P r.
Proof.
  intros H. fix IH 1. intros [names [ts |]]; apply H; [| exact I].
  induction ts as [| [t1 |] ts IHts]; constructor; try exact IHts.
  - intros t [= <-]. apply IH.
  - intros t [=].
Qed.

(** The loop inside [cloneRule] is the loop of [cloneRuleNames]. *)
Lemma cloneRule_eq (rnames tnames : option (option nat))
    (roneOf toneOf : option (list (option Rule))) :
  cloneRule (mkRule rnames roneOf) (mkRule tnames toneOf)
    = obind (defineRuleNames tnames (default None rnames)) (fun tnames' =>
      obind (cloneRuleNames toneOf roneOf) (fun toneOf' =>
      Ok (mkRule tnames' toneOf'))).
Proof. reflexivity. Qed.

Lemma shapeOf_eq (names : option (option nat))
    (oneOf : option (list (option Rule))) :
  shapeOf (mkRule names oneOf) = mkRule None (option_map shapesOf oneOf).
Proof. reflexivity. Qed.

Lemma allNamed_eq (names : option (option nat))
    (oneOf : option (list (option Rule))) :
  allNamed (mkRule names oneOf)
    = match names with
      | None => false
      | Some _ => match oneOf with
                  | None => true
                  | Some ts => allNamedRules ts
                  end
      end.
Proof. reflexivity. Qed.

Lemma defineRuleNames_again (names names' : option (option nat))
    (v : option nat) :
  defineRuleNames names v = Ok names' -> defineRuleNames names' v = Ok names'.
Proof.
  unfold defineRuleNames. destruct names as [w |].
  - destruct (decide (w = v)) as [-> |]; [| discriminate].
    intros [= <-]. now rewrite decide_True.
  - intros [= <-]. now rewrite decide_True.
Qed.

Lemma cloneRules_copy (rs extra : list (option Rule)) :
  Forall (fun r0 => forall r1, r0 = Some r1 ->
            allNamed r1 = true -> cloneRule r1 (shapeOf r1) = Ok r1) rs ->
  allNamedRules rs = true ->
  cloneRules rs (shapesOf rs ++ extra) = Ok (rs ++ extra).
Proof.
  induction 1 as [| r0 rs Hr _ IH]; [reflexivity |].
  cbn [allNamedRules forallb]. intros [H0 Hrs]%andb_true_iff.
  cbn [shapesOf map app cloneRules]. fold (shapesOf rs).
  rewrite (IH Hrs).
  destruct r0 as [r1 |]; [| reflexivity].
  cbn [option_map]. now rewrite (Hr r1 eq_refl H0).
Qed.

Lemma cloneRule_copy (r : Rule) :
  allNamed r = true -> cloneRule r (shapeOf r) = Ok r.
Proof.
  induction r as [names oneOf IH] using rule_ind.
  rewrite allNamed_eq, shapeOf_eq, cloneRule_eq.
  destruct names as [v |]; [| discriminate].
  destruct oneOf as [rs |]; [| reflexivity].
  intros Hn. cbn [default from_option id defineRuleNames obind option_map
                  cloneRuleNames].
  rewrite <- (app_nil_r (shapesOf rs)).
  rewrite (cloneRules_copy rs []); [now rewrite app_nil_r | | exact Hn].
  eapply Forall_impl; [exact IH |]. cbn. auto.
Qed.

(** X29: called on a copy of the rules that has lost every [__ruleNames],
    as the merged configuration has, with rules added behind it,
    [cloneRuleNames] gives every rule at every depth the names of the
    rule it was copied from, does not throw, and leaves the added rules
    as they are. *)
Theorem cloneRuleNames_restores (rs extra : list (option Rule)) :
  allNamedRules rs = true ->
  cloneRuleNames (Some (shapesOf rs ++ extra)) (Some rs)
    = Ok (Some (rs ++ extra)).
Proof.
  intros H. unfold cloneRuleNames.
  rewrite cloneRules_copy; [reflexivity | | exact H].
  apply Forall_forall. intros r0 _ r1 _. apply cloneRule_copy.
Qed.

Lemma cloneRules_again (rs : list (option Rule)) :
  Forall (fun r0 => forall r1, r0 = Some r1 ->
            forall t t', cloneRule r1 t = Ok t' ->
              cloneRule r1 t' = Ok t' /\ shapeOf t' = shapeOf t) rs ->
  forall ts ts', cloneRules rs ts = Ok ts' ->
    cloneRules rs ts' = Ok ts' /\ shapesOf ts' = shapesOf ts.
Proof.
  induction 1 as [| r0 rs Hr _ IH]; intros ts ts'.
  - cbn. now intros [= <-].
  - destruct ts as [| t0 ts]; cbn [cloneRules].
    + now intros [= <-].
    + destruct t0 as [t1 |].
      * destruct r0 as [r1 |]; [| discriminate].
        destruct (cloneRule r1 t1) as [t1' |] eqn:H1; [| discriminate].
        cbn [obind].
        destruct (cloneRules rs ts) as [ts'' |] eqn:H2; [| discriminate].
        intros [= <-]. cbn [cloneRules obind].
        destruct (Hr r1 eq_refl t1 t1' H1) as [-> Hs1].
        destruct (IH ts ts'' H2) as [-> Hs2]. cbn [obind].
        split; [reflexivity |]. cbn [shapesOf map option_map].
        fold (shapesOf ts'') (shapesOf ts). now rewrite Hs1, Hs2.
      * cbn [obind].
        destruct (cloneRules rs ts) as [ts'' |] eqn:H2; [| discriminate].
        intros [= <-]. cbn [cloneRules obind].
        destruct (IH ts ts'' H2) as [-> Hs2]. cbn [obind].
        split; [reflexivity |]. cbn [shapesOf map option_map].
        fold (shapesOf ts'') (shapesOf ts). now rewrite Hs2.
Qed.

Lemma cloneRule_again (r t t' : Rule) :
  cloneRule r t = Ok t' ->
  cloneRule r t' = Ok t' /\ shapeOf t' = shapeOf t.
Proof.
  revert t t'. induction r as [rnames roneOf IH] using rule_ind.
  intros [tnames toneOf] t'. rewrite cloneRule_eq.
  destruct (defineRuleNames tnames _) as [tnames' |] eqn:Hd;
    [| discriminate].
  cbn [obind].
  destruct (cloneRuleNames toneOf roneOf) as [toneOf' |] eqn:Hc;
    [| discriminate].
  intros [= <-]. rewrite cloneRule_eq, (defineRuleNames_again _ _ _ Hd).
  cbn [obind]. rewrite !shapeOf_eq.
  unfold cloneRuleNames in *.
  destruct toneOf as [ts |]; [| injection Hc as <-; now split].
  destruct roneOf as [rs |]; [| injection Hc as <-; now split].
  destruct (cloneRules rs ts) as [ts' |] eqn:H; [| discriminate].
  injection Hc as <-.
  destruct (cloneRules_again rs IH ts ts' H) as [-> Hs].
  cbn [obind option_map]. now rewrite Hs.
Qed.

(** X30: a [cloneRuleNames] that returns has changed nothing but
    [__ruleNames]: the rules, their [oneOf] and their number are the
    same; and calling it again with the same rules to copy from returns
    and changes nothing. *)
Theorem cloneRuleNames_again (to from to' : option (list (option Rule))) :
  cloneRuleNames to from = Ok to' ->
  cloneRuleNames to' from = Ok to' /\
  option_map shapesOf to' = option_map shapesOf to.
Proof.
  unfold cloneRuleNames.
  destruct to as [ts |]; [| intros [= <-]; now split].
  destruct from as [rs |]; [| intros [= <-]; now split].
  destruct (cloneRules rs ts) as [ts' |] eqn:H; [| discriminate].
  intros [= <-].
  destruct (cloneRules_again rs) with (ts := ts) (ts' := ts') as [-> Hs];
    [| exact H |].
  - apply Forall_forall. intros r0 _ r1 _. apply cloneRule_again.
  - cbn. now rewrite Hs.
Qed.

End RuleExtras.

(** ** The properties above on the small project *)

Lemma registerCommandFlag_merges_witness :
  let k := getCommandName "serve" in
  (forall name,
     default ∅ (registeredCommandFlags Example.withServe !! k) !! name
       = match ownProps Example.portFlag !! name with
         | Some spec => Some spec
         | None =>
             default ∅ (registeredCommandFlags Scenario.onlyServe !! k)
               !! name
         end) /\
  registeredCommandHandlers Example.withServe !! k
    = Some (default [] (registeredCommandHandlers Scenario.onlyServe !! k)
              ++ [VFun 11]) /\
  (forall k', k' <> k ->
     registeredCommandFlags Example.withServe !! k'
       = registeredCommandFlags Scenario.onlyServe !! k' /\
     registeredCommandHandlers Example.withServe !! k'
       = registeredCommandHandlers Scenario.onlyServe !! k') /\
  registeredCommands Example.withServe
    = registeredCommands Scenario.onlyServe /\
  cliCommands Example.withServe = cliCommands Scenario.onlyServe.
Proof.
  apply (registerCommandFlag_merges Example.host "serve" Example.portFlag
           (VFun 11) Scenario.onlyServe Example.withServe).
  vm_compute. reflexivity.
Defined.

Lemma registerCommand_empty_handler_witness :
  exists d m s'',
    registeredCommands Scenario.withLint !! "lint" = Some d /\
    handler d = EmptyHandler Scenario.lintModule /\
    runCommand Example.host "lint" [] Scenario.withLint = (Ok tt, s'') /\
    cliCommands s'' = cliCommands Scenario.withLint ++ [m] /\
    composedHandler Example.host s'' m (VObj ∅)
      = ([Called (UserHandler 11) (VObj ∅);
          Called (EmptyHandler Scenario.lintModule) (VObj ∅);
          Warned "[object Object] has an empty handler."],
         Ok tt).
Proof.
  destruct (registerCommand_empty_handler Example.host Scenario.lintModule
              VUndef VUndef (VObj ∅) Scenario.lintFlagged Scenario.withLint)
    as (k & d & Hk & Hd & Hreg & Hrun & _).
  - vm_compute. reflexivity.
  - left. split; reflexivity.
  - reflexivity.
  - assert (is_Some (registeredCommands Scenario.withLint !! "lint"))
      as [d' Hlint] by (vm_compute; eexists; reflexivity).
    rewrite Hreg in Hlint. apply lookup_insert_Some in Hlint
      as [[-> _] | [_ Hlint]]; [| discriminate Hlint].
    destruct (Hrun []) as (m & s'' & H1 & H2 & H3).
    assert (capturedHandlers s'' m = [VFun 11]) as Hcap.
    { pose proof (f_equal snd H1) as Hs. cbn in Hs. subst s''.
      pose proof (f_equal last H2) as Hm. rewrite last_snoc in Hm.
      vm_compute in Hm. injection Hm as <-. vm_compute. reflexivity. }
    exists d, m, s''. split; [exact Hk |]. split; [exact Hd |].
    split; [exact H1 |]. split; [exact H2 |].
    rewrite H3; rewrite Hcap.
    + reflexivity.
    + intros f Hf. apply elem_of_cons in Hf as [-> | Hf]; [| inversion Hf].
      exists VUndef. split; [reflexivity | discriminate].
Defined.

Lemma runCommand_parsed_args_witness :
  exists parsed,
    cliParsed (runCommand Example.host "serve" ["--port"; "8899"]
                 Example.withServe).2
      = cliParsed Example.withServe ++ [parsed] /\
    head parsed = Some "serve" /\
    (head ["--port"; "8899"] = Some "serve" -> parsed = ["--port"; "8899"]) /\
    (head ["--port"; "8899"] <> Some "serve" ->
     parsed = "serve" :: ["--port"; "8899"]).
Proof.
  apply (runCommand_parsed_args Example.host "serve" ["--port"; "8899"]
           Example.serveDescriptor Example.withServe).
  vm_compute. reflexivity.
Defined.

Lemma prehandler_exception_propagates_witness :
  composedHandler Scenario.lenient Scenario.withThrowing Example.serveCli
    (VObj ∅)
  = (calls ([11] ++ [14]) (VObj ∅), Throw (Thrown (VStr "port in use"))).
Proof.
  apply (prehandler_exception_propagates Scenario.lenient
           Scenario.withThrowing Example.serveCli (VObj ∅) [11] 14 [13]).
  - vm_compute. reflexivity.
  - intros g Hg. apply elem_of_cons in Hg as [-> | Hg]; [| inversion Hg].
    exists VUndef. split; [reflexivity | discriminate].
  - reflexivity.
Defined.

Lemma late_flag_registration_witness :
  exists m,
    cliCommands Scenario.lateFlag = cliCommands Scenario.onlyServe ++ [m] /\
    (forall hs, registeredCommandHandlers Scenario.onlyServe !! "serve"
                  = Some hs ->
                capturedHandlers Scenario.lateFlag m = hs ++ [VFun 11]) /\
    (registeredCommandHandlers Scenario.onlyServe !! "serve" = None ->
     capturedHandlers Scenario.lateFlag m = [] /\
     registeredCommandHandlers Scenario.lateFlag !! "serve"
       = Some [VFun 11]) /\
    (forall flags, registeredCommandFlags Scenario.onlyServe !! "serve"
                     = Some flags ->
       builderOf Scenario.lateFlag m
         = objectAssign
             (objectAssign flags
                (ownProps (builder Example.serveDescriptor)))
             (ownProps Example.portFlag)) /\
    (registeredCommandFlags Scenario.onlyServe !! "serve" = None ->
     builderOf Scenario.lateFlag m
       = objectAssign ∅ (ownProps (builder Example.serveDescriptor))).
Proof.
  apply (late_flag_registration Example.host "serve" "serve" []
           Example.serveDescriptor Example.portFlag (VFun 11)
           Scenario.onlyServe Scenario.lateFlag).
  - vm_compute. reflexivity.
  - vm_compute. reflexivity.
  - vm_compute. reflexivity.
Defined.

Lemma resolvePlugins_shape_witness :
  exists loaded,
    Scenario.resolved
      = (if true
         then (fun id => EntryValue (requireBuiltIn Example.host id)) <$>
                ["base"; "css"; "app"; "optimization"; "babel"]
         else []) ++ loaded /\
    length loaded
      = length [Single Example.goodPlugin; Single (VStr "missing-plugin")].
Proof.
  apply (resolvePlugins_shape Example.host
           [Single Example.goodPlugin; Single (VStr "missing-plugin")] true
           Scenario.resolved Example.bare
           (Example.after
              (resolvePlugins Example.host
                 [Single Example.goodPlugin; Single (VStr "missing-plugin")]
                 true) Example.bare)).
  vm_compute. reflexivity.
Defined.

Lemma resolvePlugins_nullish_specifier_witness :
  (resolvePlugins Example.host
     [Single Example.goodPlugin; Pair VNull (VObj ∅)] false Example.bare).1
  = Throw TypeError.
Proof.
  apply (resolvePlugins_nullish_specifier Example.host
           [Single Example.goodPlugin; Pair VNull (VObj ∅)]
           (Pair VNull (VObj ∅)) false Example.bare).
  - apply elem_of_cons. right. apply elem_of_cons. left. reflexivity.
  - right. reflexivity.
Defined.

Lemma addPlugin_appends_one_witness :
  exists entry,
    plugins (Scenario.withPlugin VUndef) = plugins Example.bare ++ [entry] /\
    (entry = EntryValue VUndef \/ is_Some (entryFunction entry)) /\
    withoutLog (Scenario.withPlugin VUndef)
      = withoutLog (set_plugins (plugins Example.bare ++ [entry])
                      Example.bare).
Proof.
  apply (addPlugin_appends_one Example.host (Single Example.goodPlugin)
           VUndef Example.bare (Scenario.withPlugin VUndef)).
  vm_compute. reflexivity.
Defined.

Lemma init_applies_plugins_in_order_witness :
  exists apps,
    applied Scenario.ready
      = applied (Scenario.withPlugin (VObj Example.defaults)) ++ apps /\
    Forall2 (fun e a => entryFunction e = Some (app_fn a) /\
                        app_options a = entryOptions e /\
                        app_projectOptions a
                          = projectOptions
                              (Scenario.withPlugin (VObj Example.defaults)))
      (plugins (Scenario.withPlugin (VObj Example.defaults))) apps.
Proof.
  apply (init_applies_plugins_in_order Example.host (VStr "production")
           (Scenario.withPlugin (VObj Example.defaults))
           Scenario.ready).
  - reflexivity.
  - vm_compute. reflexivity.
Defined.

Lemma init_without_projectOptions_witness :
  exists e,
    (init Example.host (VStr "production") Example.bare).1 = Throw e /\
    initialized (init Example.host (VStr "production") Example.bare).2
      = true /\
    init Example.host (VStr "development")
      (init Example.host (VStr "production") Example.bare).2
    = (Ok tt, (init Example.host (VStr "production") Example.bare).2).
Proof.
  apply (init_without_projectOptions Example.host (VStr "production")
           (VStr "development") Example.bare).
  - reflexivity.
  - left. reflexivity.
Defined.

Lemma init_project_mutators_last_witness :
  (truthy (getProp Scenario.chained "chainWebpack") = true ->
   exists fns,
     webpackChainFns Scenario.chainedService
       = fns ++ [getProp Scenario.chained "chainWebpack"] /\
     webpackChainFns (Scenario.withPlugin (VObj Scenario.chained))
       `prefix_of` fns) /\
  (truthy (getProp Scenario.chained "configWebpack") = true ->
   exists fns,
     webpackRawConfigFns Scenario.chainedService
       = fns ++ [getProp Scenario.chained "configWebpack"] /\
     webpackRawConfigFns (Scenario.withPlugin (VObj Scenario.chained))
       `prefix_of` fns).
Proof.
  apply (init_project_mutators_last Example.host (VStr "production")
           (Scenario.withPlugin (VObj Scenario.chained))
           Scenario.chainedService Scenario.chained).
  - reflexivity.
  - reflexivity.
  - vm_compute. reflexivity.
Defined.

Lemma getWebpackChainConfig_non_function_witness :
  (exists e,
     getWebpackChainConfig Example.host Scenario.chainedService
       = (Throw e, Scenario.chainedService)) /\
  (exists e,
     getWebpackConfig Example.host None Scenario.chainedService
       = (Throw e, Scenario.chainedService)).
Proof.
  apply (getWebpackChainConfig_non_function Example.host
           (VStr "not a function") Scenario.chainedService).
  - vm_compute. apply elem_of_cons. left. reflexivity.
  - reflexivity.
Defined.

Lemma getWebpackConfig_before_hook_witness :
  truthy (getProp (wc_config Scenario.finalConfig) "devServer") = true /\
  callBeforeHook Example.host (wc_before Scenario.finalConfig) Scenario.later
    = ([Used 30; Used 31; CalledBefore 40], Ok tt) /\
  callBeforeHook Example.host (wc_before Scenario.finalConfig)
    Scenario.failing
    = ([Used 30; Used 31; Used 32], Throw (Thrown (VStr "listen EADDRINUSE"))).
Proof.
  destruct (getWebpackConfig_before_hook Example.host None
              Scenario.finalConfig Scenario.withMiddleware
              Scenario.withMiddleware)
    as (_ & Ht & before & Hb & _ & Hlive); [vm_compute; reflexivity |].
  assert (Ok before = Ok (VFun 40)) as [= ->]
    by (rewrite <- Hb; vm_compute; reflexivity).
  assert (devServerMiddlewares Scenario.withMiddleware <> []) as Hne
    by (vm_compute; discriminate).
  split; [exact Ht |]. split.
  - destruct (Hlive Hne Scenario.later) as [Hall _].
    rewrite Hall; [reflexivity |]. vm_compute. repeat constructor.
  - destruct (Hlive Hne Scenario.failing) as [_ Hthrow].
    apply (Hthrow [30; 31] 32 [33]).
    + vm_compute. reflexivity.
    + repeat constructor.
    + reflexivity.
Defined.

Lemma normalizeConfig_publicPath_witness :
  (forall v, getProp Example.fileConfig "publicPath" = VStr v ->
     exists v',
       getProp Example.normalized "publicPath" = VStr v' /\
       (v' = "" \/ Words.endsWithSlash v' = true) /\
       (Str.isHttpUrl v = true ->
        v' = if Words.endsWithSlash v then v else (v ++ "/")%string)) /\
  ((forall v, getProp Example.fileConfig "publicPath" <> VStr v) ->
   getProp Example.normalized "publicPath"
     = getProp Example.fileConfig "publicPath").
Proof.
  apply (normalizeConfig_publicPath Example.host Example.fileConfig
           Example.normalized (VStr "/project/san.config.js")).
  vm_compute. reflexivity.
Defined.

Lemma normalizeConfig_outputDir_witness :
  exists v',
    getProp Example.normalized "outputDir" = VStr v' /\
    (forall w, "build/" = (w ++ "/")%string -> v' = w) /\
    (Words.endsWithSlash "build/" = false -> v' = "build/").
Proof.
  apply (normalizeConfig_outputDir Example.host Example.fileConfig
           Example.normalized (VStr "/project/san.config.js") "build/").
  - vm_compute. reflexivity.
  - reflexivity.
Defined.

Lemma loadProjectOptions_missing_file_witness :
  loadProjectOptions Scenario.lenient (VStr "missing.js") Example.configured
  = loadProjectOptions Scenario.lenient VUndef
      (set_log (log Example.configured
                  ++ [LogWarn ("config file `" ++ "missing.js"
                               ++ "` is not exists!")%string])
         Example.configured).
Proof.
  apply (loadProjectOptions_missing_file Scenario.lenient "missing.js"
           Example.configured).
  - discriminate.
  - reflexivity.
Defined.

Lemma loadProjectOptions_invalid_config_witness :
  exists s',
    loadProjectOptions Scenario.strict VUndef Example.configured
      = (Throw (SError "publicPath should be string"), s') /\
    log s' = log Example.configured
               ++ [LogError (toDisplay (VStr "/project/san.config.js")
                             ++ ": Invalid type.")%string] /\
    projectOptions s' = projectOptions Example.configured.
Proof.
  apply (loadProjectOptions_invalid_config Scenario.strict VUndef
           (VStr "/project/san.config.js") Example.fileConfig
           "publicPath should be string" Example.configured
           Example.configured).
  - vm_compute. reflexivity.
  - reflexivity.
Defined.

Lemma loadProjectOptions_fills_constructor_options_witness :
  _initProjectOptions
    (Example.after (loadProjectOptions Scenario.unconfigured VUndef)
       Example.configured)
  = if truthy (VBool false)
    then VObj (defaultsDeep (VObj {[ "assetsDir" := VStr "res" ]})
                 (defaultConfig Scenario.unconfigured))
    else VObj Scenario.defaulted.
Proof.
  apply (loadProjectOptions_fills_constructor_options Scenario.unconfigured
           VUndef (VBool false) VUndef {[ "assetsDir" := VStr "res" ]}
           Scenario.defaulted Example.configured Example.configured).
  - reflexivity.
  - vm_compute. reflexivity.
  - vm_compute. reflexivity.
Defined.

Lemma loadEnv_keeps_process_env_witness :
  (loadEnv Scenario.files "/project" (VStr "production") Scenario.shellEnv).1
    !! "PATH" = Some "/usr/bin".
Proof.
  apply (loadEnv_keeps_process_env Scenario.files "/project"
           (VStr "production") Scenario.shellEnv "PATH" "/usr/bin").
  - vm_compute. reflexivity.
  - left. discriminate.
Defined.

Lemma loadEnv_local_over_default_witness :
  (loadEnv Scenario.files "/project" (VStr "production") Scenario.shellEnv).1
    !! "API" = Some "http://localhost:3000".
Proof.
  apply (loadEnv_local_over_default Scenario.files "/project"
           (VStr "production") Scenario.shellEnv
           {[ "API" := "http://localhost:3000" ]}
           "/project/.env.production" "API" "http://localhost:3000").
  - vm_compute. reflexivity.
  - discriminate.
  - vm_compute. reflexivity.
  - vm_compute. reflexivity.
  - vm_compute. reflexivity.
  - discriminate.
Defined.

Lemma loadEnv_node_env_witness :
  exists v,
    (loadEnv Scenario.files "/project" (VStr "production")
       Scenario.shellEnv).1 !! "NODE_ENV" = Some v /\ v <> "" /\
    (Scenario.shellEnv !! "NODE_ENV" = Some "" ->
     (VStr "production" = VStr "production" -> v = "production") /\
     (VStr "production" <> VStr "production" -> v = "development")).
Proof.
  apply (proj2 (loadEnv_node_env Scenario.files "/project"
                  (VStr "production") Scenario.shellEnv)
           "/project/.env.production" "NODE_ENV").
  - vm_compute. reflexivity.
  - discriminate.
  - reflexivity.
  - left. reflexivity.
Defined.

Lemma run_config_error_witness :
  exists rt',
    run Scenario.strict Scenario.runHost "serve" Scenario.argv
      ["--port"; "8899"] Scenario.started
      = (Throw (SError "publicPath should be string"), rt') /\
    plugins (service rt') = plugins (service Scenario.started) /\
    projectOptions (service rt') = projectOptions (service Scenario.started) /\
    initialized (service rt') = initialized (service Scenario.started) /\
    applied (service rt') = applied (service Scenario.started) /\
    cliParsed (service rt') = cliParsed (service Scenario.started) /\
    version rt' = argv_version Scenario.argv /\
    isProduction rt'
      = Some (isProductionMode (runMode "serve" Scenario.argv)).
Proof.
  apply (run_config_error Scenario.strict Scenario.runHost "serve"
           Scenario.argv ["--port"; "8899"] Scenario.started
           (SError "publicPath should be string")).
  vm_compute. reflexivity.
Defined.

Lemma run_initializes_witness :
  exists options,
    (loadProjectOptions Scenario.lenient (argv_configFile Scenario.argv)
       (service Scenario.started)).1 = Ok options /\
    projectOptions (service Scenario.served) = VObj options /\
    initialized (service Scenario.served) = true /\
    mode (service Scenario.served)
      = jsOr (argv_mode Scenario.argv)
          (if String.eqb "serve" "build" && truthy (argv_watch Scenario.argv)
           then VStr "development" else VStr "production").
Proof.
  apply (run_initializes Scenario.lenient Scenario.runHost "serve"
           Scenario.argv ["--port"; "8899"] Scenario.started
           Scenario.served).
  - reflexivity.
  - vm_compute. reflexivity.
Defined.

Lemma run_progress_plugin_last_witness :
  exists apps a,
    applied (service Scenario.served)
      = applied (service Scenario.started) ++ apps ++ [a] /\
    app_options a
      = match progressPlugin Scenario.runHost with
        | VArr l => jsOr (default VUndef (l !! 1)) (VObj ∅)
        | _ => VObj {[ "name" := VStr "serve" ]}
        end /\
    app_projectOptions a = projectOptions (service Scenario.served) /\
    (forall o, progressPlugin Scenario.runHost = VObj o ->
               getProp o "apply" = VFun (app_fn a)).
Proof.
  apply (run_progress_plugin_last Scenario.lenient Scenario.runHost "serve"
           Scenario.argv ["--port"; "8899"] Scenario.started
           Scenario.served).
  - reflexivity.
  - reflexivity.
  - vm_compute. reflexivity.
Defined.

Lemma cloneRuleNames_restores_witness :
  cloneRuleNames
    (Some (shapesOf Scenario.originalRules ++ [Scenario.addedRule]))
    (Some Scenario.originalRules)
  = Ok (Some (Scenario.originalRules ++ [Scenario.addedRule])).
Proof.
  apply (cloneRuleNames_restores Scenario.originalRules
           [Scenario.addedRule]).
  reflexivity.
Defined.

Lemma cloneRuleNames_again_witness :
  cloneRuleNames (Some (Scenario.originalRules ++ [Scenario.addedRule]))
    (Some Scenario.originalRules)
  = Ok (Some (Scenario.originalRules ++ [Scenario.addedRule])) /\
  option_map shapesOf
    (Some (Scenario.originalRules ++ [Scenario.addedRule]))
  = option_map shapesOf
      (Some (shapesOf Scenario.originalRules ++ [Scenario.addedRule])).
Proof.
  apply (cloneRuleNames_again
           (Some (shapesOf Scenario.originalRules ++ [Scenario.addedRule]))
           (Some Scenario.originalRules)
           (Some (Scenario.originalRules ++ [Scenario.addedRule]))).
  reflexivity.
Defined.

Lemma registration_failure_writes_nothing_witness :
  registerCommand Scenario.warning (VStr "serve") VUndef Example.withServe
    = (Throw TypeError, Example.withServe) /\
  registerCommandFlag Scenario.warning (VNum 1) (VObj ∅) (VFun 11)
    Example.withServe
    = (Throw TypeError, Example.withServe) /\
  isOk (registerCommandFlag Scenario.warning (VStr "serve") VUndef VUndef
          Example.withServe).1 = true.
Proof.
  split; [| split].
  - apply (registration_failure_writes_nothing Scenario.warning
             (VStr "serve") VUndef VUndef Example.withServe).
    reflexivity.
  - apply (registration_failure_writes_nothing Scenario.warning (VNum 1)
             (VObj ∅) (VFun 11) Example.withServe).
    reflexivity.
  - apply (proj2 (proj2 (registration_failure_writes_nothing
                           Scenario.warning (VStr "serve") VUndef VUndef
                           Example.withServe))
             "serve").
    reflexivity.
Defined.

Lemma loadPlugin_result_witness :
  EntryValue Example.goodPlugin = EntryValue VUndef \/
  is_Some (entryFunction (EntryValue Example.goodPlugin)).
Proof.
  apply (proj2 (loadPlugin_result Example.host (Single Example.goodPlugin)
                  Example.bare)).
  vm_compute. reflexivity.
Defined.
